(** * Client-side RPC retry and in-flight registry (yb/rpc/rpc.cc)

    A shallow embedding of [RpcRetrier], [Rpc::ScheduleRetry] and [Rpcs] from
    src/yb/rpc/rpc.cc, followed by the properties proved about them.

    Conventions.
    - Every C++ method is a function in a state-and-outcome monad over a
      world record holding the object's fields and the collaborators the
      method talks to (messenger, clock, flags, random source, log).
    - [int] and [int32] values are [Z] with the two's-complement wrap-around
      written out ([wrap32]); instants and durations are nanoseconds in [Z].
    - A [CHECK] that fails ends the run in [Fatal]; a loop that can only be
      left through the action of another thread ends in [Blocked] once the
      supplied schedule or fuel is used up.
    - Each method runs without interference from other threads.  Where a
      method sleeps or waits for another thread, what the other threads do
      meanwhile is an explicit argument (the naps of [Abort], the wake-ups
      of [Shutdown]); the memory orders of the atomics play no role.
    - Types and functions declared outside rpc.cc (Status, MonoTime,
      RpcController, Messenger, string rendering) are modelled as far as
      rpc.cc uses them; what rpc.cc only forwards is kept abstract in the
      class [Collaborators].
    - [Rpcs::Abort] works on pointers to the callers' handles; it is
      modelled in [Handles], over a store of those handles.
    - The mutex handling of the [Rpcs] constructor is not modelled. *)

From Stdlib Require Import ZArith List String Bool Lia PeanoNat DecimalString.
Import ListNotations.

#[local] Open Scope Z_scope.

(* ===================================================================== *)
(** ** Status (yb/util/status.h) *)
(* ===================================================================== *)

Inductive StatusCode : Type :=
| kOk
| kNotFound
| kCorruption
| kInvalidArgument
| kIOError
| kNetworkError
| kIllegalState
| kAborted
| kRemoteError
| kServiceUnavailable
| kTimedOut.

Record Status : Type := STATUS { status_code : StatusCode; status_message : string }.

Definition Status_OK : Status := STATUS kOk EmptyString.

Definition StatusCode_eqb (a b : StatusCode) : bool :=
  match a, b with
  | kOk, kOk | kNotFound, kNotFound | kCorruption, kCorruption
  | kInvalidArgument, kInvalidArgument | kIOError, kIOError
  | kNetworkError, kNetworkError | kIllegalState, kIllegalState
  | kAborted, kAborted | kRemoteError, kRemoteError
  | kServiceUnavailable, kServiceUnavailable | kTimedOut, kTimedOut => true
  | _, _ => false
  end.

Definition ok (s : Status) : bool := StatusCode_eqb (status_code s) kOk.
Definition IsRemoteError (s : Status) : bool := StatusCode_eqb (status_code s) kRemoteError.
Definition IsTimedOut (s : Status) : bool := StatusCode_eqb (status_code s) kTimedOut.
Definition IsServiceUnavailable (s : Status) : bool :=
  StatusCode_eqb (status_code s) kServiceUnavailable.
Definition IsAborted (s : Status) : bool := StatusCode_eqb (status_code s) kAborted.
Definition IsIllegalState (s : Status) : bool := StatusCode_eqb (status_code s) kIllegalState.

(* ===================================================================== *)
(** ** Time (yb/util/monotime.h) *)
(* ===================================================================== *)

(** Modelled from the spec: [MonoTime] is declared in monotime.h, which is
    not part of the sources.  An instant is a count of nanoseconds on the
    monotonic clock; the default-constructed instant (count 0) is the
    "uninitialized" one.  Arithmetic is unbounded. *)
Definition MonoTime : Type := Z.
Definition MonoDelta : Type := Z.

Definition Initialized (t : MonoTime) : bool := negb (t =? 0).
Definition ComesBefore (t rhs : MonoTime) : bool := t <? rhs.
Definition FromMilliseconds (ms : Z) : MonoDelta := ms * 1000000.
Definition MonoTime_min (a b : MonoTime) : MonoTime := Z.min a b.
Definition MonoTime_max (a b : MonoTime) : MonoTime := Z.max a b.

(* ===================================================================== *)
(** ** Flags (DEFINE_int64 / DEFINE_int32 at the top of rpc.cc) *)
(* ===================================================================== *)

Record Flags : Type := {
  FLAGS_rpcs_shutdown_timeout_ms : Z;
  FLAGS_rpcs_shutdown_extra_delay_ms : Z;
  FLAGS_retryable_rpc_single_call_timeout_ms : Z;
  FLAGS_min_backoff_ms_exponent : Z;
  FLAGS_max_backoff_ms_exponent : Z
}.

(** The defaults of the five flags; [kTimeMultiplier] comes from
    yb/util/tsan_util.h and is left as a parameter. *)
Definition default_flags (kTimeMultiplier : Z) : Flags := {|
  FLAGS_rpcs_shutdown_timeout_ms := 15000 * kTimeMultiplier;
  FLAGS_rpcs_shutdown_extra_delay_ms := 5000 * kTimeMultiplier;
  FLAGS_retryable_rpc_single_call_timeout_ms := 2500 * kTimeMultiplier;
  FLAGS_min_backoff_ms_exponent := 7;
  FLAGS_max_backoff_ms_exponent := 16
|}.

(* ===================================================================== *)
(** ** 32-bit signed arithmetic *)
(* ===================================================================== *)

Definition INT_MAX : Z := 2147483647.
Definition INT_MIN : Z := -2147483648.

(** Reduction of an integer into the range of [int]. *)
Definition wrap32 (x : Z) : Z := (x + 2147483648) mod 4294967296 - 2147483648.

Definition int_add (a b : Z) : Z := wrap32 (a + b).
(** [1 << e] on [int]. *)
Definition int_shl (a e : Z) : Z := wrap32 (Z.shiftl a e).

(* ===================================================================== *)
(** ** Outcomes and the state monad *)
(* ===================================================================== *)

Inductive Outcome (W A : Type) : Type :=
| Done (a : A) (w : W)      (* the call returned [a] *)
| Fatal (w : W)             (* a CHECK / DFATAL fired *)
| Blocked (w : W).          (* still looping: only another thread can end the loop *)

Arguments Done {W A} a w.
Arguments Fatal {W A} w.
Arguments Blocked {W A} w.

Definition M (W A : Type) : Type := W -> Outcome W A.

Definition ret {W A : Type} (a : A) : M W A := fun w => Done a w.

Definition bind {W A B : Type} (m : M W A) (k : A -> M W B) : M W B :=
  fun w =>
    match m w with
    | Done a w' => k a w'
    | Fatal w' => Fatal w'
    | Blocked w' => Blocked w'
    end.

Definition gets {W A : Type} (f : W -> A) : M W A := fun w => Done (f w) w.
Definition modify {W : Type} (f : W -> W) : M W unit := fun w => Done tt (f w).
Definition fatal {W A : Type} : M W A := fun w => Fatal w.
Definition blocked {W A : Type} : M W A := fun w => Blocked w.

(** The world an outcome ends in. *)
Definition final {W A : Type} (o : Outcome W A) : W :=
  match o with
  | Done _ w => w
  | Fatal w => w
  | Blocked w => w
  end.

(** [CHECK(cond)]. *)
Definition CHECK {W : Type} (cond : bool) : M W unit :=
  if cond then ret tt else fatal.

Declare Scope monad_scope.
Delimit Scope monad_scope with monad.
Notation "x <- m ;; k" := (bind m (fun x => k))
  (at level 61, m at next level, right associativity) : monad_scope.
Notation "' pat <- m ;; k" := (bind m (fun x => match x with pat => k end))
  (at level 61, pat pattern, m at next level, right associativity) : monad_scope.
Notation "m ;; k" := (bind m (fun _ => k))
  (at level 61, right associativity) : monad_scope.
#[local] Open Scope monad_scope.

(* ===================================================================== *)
(** ** The retrier: data *)
(* ===================================================================== *)

(** yb/rpc/rpc.h: the five states of a retrier. *)
Inductive RpcRetrierState : Type :=
| kIdle
| kRunning
| kScheduling
| kWaiting
| kFinished.

Definition RpcRetrierState_eqb (a b : RpcRetrierState) : bool :=
  match a, b with
  | kIdle, kIdle | kRunning, kRunning | kScheduling, kScheduling
  | kWaiting, kWaiting | kFinished, kFinished => true
  | _, _ => false
  end.

Inductive BackoffStrategy : Type :=
| kLinear
| kExponential.

(** [ScheduledTaskId] is an [int64_t]; [kInvalidTaskId] is the sentinel the
    messenger returns when it refuses a task.  Both are declared in
    yb/rpc/rpc_fwd.h, outside the sources; of the sentinel's value only its
    being different from every id the messenger hands out matters. *)
Definition ScheduledTaskId : Type := Z.
Definition kInvalidTaskId : ScheduledTaskId := -1.

(** rpc_header.proto: the error codes of [ErrorStatusPB]. *)
Inductive RpcErrorCodePB : Type :=
| FATAL_UNKNOWN
| ERROR_APPLICATION
| ERROR_NO_SUCH_METHOD
| ERROR_NO_SUCH_SERVICE
| ERROR_SERVER_TOO_BUSY
| ERROR_INVALID_REQUEST
| FATAL_SERVER_SHUTTING_DOWN.

(** [pb_code = None] is a message whose [has_code()] is false. *)
Record ErrorStatusPB : Type := {
  pb_message : string;
  pb_code : option RpcErrorCodePB
}.

Definition is_server_too_busy (c : RpcErrorCodePB) : bool :=
  match c with ERROR_SERVER_TOO_BUSY => true | _ => false end.

(** What rpc.cc reads from and writes to an [RpcController]:
    [status()], [error_response()] (a null pointer is [None]) and the
    per-attempt deadline. *)
Record RpcController : Type := {
  controller_status : Status;
  controller_error_response : option ErrorStatusPB;
  controller_deadline : MonoTime
}.

Record RpcRetrier : Type := {
  attempt_num_ : Z;
  deadline_ : MonoTime;
  controller_ : RpcController;
  last_error_ : Status;
  task_id_ : ScheduledTaskId;
  state_ : RpcRetrierState
}.

(** Modelled from the spec: the Messenger (yb/rpc/messenger.cc) is not part
    of the sources.  Section 6 of the spec: [schedule_on_reactor] accepts a
    closure to be invoked after a delay and returns its task id, or returns
    the sentinel [Invalid] on refusal; [abort_on_reactor] requests the
    cancellation of a task.  The messenger below keeps the accepted tasks in
    [scheduled_tasks]; a refused closure is not kept.  Each task stands for
    the closure [std::bind(&RpcRetrier::DoRetry, this, rpc, _1)]. *)
Record DelayedTask : Type := {
  task_id : ScheduledTaskId;
  task_delay : MonoDelta;
  task_abort_requested : bool
}.

Record Messenger : Type := {
  accepting : bool;
  next_task_id : positive;
  scheduled_tasks : list DelayedTask
}.

Inductive Event : Type :=
| EvLogWarning (text : string)
| EvLogDFatal (text : string)
| EvSendRpc
| EvFinished (s : Status)
| EvAbortOnReactor (id : ScheduledTaskId)
| EvSleep (d : MonoDelta).

(** The world a retrier runs in: the retrier itself, its messenger, the
    flags, [MonoTime::Now()], the values the random source will produce, the
    spurious failures [compare_exchange_weak] will suffer, and the calls made
    to the outside so far (newest last). *)
Record World : Type := {
  retrier : RpcRetrier;
  messenger : Messenger;
  flags : Flags;
  now : MonoTime;
  entropy : list Z;
  weak_failures : list bool;
  events : list Event
}.

(** The polymorphic command driven by the retrier (class [RpcCommand]):
    its virtual methods act on the world and may call back into the
    retrier. *)
Record RpcCommand : Type := {
  ToString : string;
  SendRpc : M World unit;
  Finished : Status -> M World unit
}.

(** Functions of other translation units that rpc.cc only forwards to:
    the renderings used in messages, [RpcController::Reset], and the default
    value of [DelayedRetry]'s [strategy] argument (rpc.h). *)
Class Collaborators : Type := {
  MonoTime_ToString : MonoTime -> string;
  Status_ToString : Status -> string;
  RpcRetrierState_ToString : RpcRetrierState -> string;
  ScheduledTaskId_ToString : ScheduledTaskId -> string;
  RpcController_Reset : RpcController -> RpcController;
  default_strategy : BackoffStrategy
}.

Module Retrier.

Section WithCollaborators.
Context {collab : Collaborators}.

(** *** Field updates *)

Definition with_retrier (f : RpcRetrier -> RpcRetrier) (w : World) : World :=
  {| retrier := f (retrier w); messenger := messenger w; flags := flags w;
     now := now w; entropy := entropy w; weak_failures := weak_failures w;
     events := events w |}.

Definition with_messenger (f : Messenger -> Messenger) (w : World) : World :=
  {| retrier := retrier w; messenger := f (messenger w); flags := flags w;
     now := now w; entropy := entropy w; weak_failures := weak_failures w;
     events := events w |}.

Definition with_entropy (e : list Z) (w : World) : World :=
  {| retrier := retrier w; messenger := messenger w; flags := flags w;
     now := now w; entropy := e; weak_failures := weak_failures w;
     events := events w |}.

Definition with_weak_failures (l : list bool) (w : World) : World :=
  {| retrier := retrier w; messenger := messenger w; flags := flags w;
     now := now w; entropy := entropy w; weak_failures := l;
     events := events w |}.

Definition with_now (t : MonoTime) (w : World) : World :=
  {| retrier := retrier w; messenger := messenger w; flags := flags w;
     now := t; entropy := entropy w; weak_failures := weak_failures w;
     events := events w |}.

Definition with_event (e : Event) (w : World) : World :=
  {| retrier := retrier w; messenger := messenger w; flags := flags w;
     now := now w; entropy := entropy w; weak_failures := weak_failures w;
     events := events w ++ [e] |}.

Definition set_state (s : RpcRetrierState) (r : RpcRetrier) : RpcRetrier :=
  {| attempt_num_ := attempt_num_ r; deadline_ := deadline_ r;
     controller_ := controller_ r; last_error_ := last_error_ r;
     task_id_ := task_id_ r; state_ := s |}.

Definition set_task_id (id : ScheduledTaskId) (r : RpcRetrier) : RpcRetrier :=
  {| attempt_num_ := attempt_num_ r; deadline_ := deadline_ r;
     controller_ := controller_ r; last_error_ := last_error_ r;
     task_id_ := id; state_ := state_ r |}.

Definition set_last_error (s : Status) (r : RpcRetrier) : RpcRetrier :=
  {| attempt_num_ := attempt_num_ r; deadline_ := deadline_ r;
     controller_ := controller_ r; last_error_ := s;
     task_id_ := task_id_ r; state_ := state_ r |}.

Definition set_attempt_num (n : Z) (r : RpcRetrier) : RpcRetrier :=
  {| attempt_num_ := n; deadline_ := deadline_ r;
     controller_ := controller_ r; last_error_ := last_error_ r;
     task_id_ := task_id_ r; state_ := state_ r |}.

Definition set_controller (c : RpcController) (r : RpcRetrier) : RpcRetrier :=
  {| attempt_num_ := attempt_num_ r; deadline_ := deadline_ r;
     controller_ := c; last_error_ := last_error_ r;
     task_id_ := task_id_ r; state_ := state_ r |}.

Definition set_deadline (t : MonoTime) (c : RpcController) : RpcController :=
  {| controller_status := controller_status c;
     controller_error_response := controller_error_response c;
     controller_deadline := t |}.

(** *** Primitive actions *)

Definition emit (e : Event) : M World unit := modify (with_event e).

(** [LOG(WARNING) << status]. *)
Definition LOG_WARNING (text : string) : M World unit := emit (EvLogWarning text).

Definition Now : M World MonoTime := gets now.

(** [std::this_thread::sleep_for(d)]: the clock advances by [d] and the
    other threads run; what they do meanwhile is [others]. *)
Definition sleep_for (d : MonoDelta) (others : M World unit) : M World unit :=
  emit (EvSleep d) ;;
  t <- Now ;;
  modify (with_now (t + d)) ;;
  others.

(** Modelled from the spec: [RandomUniformInt(min, max)] (random_util.h) is
    a uniformly distributed integer in [[min, max]].  The next value of the
    random source is reduced into the interval; with no value left the draw
    is [min]. *)
Definition RandomUniformInt (lo hi : Z) : M World Z :=
  fun w =>
    match entropy w with
    | [] => Done lo w
    | r :: rest => Done (lo + r mod (hi - lo + 1)) (with_entropy rest w)
    end.

(** [state_.compare_exchange_strong(expected, desired)]: the result and the
    new value of [expected]. *)
Definition compare_exchange_strong (expected desired : RpcRetrierState)
  : M World (bool * RpcRetrierState) :=
  fun w =>
    if RpcRetrierState_eqb (state_ (retrier w)) expected
    then Done (true, expected) (with_retrier (set_state desired) w)
    else Done (false, state_ (retrier w)) w.

(** [state_.compare_exchange_weak(expected, desired)]: as the strong form,
    except that it may fail although the value matched; the next entry of
    [weak_failures] says whether this call does. *)
Definition compare_exchange_weak (expected desired : RpcRetrierState)
  : M World (bool * RpcRetrierState) :=
  fun w =>
    match weak_failures w with
    | true :: rest => Done (false, state_ (retrier w)) (with_weak_failures rest w)
    | false :: rest => compare_exchange_strong expected desired (with_weak_failures rest w)
    | [] => compare_exchange_strong expected desired w
    end.

(** Modelled from the spec: [Messenger::ScheduleOnReactor] (see
    [Messenger] above).  An accepting messenger stores the task under a
    fresh id and returns the id; otherwise it returns [kInvalidTaskId] and
    stores nothing. *)
Definition ScheduleOnReactor (delay : MonoDelta) : M World ScheduledTaskId :=
  fun w =>
    let m := messenger w in
    if accepting m then
      let id := Z.pos (next_task_id m) in
      Done id
        (with_messenger
           (fun m =>
              {| accepting := accepting m;
                 next_task_id := Pos.succ (next_task_id m);
                 scheduled_tasks :=
                   scheduled_tasks m ++
                   [{| task_id := id; task_delay := delay;
                       task_abort_requested := false |}] |}) w)
    else Done kInvalidTaskId w.

Definition request_abort (id : ScheduledTaskId) (t : DelayedTask) : DelayedTask :=
  if task_id t =? id
  then {| task_id := task_id t; task_delay := task_delay t;
          task_abort_requested := true |}
  else t.

(** Modelled from the spec: [Messenger::AbortOnReactor] marks the task; the
    reactor later fires its closure. *)
Definition AbortOnReactor (id : ScheduledTaskId) : M World unit :=
  emit (EvAbortOnReactor id) ;;
  modify (with_messenger
            (fun m =>
               {| accepting := accepting m;
                  next_task_id := next_task_id m;
                  scheduled_tasks := map (request_abort id) (scheduled_tasks m) |})).

(** [rpc->SendRpc()] and [rpc->Finished(status)]: the call is recorded, then
    the command's own code runs. *)
Definition call_SendRpc (rpc : RpcCommand) : M World unit :=
  emit EvSendRpc ;; SendRpc rpc.

Definition call_Finished (rpc : RpcCommand) (status : Status) : M World unit :=
  emit (EvFinished status) ;; Finished rpc status.

(* ===================================================================== *)
(** ** The retrier: methods (rpc.cc, lines 80-263) *)
(* ===================================================================== *)

(** Lines 115-120: the delay in milliseconds, on [int]. *)
Definition backoff_ms (fl : Flags) (strategy : BackoffStrategy)
  (attempt_num jitter : Z) : Z :=
  int_add
    (match strategy with
     | kExponential =>
         int_shl 1 (Z.min (int_add (FLAGS_min_backoff_ms_exponent fl) attempt_num)
                          (FLAGS_max_backoff_ms_exponent fl))
     | kLinear => attempt_num
     end)
    jitter.

(** Lines 107-121 of [DelayedRetry]: the [last_error_] policy, the delay,
    and [attempt_num_++].  Returns [num_ms]. *)
Definition DelayedRetry_backoff (why_status : Status) (strategy : BackoffStrategy)
  : M World Z :=
  last_error <- gets (fun w => last_error_ (retrier w)) ;;
  (if negb (ok why_status) && (ok last_error || IsTimedOut last_error)
   then modify (with_retrier (set_last_error why_status))
   else ret tt) ;;
  fl <- gets flags ;;
  attempt_num <- gets (fun w => attempt_num_ (retrier w)) ;;
  jitter <- RandomUniformInt 0 4 ;;
  modify (with_retrier (set_attempt_num (int_add attempt_num 1))) ;;
  ret (backoff_ms fl strategy attempt_num jitter).

(** Lines 123-135 of [DelayedRetry]: the loop that takes the retrier to
    [kScheduling].  [None] when the exchange succeeded, [Some result] when
    the loop returned [result].  [expected_state] is the loop-carried
    variable; one unit of [fuel] is one evaluation of the loop condition.
    [STATUS_FORMAT] renders the command pointer [$0] as the command's
    [ToString()]; the source location a status records is left out. *)
Fixpoint DelayedRetry_acquire (fuel : nat) (rpc : RpcCommand)
  (expected_state : RpcRetrierState) : M World (option Status) :=
  match fuel with
  | O => blocked
  | S fuel' =>
      '(exchanged, expected_state) <- compare_exchange_strong expected_state kScheduling ;;
      if exchanged then ret None
      else
        match expected_state with
        | kFinished =>
            let result :=
              STATUS kIllegalState ("Retry of finished command: " ++ ToString rpc) in
            LOG_WARNING (Status_ToString result) ;;
            ret (Some result)
        | kWaiting =>
            let result :=
              STATUS kIllegalState ("Retry of already waiting command: " ++ ToString rpc) in
            LOG_WARNING (Status_ToString result) ;;
            ret (Some result)
        | _ => DelayedRetry_acquire fuel' rpc expected_state
        end
  end.

(** Lines 137-154 of [DelayedRetry]: hand the closure to the messenger and
    leave [kScheduling]. *)
Definition DelayedRetry_schedule (rpc : RpcCommand) (num_ms : Z) : M World Status :=
  id <- ScheduleOnReactor (FromMilliseconds num_ms) ;;
  modify (with_retrier (set_task_id id)) ;;
  loaded <- gets (fun w => task_id_ (retrier w)) ;;
  if loaded =? kInvalidTaskId then
    let result := STATUS kAborted ("Failed to schedule: " ++ ToString rpc) in
    LOG_WARNING (Status_ToString result) ;;
    '(exchanged, _) <- compare_exchange_strong kScheduling kFinished ;;
    CHECK exchanged ;;
    ret result
  else
    '(exchanged, _) <- compare_exchange_strong kScheduling kWaiting ;;
    CHECK exchanged ;;
    ret Status_OK.

(** [RpcRetrier::DelayedRetry] (lines 105-155). *)
Definition DelayedRetry (fuel : nat) (rpc : RpcCommand) (why_status : Status)
  (strategy : BackoffStrategy) : M World Status :=
  num_ms <- DelayedRetry_backoff why_status strategy ;;
  acquired <- DelayedRetry_acquire fuel rpc kIdle ;;
  match acquired with
  | Some result => ret result
  | None => DelayedRetry_schedule rpc num_ms
  end.

(** The test of lines 89-91 on [controller_.error_response()]. *)
Definition too_busy (err : option ErrorStatusPB) : bool :=
  match err with
  | Some e =>
      match pb_code e with
      | Some c => is_server_too_busy c
      | None => false
      end
  | None => false
  end.

(** [RpcRetrier::HandleResponse] (lines 80-103).  The out-parameter
    [*out_status] is passed in and returned beside the result. *)
Definition HandleResponse (fuel : nat) (rpc : RpcCommand) (out_status : Status)
  (retry_when_busy : bool) : M World (bool * Status) :=
  controller_status <- gets (fun w => controller_status (controller_ (retrier w))) ;;
  let terminal := ret (false, controller_status) in
  if IsRemoteError controller_status && retry_when_busy then
    err <- gets (fun w => controller_error_response (controller_ (retrier w))) ;;
    if too_busy err then
      status <- DelayedRetry fuel rpc controller_status kExponential ;;
      if negb (ok status) then ret (false, status)
      else ret (true, out_status)
    else terminal
  else terminal.

(** Lines 165-172 of [DoRetry]: the busy wait while the scheduling thread
    has not yet left [kScheduling]. *)
Fixpoint DoRetry_spin (fuel : nat) (run : bool) (expected_state : RpcRetrierState)
  : M World (bool * RpcRetrierState) :=
  if negb run && RpcRetrierState_eqb expected_state kScheduling then
    match fuel with
    | O => blocked
    | S fuel' =>
        '(run, expected_state) <- compare_exchange_strong kWaiting kRunning ;;
        if run then ret (run, expected_state)
        else
          sleep_for (FromMilliseconds 1) (ret tt) ;;
          DoRetry_spin fuel' run expected_state
    end
  else ret (run, expected_state).

(** Lines 179-194 of [DoRetry]: has this RPC timed out? *)
Definition DoRetry_deadline_check (rpc : RpcCommand) (status : Status) : M World Status :=
  if ok status then
    deadline <- gets (fun w => deadline_ (retrier w)) ;;
    if Initialized deadline then
      now <- Now ;;
      if ComesBefore deadline now then
        let err_str :=
          (ToString rpc ++ " passed its deadline " ++ MonoTime_ToString deadline
           ++ " (now: " ++ MonoTime_ToString now ++ ")")%string in
        last_error <- gets (fun w => last_error_ (retrier w)) ;;
        let err_str :=
          if negb (ok last_error)
          then (err_str ++ ": " ++ Status_ToString last_error)%string
          else err_str in
        ret (STATUS kTimedOut err_str)
      else ret status
    else ret status
  else ret status.

(** [RpcRetrier::DoRetry] (lines 157-208), the closure the reactor fires. *)
Definition DoRetry (fuel : nat) (rpc : RpcCommand) (status : Status) : M World unit :=
  '(run, expected_state) <- compare_exchange_strong kWaiting kRunning ;;
  '(run, expected_state) <- DoRetry_spin fuel run expected_state ;;
  modify (with_retrier (set_task_id kInvalidTaskId)) ;;
  if negb run then
    call_Finished rpc
      (STATUS kAborted
         (ToString rpc ++ " aborted: " ++ RpcRetrierState_ToString expected_state))
  else
    new_status <- DoRetry_deadline_check rpc status ;;
    (if ok new_status then
       modify (with_retrier
                 (fun r => set_controller (RpcController_Reset (controller_ r)) r)) ;;
       call_SendRpc rpc
     else
       let new_status :=
         if IsServiceUnavailable new_status
         then STATUS kAborted ("Aborted because of " ++ Status_ToString new_status)
         else new_status in
       call_Finished rpc new_status) ;;
    _ <- compare_exchange_strong kRunning kIdle ;;
    ret tt.

(** [RpcRetrier::ToString] (lines 242-247): [Format] fills [$0], [$1] and
    [$2] with the renderings of the task id, the state and the deadline. *)
Definition RpcRetrier_ToString (r : RpcRetrier) : string :=
  "{ task_id: " ++ ScheduledTaskId_ToString (task_id_ r)
  ++ " state: " ++ RpcRetrierState_ToString (state_ r)
  ++ " deadline: " ++ MonoTime_ToString (deadline_ r) ++ " }".

(** [LOG(DFATAL) << text]: the line is logged; the process ends there in a
    build in which [DFATAL] is [FATAL] (a debug build), and goes on in a
    build in which it is [ERROR]. *)
Definition LOG_DFATAL (dfatal_is_fatal : bool) (text : string) : M World unit :=
  emit (EvLogDFatal text) ;;
  if dfatal_is_fatal then fatal else ret tt.

(** [RpcRetrier::~RpcRetrier] (lines 210-219): [LOG_IF(DFATAL, ...)].
    [dfatal_is_fatal] is the flavour of the build. *)
Definition destructor (dfatal_is_fatal : bool) : M World unit :=
  task_id <- gets (fun w => task_id_ (retrier w)) ;;
  state <- gets (fun w => state_ (retrier w)) ;;
  if negb (kInvalidTaskId =? task_id)
     || (negb (RpcRetrierState_eqb kFinished state)
         && negb (RpcRetrierState_eqb kIdle state))
  then
    text <- gets (fun w => RpcRetrier_ToString (retrier w)) ;;
    LOG_DFATAL dfatal_is_fatal ("Destroying RpcRetrier in invalid state: " ++ text)
  else ret tt.

(** Lines 222-231 of [Abort]: park the state in [kFinished].  Each sleep
    consumes one entry of [naps], the activity of the other threads during
    that sleep; the rest of the schedule is returned. *)
Fixpoint Abort_park (naps : list (M World unit)) (expected_state : RpcRetrierState)
  : M World (list (M World unit)) :=
  '(exchanged, expected_state) <- compare_exchange_weak expected_state kFinished ;;
  if exchanged then ret naps
  else if RpcRetrierState_eqb expected_state kFinished then ret naps
  else
    let expected_state :=
      if negb (RpcRetrierState_eqb expected_state kWaiting) then kIdle
      else expected_state in
    match naps with
    | [] => blocked
    | nap :: naps' =>
        sleep_for (FromMilliseconds 10) nap ;;
        Abort_park naps' expected_state
    end.

(** Lines 232-239 of [Abort]: ask the messenger to abort the task until
    [task_id_] is cleared. *)
Fixpoint Abort_drain (naps : list (M World unit)) : M World unit :=
  task_id <- gets (fun w => task_id_ (retrier w)) ;;
  if task_id =? kInvalidTaskId then ret tt
  else
    AbortOnReactor task_id ;;
    match naps with
    | [] => blocked
    | nap :: naps' =>
        sleep_for (FromMilliseconds 10) nap ;;
        Abort_drain naps'
    end.

(** [RpcRetrier::Abort] (lines 221-240). *)
Definition Abort (naps : list (M World unit)) : M World unit :=
  naps <- Abort_park naps kIdle ;;
  Abort_drain naps.

(** [RpcRetrier::PrepareController] (lines 249-255); an unset
    [single_call_timeout] is [None]. *)
Definition PrepareController (single_call_timeout : option MonoDelta)
  : M World RpcController :=
  fl <- gets flags ;;
  let single_call_timeout :=
    match single_call_timeout with
    | Some d => d
    | None => FromMilliseconds (FLAGS_retryable_rpc_single_call_timeout_ms fl)
    end in
  deadline <- gets (fun w => deadline_ (retrier w)) ;;
  now <- Now ;;
  modify (with_retrier
            (fun r =>
               set_controller
                 (set_deadline (MonoTime_min deadline (now + single_call_timeout))
                    (controller_ r)) r)) ;;
  gets (fun w => controller_ (retrier w)).

(** [Rpc::ScheduleRetry] (lines 257-263). *)
Definition ScheduleRetry (fuel : nat) (rpc : RpcCommand) (status : Status)
  : M World unit :=
  retry_status <- DelayedRetry fuel rpc status default_strategy ;;
  if negb (ok retry_status) then
    LOG_WARNING ("Failed to schedule retry: " ++ Status_ToString retry_status) ;;
    call_Finished rpc retry_status
  else ret tt.

(** *** The reactor *)

Definition is_task (id : ScheduledTaskId) (t : DelayedTask) : bool := task_id t =? id.

Definition pending (id : ScheduledTaskId) (w : World) : bool :=
  existsb (is_task id) (scheduled_tasks (messenger w)).

Definition drop_task (id : ScheduledTaskId) (m : Messenger) : Messenger :=
  {| accepting := accepting m;
     next_task_id := next_task_id m;
     scheduled_tasks := filter (fun t => negb (is_task id t)) (scheduled_tasks m) |}.

(** Modelled from the spec: the reactor fires the closure of a task it
    holds, once, with the status of the firing (OK at expiry, not OK when
    the task was aborted or the reactor shuts down).  A task it does not
    hold is never fired. *)
Definition reactor_fire (fuel : nat) (rpc : RpcCommand) (id : ScheduledTaskId)
  (status : Status) : M World unit :=
  is_pending <- gets (pending id) ;;
  if is_pending then
    modify (with_messenger (drop_task id)) ;;
    DoRetry fuel rpc status
  else ret tt.

Fixpoint reactor_run (fuel : nat) (rpc : RpcCommand)
  (firings : list (ScheduledTaskId * Status)) : M World unit :=
  match firings with
  | [] => ret tt
  | (id, status) :: rest =>
      reactor_fire fuel rpc id status ;;
      reactor_run fuel rpc rest
  end.

End WithCollaborators.

End Retrier.

(* ===================================================================== *)
(** ** The registry of in-flight commands: [Rpcs] (rpc.cc, lines 265-386) *)
(* ===================================================================== *)

Module Registry.

(** A command as the registry sees it: an identity and [deadline()]
    ([command_deadline]).  Its
    [Abort()] and [SendRpc()] are recorded as calls. *)
Record Command : Type := {
  command_id : nat;
  command_deadline : MonoTime
}.

(** [RpcCommandPtr] is a [std::shared_ptr<RpcCommand>]; [None] is the null
    pointer. *)
Definition RpcCommandPtr : Type := option Command.

(** [Calls] is a [std::list<RpcCommandPtr>].  A node keeps its address while
    other nodes are inserted or erased: each node carries the address it was
    allocated at.  A [Handle] is an iterator: the address of a node, or
    [calls_.end()]. *)
Definition Node : Type := (nat * RpcCommandPtr)%type.
Definition Handle : Type := option nat.

Record Rpcs : Type := {
  calls_ : list Node;
  shutdown_ : bool;
  next_node : nat
}.

Inductive cv_status : Type :=
| no_timeout
| timeout.

Inductive Call : Type :=
| CallAbort (c : Command)
| CallSendRpc (c : Command)
| NotifyOne
| WaitUntil (deadline : MonoTime)
| LogWaitingCalls (size : nat).

Record World : Type := {
  rpcs : Rpcs;
  flags : Flags;
  now : MonoTime;
  calls_made : list Call
}.

(** What the other threads do while this one waits on [cond_]: the nodes
    they erase through [Unregister], and how the wait ends. *)
Record Wakeup : Type := {
  unregistered : list nat;
  wait_result : cv_status
}.

Definition with_rpcs (f : Rpcs -> Rpcs) (w : World) : World :=
  {| rpcs := f (rpcs w); flags := flags w; now := now w;
     calls_made := calls_made w |}.

Definition emit (c : Call) : M World unit :=
  modify (fun w => {| rpcs := rpcs w; flags := flags w; now := now w;
                      calls_made := calls_made w ++ [c] |}).

(** [calls_.end()], which is also [InvalidHandle()]. *)
Definition InvalidHandle : Handle := None.

(** [--calls_.end()]: the iterator of the last node. *)
Definition prev_end (calls : list Node) : Handle :=
  match rev calls with
  | [] => None
  | (addr, _) :: _ => Some addr
  end.

(** [**handle] *)
Definition deref (addr : nat) (calls : list Node) : option RpcCommandPtr :=
  match find (fun n => Nat.eqb (fst n) addr) calls with
  | Some (_, call) => Some call
  | None => None
  end.

(** [calls_.push_back(call)] and [calls_.emplace_back()]. *)
Definition push_back (call : RpcCommandPtr) (r : Rpcs) : Rpcs :=
  {| calls_ := calls_ r ++ [(next_node r, call)];
     shutdown_ := shutdown_ r;
     next_node := S (next_node r) |}.

(** [calls_.erase(it)] *)
Definition erase (addr : nat) (r : Rpcs) : Rpcs :=
  {| calls_ := filter (fun n => negb (Nat.eqb (fst n) addr)) (calls_ r);
     shutdown_ := shutdown_ r;
     next_node := next_node r |}.

Definition set_shutdown (b : bool) (r : Rpcs) : Rpcs :=
  {| calls_ := calls_ r; shutdown_ := b; next_node := next_node r |}.

Definition empty (r : Rpcs) : bool :=
  match calls_ r with [] => true | _ :: _ => false end.

(** [call->Abort()]; the call through a null pointer ends the process. *)
Definition call_Abort (call : RpcCommandPtr) : M World unit :=
  match call with
  | Some c => emit (CallAbort c)
  | None => fatal
  end.

(** [Rpcs::Register(RpcCommandPtr call)] (lines 317-325). *)
Definition Register (call : RpcCommandPtr) : M World Handle :=
  shutdown <- gets (fun w => shutdown_ (rpcs w)) ;;
  if shutdown then
    call_Abort call ;;
    ret InvalidHandle
  else
    modify (with_rpcs (push_back call)) ;;
    gets (fun w => prev_end (calls_ (rpcs w))).

(** [Rpcs::Register(RpcCommandPtr call, Handle* handle)] (lines 311-315);
    returns the new value of [*handle]. *)
Definition Register_into (call : RpcCommandPtr) (handle : Handle) : M World Handle :=
  match handle with
  | None => Register call
  | Some _ => ret handle
  end.

(** [Rpcs::RegisterAndStart] (lines 327-333). *)
Definition RegisterAndStart (call : RpcCommandPtr) (handle : Handle) : M World Handle :=
  CHECK (match handle with None => true | Some _ => false end) ;;
  handle <- Register_into call handle ;;
  match handle with
  | None => ret handle
  | Some addr =>
      calls <- gets (fun w => calls_ (rpcs w)) ;;
      match deref addr calls with
      | Some (Some c) => emit (CallSendRpc c) ;; ret handle
      | _ => fatal
      end
  end.

(** [Rpcs::Unregister] (lines 335-347): the command and the new value of
    [*handle].  A handle whose node is gone is a dangling iterator. *)
Definition Unregister (handle : Handle) : M World (RpcCommandPtr * Handle) :=
  match handle with
  | None => ret (None, handle)
  | Some addr =>
      calls <- gets (fun w => calls_ (rpcs w)) ;;
      match deref addr calls with
      | None => fatal
      | Some result =>
          modify (with_rpcs (erase addr)) ;;
          emit NotifyOne ;;
          ret (result, InvalidHandle)
      end
  end.

(** [Rpcs::Prepare] (lines 349-356). *)
Definition Prepare : M World Handle :=
  shutdown <- gets (fun w => shutdown_ (rpcs w)) ;;
  if shutdown then ret InvalidHandle
  else
    modify (with_rpcs (push_back None)) ;;
    gets (fun w => prev_end (calls_ (rpcs w))).

(** Lines 288-292 of [DoRequestAbortAll]: the loop over the snapshot. *)
Fixpoint abort_calls (calls : list RpcCommandPtr) (single_call_extra_delay : MonoDelta)
  (deadline : MonoTime) : M World MonoTime :=
  match calls with
  | [] => ret deadline
  | call :: rest =>
      CHECK (match call with Some _ => true | None => false end) ;;
      match call with
      | Some c =>
          emit (CallAbort c) ;;
          abort_calls rest single_call_extra_delay
            (MonoTime_max deadline (command_deadline c + single_call_extra_delay))
      | None => fatal
      end
  end.

(** [Rpcs::DoRequestAbortAll] (lines 274-295). *)
Definition DoRequestAbortAll (shutdown : bool) : M World MonoTime :=
  already <- gets (fun w => shutdown_ (rpcs w)) ;;
  calls <- (if negb already then
              modify (with_rpcs (set_shutdown shutdown)) ;;
              gets (fun w => map snd (calls_ (rpcs w)))
            else ret []) ;;
  now <- gets now ;;
  fl <- gets flags ;;
  let deadline := now + FromMilliseconds (FLAGS_rpcs_shutdown_timeout_ms fl) in
  let single_call_extra_delay := FromMilliseconds (FLAGS_rpcs_shutdown_extra_delay_ms fl) in
  abort_calls calls single_call_extra_delay deadline.

(** [Rpcs::RequestAbortAll] (lines 358-360). *)
Definition RequestAbortAll : M World unit :=
  _ <- DoRequestAbortAll false ;;
  ret tt.

(** [cond_.wait_until(lock, deadline)]: the mutex is released, the other
    threads unregister the nodes of [wk], and the wait ends as [wk] says. *)
Definition wait_until (deadline : MonoTime) (wk : Wakeup) : M World cv_status :=
  emit (WaitUntil deadline) ;;
  modify (with_rpcs (fun r => fold_left (fun r addr => erase addr r) (unregistered wk) r)) ;;
  ret (wait_result wk).

(** Lines 301-306 of [Shutdown]: the wait for the calls to drain. *)
Fixpoint Shutdown_wait (deadline : MonoTime) (wakeups : list Wakeup) : M World unit :=
  is_empty <- gets (fun w => empty (rpcs w)) ;;
  if is_empty then ret tt
  else
    size <- gets (fun w => List.length (calls_ (rpcs w))) ;;
    emit (LogWaitingCalls size) ;;
    match wakeups with
    | [] => blocked
    | wk :: rest =>
        result <- wait_until deadline wk ;;
        match result with
        | timeout => ret tt
        | no_timeout => Shutdown_wait deadline rest
        end
    end.

(** [Rpcs::Shutdown] (lines 297-309).  [meanwhile] are the nodes other
    threads (or the aborted commands themselves) unregister between the
    snapshot and the moment this thread takes the mutex again; [wakeups] is
    the schedule of its waits. *)
Definition Shutdown (meanwhile : list nat) (wakeups : list Wakeup) : M World unit :=
  deadline <- DoRequestAbortAll true ;;
  modify (with_rpcs (fun r => fold_left (fun r addr => erase addr r) meanwhile r)) ;;
  Shutdown_wait deadline wakeups ;;
  is_empty <- gets (fun w => empty (rpcs w)) ;;
  CHECK is_empty.

End Registry.

(* ===================================================================== *)
(** ** Aborting a list of handles: [Rpcs::Abort] (rpc.cc, lines 362-386) *)
(* ===================================================================== *)

Module Handles.
Import Registry.

(** [Rpcs::Abort] is given pointers to handles, which the other threads
    reset through [Unregister] while it waits.  The handles live in
    a store beside the registry; a [Handle*] is the index of a handle in the
    store.  [waits] counts the calls of [cond_.wait(lock)]. *)
Definition HandlePtr : Type := nat.

Record World : Type := {
  registry : Registry.World;
  handles : list Handle;
  waits : nat
}.

Definition with_registry (r : Registry.World) (w : World) : World :=
  {| registry := r; handles := handles w; waits := waits w |}.

(** A method of the registry, run in the larger world. *)
Definition lift {A : Type} (m : M Registry.World A) : M World A :=
  fun w =>
    match m (registry w) with
    | Done a r => Done a (with_registry r w)
    | Fatal r => Fatal (with_registry r w)
    | Blocked r => Blocked (with_registry r w)
    end.

Fixpoint assign (p : HandlePtr) (h : Handle) (store : list Handle) : list Handle :=
  match store, p with
  | [], _ => []
  | _ :: rest, O => h :: rest
  | h' :: rest, S p' => h' :: assign p' h rest
  end.

(** [*handle]; a pointer that is not in the store is dangling. *)
Definition load (p : HandlePtr) : M World Handle :=
  fun w =>
    match nth_error (handles w) p with
    | Some h => Done h w
    | None => Fatal w
    end.

(** [*handle = h] *)
Definition store (p : HandlePtr) (h : Handle) : M World unit :=
  modify (fun w => {| registry := registry w; handles := assign p h (handles w);
                      waits := waits w |}).

(** [Rpcs::Unregister(Handle* handle)] (lines 335-347) on a handle of the
    store. *)
Definition Unregister (p : HandlePtr) : M World RpcCommandPtr :=
  handle <- load p ;;
  '(result, handle) <- lift (Registry.Unregister handle) ;;
  store p handle ;;
  ret result.

(** What other threads do while this one does not hold the mutex: they
    unregister handles. *)
Fixpoint others (ps : list HandlePtr) : M World unit :=
  match ps with
  | [] => ret tt
  | p :: rest => _ <- Unregister p ;; others rest
  end.

(** [cond_.wait(lock)]: the mutex is released and the other threads
    unregister the handles of [wk]; [wk] is empty for a spurious wakeup. *)
Definition cond_wait (wk : list HandlePtr) : M World unit :=
  modify (fun w => {| registry := registry w; handles := handles w;
                      waits := S (waits w) |}) ;;
  others wk.

(** Lines 365-370: the commands behind the valid handles, in the order of
    the list. *)
Fixpoint collect (listed : list HandlePtr) : M World (list RpcCommandPtr) :=
  match listed with
  | [] => ret []
  | p :: rest =>
      handle <- load p ;;
      match handle with
      | None => collect rest
      | Some addr =>
          calls <- gets (fun w => calls_ (rpcs (registry w))) ;;
          match deref addr calls with
          | Some call =>
              to_abort <- collect rest ;;
              ret (call :: to_abort)
          | None => fatal
          end
      end
  end.

(** Lines 375-377: [rpc->Abort()] for each collected command. *)
Fixpoint abort_each (to_abort : list RpcCommandPtr) : M World unit :=
  match to_abort with
  | [] => ret tt
  | rpc :: rest => lift (call_Abort rpc) ;; abort_each rest
  end.

(** The handles of the list from the first valid one on: the [for] loop of
    lines 380-384 moves on as long as [*handle == calls_.end()]. *)
Fixpoint skip_invalid (listed : list HandlePtr) : M World (list HandlePtr) :=
  match listed with
  | [] => ret []
  | p :: rest =>
      handle <- load p ;;
      match handle with
      | None => skip_invalid rest
      | Some _ => ret listed
      end
  end.

(** Lines 378-385: wait until every handle of the list is invalid.  Each
    wait consumes one entry of [wakeups]. *)
Fixpoint Abort_wait (wakeups : list (list HandlePtr)) (listed : list HandlePtr)
  : M World unit :=
  remaining <- skip_invalid listed ;;
  match remaining with
  | [] => ret tt
  | _ :: _ =>
      match wakeups with
      | [] => blocked
      | wk :: rest =>
          cond_wait wk ;;
          Abort_wait rest remaining
      end
  end.

(** [Rpcs::Abort] (lines 362-386).  [meanwhile] are the handles
    unregistered by other threads, or by the aborted commands themselves,
    between the calls of [Abort()] and the moment this thread takes the
    mutex again. *)
Definition Abort (listed : list HandlePtr) (meanwhile : list HandlePtr)
  (wakeups : list (list HandlePtr)) : M World unit :=
  to_abort <- collect listed ;;
  match to_abort with
  | [] => ret tt
  | _ :: _ =>
      abort_each to_abort ;;
      others meanwhile ;;
      Abort_wait wakeups listed
  end.

End Handles.

(* ===================================================================== *)
(** ** Auxiliary definitions used in the statements *)
(* ===================================================================== *)

Section RetrierStatements.
Context {collab : Collaborators}.
Import Retrier.

(** The loop of [DelayedRetry] ends within two evaluations of its
    condition when no other thread touches the state. *)
Definition acquired (rpc : RpcCommand) (w : World) : Outcome World (option Status) :=
  match state_ (retrier w) with
  | kFinished =>
      let result := STATUS kIllegalState ("Retry of finished command: " ++ ToString rpc) in
      Done (Some result) (with_event (EvLogWarning (Status_ToString result)) w)
  | kWaiting =>
      let result :=
        STATUS kIllegalState ("Retry of already waiting command: " ++ ToString rpc) in
      Done (Some result) (with_event (EvLogWarning (Status_ToString result)) w)
  | _ => Done None (with_retrier (set_state kScheduling) w)
  end.


(** The jitter [RandomUniformInt(0, 4)] draws in world [w]. *)
Definition drawn_jitter (w : World) : Z :=
  match entropy w with
  | [] => 0
  | r :: _ => r mod 5
  end.

(** The value [RandomUniformInt(lo, hi)] returns in a world. *)
Definition draw (lo hi : Z) (w : World) : Z :=
  match RandomUniformInt lo hi w with
  | Done j _ => j
  | Fatal _ | Blocked _ => lo
  end.

(** The raw values [0, 1, ..., count - 1] of the random source. *)
Definition raw_values (count : nat) : list Z := map Z.of_nat (seq 0 count).

(** How many of the raw values [raws], put in front of the random source,
    make [RandomUniformInt(lo, hi)] return [value]. *)
Definition times_drawn (lo hi value : Z) (raws : list Z) (w : World) : nat :=
  List.length
    (filter (fun r => draw lo hi (with_entropy (r :: entropy w) w) =? value) raws).

(** An integer that fits [int]. *)
Definition representable (x : Z) : Prop := INT_MIN <= x <= INT_MAX.

(** The expression of lines 115-120 evaluates without overflow and with a
    shift count the type admits. *)
Definition delay_defined (fl : Flags) (strategy : BackoffStrategy) (n j : Z) : Prop :=
  match strategy with
  | kExponential =>
      representable (FLAGS_min_backoff_ms_exponent fl + n)
      /\ 0 <= Z.min (FLAGS_min_backoff_ms_exponent fl + n)
                    (FLAGS_max_backoff_ms_exponent fl) <= 30
  | kLinear => representable (n + j)
  end.

(** The [last_error_] policy of lines 107-109. *)
Definition next_last_error (why_status last_error : Status) : Status :=
  if negb (ok why_status) && (ok last_error || IsTimedOut last_error)
  then why_status
  else last_error.

(** The text of the status [DelayedRetry] returns from a state that admits
    no retry. *)
Definition rejection (rpc : RpcCommand) (state : RpcRetrierState) : Status :=
  match state with
  | kFinished => STATUS kIllegalState ("Retry of finished command: " ++ ToString rpc)
  | _ => STATUS kIllegalState ("Retry of already waiting command: " ++ ToString rpc)
  end.

(** The condition of lines 87-91 under which [HandleResponse] retries. *)
Definition busy_retry (retry_when_busy : bool) (w : World) : bool :=
  IsRemoteError (controller_status (controller_ (retrier w)))
  && retry_when_busy
  && too_busy (controller_error_response (controller_ (retrier w))).

(** The message of the [TimedOut] status synthesized by [DoRetry]. *)
Definition deadline_message (rpc : RpcCommand) (w : World) : string :=
  let base :=
    (ToString rpc ++ " passed its deadline " ++ MonoTime_ToString (deadline_ (retrier w))
     ++ " (now: " ++ MonoTime_ToString (now w) ++ ")")%string in
  if ok (last_error_ (retrier w)) then base
  else (base ++ ": " ++ Status_ToString (last_error_ (retrier w)))%string.

(** The world in which [DoRetry] runs the command once it holds
    [kRunning]: the state is [kRunning] and [task_id_] is cleared. *)
Definition running (w : World) : World :=
  with_retrier (set_task_id kInvalidTaskId) (with_retrier (set_state kRunning) w).

(** The tail of [DoRetry] (lines 206-207). *)
Definition back_to_idle : M World unit :=
  _ <- compare_exchange_strong kRunning kIdle ;;
  ret tt.

(** The virtual method of the command that [DoRetry] calls. *)
Inductive Callback : Type :=
| ViaSendRpc
| ViaFinished (status : Status).

Definition invoke (rpc : RpcCommand) (cb : Callback) : M World unit :=
  match cb with
  | ViaSendRpc => SendRpc rpc
  | ViaFinished status => Finished rpc status
  end.

(** The record of the call in the events. *)
Definition recorded (cb : Callback) : Event :=
  match cb with
  | ViaSendRpc => EvSendRpc
  | ViaFinished status => EvFinished status
  end.

(** What [DoRetry] does after the command returned: the exchange of lines
    206-207 when it held [kRunning], nothing when it reported the abort. *)
Definition afterwards (held_running : bool) : M World unit :=
  if held_running then back_to_idle else ret tt.

(** The state the exchange of lines 206-207 leaves. *)
Definition settled (held_running : bool) (state : RpcRetrierState) : RpcRetrierState :=
  if held_running && RpcRetrierState_eqb state kRunning then kIdle else state.

(** *** The retrier between operations *)

(** A property of the retrier's two atomics. *)
Definition observes (R : RpcRetrierState -> ScheduledTaskId -> Prop) (w : World) : Prop :=
  R (state_ (retrier w)) (task_id_ (retrier w)).

(** A task id is outstanding only while the retrier is scheduling or
    waiting. *)
Definition task_or_waiting (state : RpcRetrierState) (id : ScheduledTaskId) : Prop :=
  id = kInvalidTaskId \/ state = kWaiting \/ state = kScheduling.

Definition task_only_while_waiting : World -> Prop := observes task_or_waiting.

(** Partial correctness of a call: from a world satisfying [P], a call that
    returns does so with [Q]. *)
Definition triple {A : Type} (P : World -> Prop) (m : M World A)
  (Q : A -> World -> Prop) : Prop :=
  forall w a w', P w -> m w = Done a w' -> Q a w'.

Definition preserves {A : Type} (P : World -> Prop) (m : M World A) : Prop :=
  triple P m (fun _ => P).

(** Steps that leave [state_] and [task_id_] alone keep every property of
    the two. *)
Definition same_state_and_task (f : World -> World) : Prop :=
  forall w, state_ (retrier (f w)) = state_ (retrier w)
            /\ task_id_ (retrier (f w)) = task_id_ (retrier w).

(** A command whose virtual methods respect the retrier: like every public
    method of the retrier, they leave a task id outstanding only with the
    retrier scheduling or waiting. *)
Definition well_behaved (rpc : RpcCommand) : Prop :=
  preserves task_only_while_waiting (SendRpc rpc)
  /\ forall status, preserves task_only_while_waiting (Finished rpc status).

(** A command whose virtual methods do not schedule a retry: run with
    [task_id_] cleared, they return with [task_id_] cleared. *)
Definition keeps_task_cleared (rpc : RpcCommand) : Prop :=
  preserves (observes (fun _ id => id = kInvalidTaskId)) (SendRpc rpc)
  /\ forall status,
       preserves (observes (fun _ id => id = kInvalidTaskId)) (Finished rpc status).

(** A freshly constructed retrier (rpc.h). *)
Definition initial (w : World) : Prop :=
  state_ (retrier w) = kIdle /\ task_id_ (retrier w) = kInvalidTaskId.

(** The operations that can be performed on a retrier and its
    surroundings between two observations. *)
Inductive Operation : Type :=
| OpDelayedRetry (why_status : Status) (strategy : BackoffStrategy)
| OpScheduleRetry (status : Status)
| OpHandleResponse (out_status : Status) (retry_when_busy : bool)
| OpPrepareController (single_call_timeout : option MonoDelta)
| OpAbort (naps : list (list (ScheduledTaskId * Status)))
| OpReactorFire (id : ScheduledTaskId) (status : Status)
| OpAttemptDone (status : Status) (error_response : option ErrorStatusPB)
| OpClock (t : MonoTime)
| OpMessengerAccepts (accepts : bool)
| OpRandomSource (values : list Z) (failures : list bool).

Definition set_outcome (status : Status) (err : option ErrorStatusPB)
  (c : RpcController) : RpcController :=
  {| controller_status := status;
     controller_error_response := err;
     controller_deadline := controller_deadline c |}.

Definition perform (fuel : nat) (rpc : RpcCommand) (op : Operation) : M World unit :=
  match op with
  | OpDelayedRetry why_status strategy =>
      _ <- DelayedRetry fuel rpc why_status strategy ;; ret tt
  | OpScheduleRetry status => ScheduleRetry fuel rpc status
  | OpHandleResponse out_status retry_when_busy =>
      _ <- HandleResponse fuel rpc out_status retry_when_busy ;; ret tt
  | OpPrepareController single_call_timeout =>
      _ <- PrepareController single_call_timeout ;; ret tt
  | OpAbort naps => Abort (map (reactor_run fuel rpc) naps)
  | OpReactorFire id status => reactor_fire fuel rpc id status
  | OpAttemptDone status err =>
      modify (with_retrier (fun r => set_controller (set_outcome status err (controller_ r)) r))
  | OpClock t => modify (with_now t)
  | OpMessengerAccepts accepts =>
      modify (with_messenger
                (fun m => {| accepting := accepts; next_task_id := next_task_id m;
                             scheduled_tasks := scheduled_tasks m |}))
  | OpRandomSource values failures =>
      modify (fun w => with_weak_failures failures (with_entropy values w))
  end.

Fixpoint perform_all (fuel : nat) (rpc : RpcCommand) (ops : list Operation)
  : M World unit :=
  match ops with
  | [] => ret tt
  | op :: rest => perform fuel rpc op ;; perform_all fuel rpc rest
  end.

(** A command whose [SendRpc] and [Finished] are sequences of operations on
    its retrier; [inner] receives the calls those operations make on the
    command. *)
Definition scripted_command (fuel : nat) (inner : RpcCommand)
  (send : list Operation) (finished : Status -> list Operation) : RpcCommand :=
  {| ToString := ToString inner;
     SendRpc := perform_all fuel inner send;
     Finished := fun status => perform_all fuel inner (finished status) |}.

(** The worlds in which a retrier can be observed with none of its
    operations in progress. *)
Inductive Quiescent (fuel : nat) (rpc : RpcCommand) : World -> Prop :=
| Quiescent_initial (w : World) : initial w -> Quiescent fuel rpc w
| Quiescent_after (w w' : World) (op : Operation) :
    Quiescent fuel rpc w -> perform fuel rpc op w = Done tt w' -> Quiescent fuel rpc w'.

End RetrierStatements.

Section RegistryStatements.
Import Registry.

(** The commands [DoRequestAbortAll] copies under the mutex: all of
    [calls_], or none when the registry was already shut down. *)
Definition snapshot (w : World) : list RpcCommandPtr :=
  if shutdown_ (rpcs w) then [] else map snd (calls_ (rpcs w)).

Definition present (call : RpcCommandPtr) : bool :=
  match call with Some _ => true | None => false end.

(** The commands behind the non-null pointers of a list. *)
Fixpoint commands (calls : list RpcCommandPtr) : list Command :=
  match calls with
  | [] => []
  | Some c :: rest => c :: commands rest
  | None :: rest => commands rest
  end.

(** The latest of an instant and a list of instants. *)
Definition latest (base : MonoTime) (instants : list MonoTime) : MonoTime :=
  fold_right Z.max base instants.

(** The drain deadline: the later of [now + rpcs_shutdown_timeout_ms] and
    the latest [deadline + rpcs_shutdown_extra_delay_ms] over the aborted
    calls. *)
Definition drain_deadline (w : World) : MonoTime :=
  latest (now w + FromMilliseconds (FLAGS_rpcs_shutdown_timeout_ms (flags w)))
    (map (fun c => command_deadline c
                   + FromMilliseconds (FLAGS_rpcs_shutdown_extra_delay_ms (flags w)))
       (commands (snapshot w))).

(** The world after further calls to the outside. *)
Definition after_calls (made : list Call) (w : World) : World :=
  {| rpcs := rpcs w; flags := flags w; now := now w;
     calls_made := calls_made w ++ made |}.

(** Node addresses are handed out in increasing order. *)
Definition fresh (r : Rpcs) : Prop :=
  forall addr call, In (addr, call) (calls_ r) -> (addr < next_node r)%nat.

(** The calls a wait loop makes: waits on [deadline] and log lines. *)
Definition waits_on (deadline : MonoTime) (c : Call) : Prop :=
  c = WaitUntil deadline \/ exists size, c = LogWaitingCalls size.

Definition timed_out (wk : Wakeup) : bool :=
  match wait_result wk with timeout => true | no_timeout => false end.

(** The world in which the loop of [DoRequestAbortAll] starts. *)
Definition flagged (shutdown : bool) (w : World) : World :=
  if shutdown_ (rpcs w) then w else with_rpcs (set_shutdown shutdown) w.

(** The world after one wait of [Shutdown]: the size of [calls_] is logged,
    the wait is entered, and the other threads unregister the nodes of
    [wk]. *)
Definition woken (deadline : MonoTime) (wk : Wakeup) (w : World) : World :=
  with_rpcs (fun r => fold_left (fun r addr => erase addr r) (unregistered wk) r)
    (after_calls [LogWaitingCalls (List.length (calls_ (rpcs w))); WaitUntil deadline] w).

(** The world in which [Shutdown] takes the mutex again: the nodes of
    [meanwhile] are gone. *)
Definition drained (meanwhile : list nat) (w : World) : World :=
  with_rpcs (fun r => fold_left (fun r addr => erase addr r) meanwhile r) w.


End RegistryStatements.

(* ===================================================================== *)
(** ** Sample collaborators, commands and worlds *)
(* ===================================================================== *)

Definition decimal (z : Z) : string := NilZero.string_of_int (Z.to_int z).

Definition sample_collaborators : Collaborators := {|
  MonoTime_ToString := fun t => (decimal t ++ "ns")%string;
  Status_ToString := fun s =>
    match status_code s with
    | kOk => "OK"%string
    | _ => status_message s
    end;
  RpcRetrierState_ToString := fun s =>
    match s with
    | kIdle => "kIdle"
    | kRunning => "kRunning"
    | kScheduling => "kScheduling"
    | kWaiting => "kWaiting"
    | kFinished => "kFinished"
    end%string;
  ScheduledTaskId_ToString := decimal;
  RpcController_Reset := fun c =>
    {| controller_status := Status_OK;
       controller_error_response := None;
       controller_deadline := controller_deadline c |};
  default_strategy := kLinear
|}.

(** A command whose [SendRpc] and [Finished] leave the retrier alone. *)
Definition passive_command : RpcCommand := {|
  ToString := "rpc";
  SendRpc := ret tt;
  Finished := fun _ => ret tt
|}.

(** A command whose [SendRpc] fails at once and reschedules itself through
    [ScheduleRetry]. *)
Definition rescheduling_command : RpcCommand := {|
  ToString := "rpc";
  SendRpc :=
    Retrier.ScheduleRetry (collab := sample_collaborators) 2 passive_command
      (STATUS kNetworkError "no tablet server");
  Finished := fun _ => ret tt
|}.

Definition too_busy_controller : RpcController := {|
  controller_status := STATUS kRemoteError "server too busy";
  controller_error_response :=
    Some {| pb_message := "queue full"; pb_code := Some ERROR_SERVER_TOO_BUSY |};
  controller_deadline := 0
|}.

(** A retrier on its first attempt, with the deadline and the last error
    given. *)
Definition sample_retrier (deadline : MonoTime) (last_error : Status)
  (state : RpcRetrierState) (id : ScheduledTaskId) : RpcRetrier := {|
  attempt_num_ := 1;
  deadline_ := deadline;
  controller_ := too_busy_controller;
  last_error_ := last_error;
  task_id_ := id;
  state_ := state
|}.

(** A world at 300 ms with the default flags, in which the next task id is
    2 and the random source yields 7. *)
Definition sample_world (r : RpcRetrier) (accepts : bool) : World := {|
  retrier := r;
  messenger := {| accepting := accepts; next_task_id := 2; scheduled_tasks := [] |};
  flags := default_flags 1;
  now := FromMilliseconds 300;
  entropy := [7];
  weak_failures := [];
  events := []
|}.

Definition idle_world : World :=
  sample_world (sample_retrier 0 Status_OK kIdle kInvalidTaskId) true.

Definition finished_world : World :=
  sample_world (sample_retrier 0 Status_OK kFinished kInvalidTaskId) true.

Definition refusing_world : World :=
  sample_world (sample_retrier 0 Status_OK kIdle kInvalidTaskId) false.

(** Waiting on task 1, past the overall deadline of 200 ms, after a
    network error. *)
Definition overdue_world (state : RpcRetrierState) : World :=
  sample_world
    (sample_retrier (FromMilliseconds 200) (STATUS kNetworkError "connection reset")
       state 1)
    true.

(** Scenario 4 of the spec: two commands with deadlines at 100 ms and
    300 ms after a [now] of one second, a shutdown timeout of 50 ms and an
    extra delay of 10 ms. *)
Definition scenario_flags : Flags := {|
  FLAGS_rpcs_shutdown_timeout_ms := 50;
  FLAGS_rpcs_shutdown_extra_delay_ms := 10;
  FLAGS_retryable_rpc_single_call_timeout_ms := 2500;
  FLAGS_min_backoff_ms_exponent := 7;
  FLAGS_max_backoff_ms_exponent := 16
|}.

Definition first_call : Registry.Command :=
  {| Registry.command_id := 1; Registry.command_deadline := FromMilliseconds 1100 |}.

Definition second_call : Registry.Command :=
  {| Registry.command_id := 2; Registry.command_deadline := FromMilliseconds 1300 |}.

Definition scenario_registry (shutdown : bool) : Registry.World := {|
  Registry.rpcs :=
    {| Registry.calls_ := [(0%nat, Some first_call); (1%nat, Some second_call)];
       Registry.shutdown_ := shutdown;
       Registry.next_node := 2 |};
  Registry.flags := scenario_flags;
  Registry.now := FromMilliseconds 1000;
  Registry.calls_made := []
|}.

(* ===================================================================== *)
(** ** The claims that do not hold as they are worded *)
(* ===================================================================== *)

Section AsStated.
Context {collab : Collaborators}.
Import Retrier.

(** C1 as stated: a retry is scheduled exactly under the busy conditions
    when scheduling succeeds, and in every other case the result is [false]
    with [*out_status] the controller status. *)
Definition HandleResponse_as_stated (fuel : nat) (rpc : RpcCommand) (out_status : Status)
  (retry_when_busy : bool) (w : World) : Prop :=
  exists retried out w',
    HandleResponse fuel rpc out_status retry_when_busy w = Done (retried, out) w'
    /\ (retried = true <->
        busy_retry retry_when_busy w = true
        /\ exists status w1,
             DelayedRetry fuel rpc (controller_status (controller_ (retrier w)))
               kExponential w = Done status w1
             /\ ok status = true)
    /\ (retried = false -> out = controller_status (controller_ (retrier w))).

(** The call [DoRetry] makes on the command when the deadline has passed:
    [Finished] with the synthesized time-out, from the world in which the
    retrier is running. *)
Definition delivers_timeout (fuel : nat) (rpc : RpcCommand) (status : Status)
  (w : World) : Prop :=
  DoRetry fuel rpc status w =
    (Finished rpc (STATUS kTimedOut (deadline_message rpc w)) ;; back_to_idle)
      (with_event (EvFinished (STATUS kTimedOut (deadline_message rpc w))) (running w)).

(** C3 as stated: for every invocation with an OK status and the deadline
    passed. *)
Definition DoRetry_times_out_as_stated (fuel : nat) (rpc : RpcCommand) (status : Status)
  (w : World) : Prop :=
  ok status = true ->
  Initialized (deadline_ (retrier w)) = true ->
  ComesBefore (deadline_ (retrier w)) (now w) = true ->
  delivers_timeout fuel rpc status w.

(** C4 as stated: the two messages, and a retrier left as it was. *)
Definition DelayedRetry_rejected_as_stated (fuel : nat) (rpc : RpcCommand)
  (why_status : Status) (strategy : BackoffStrategy) (w : World) : Prop :=
  (state_ (retrier w) = kFinished ->
   exists w',
     DelayedRetry fuel rpc why_status strategy w
       = Done (STATUS kIllegalState "retry of finished command") w'
     /\ retrier w' = retrier w)
  /\ (state_ (retrier w) = kWaiting ->
      exists w',
        DelayedRetry fuel rpc why_status strategy w
          = Done (STATUS kIllegalState "retry of already waiting command") w'
        /\ retrier w' = retrier w).

(** C9 as stated, its clause on [DoRetry]: every completed invocation
    leaves [task_id_] cleared. *)
Definition DoRetry_clears_as_stated (fuel : nat) (rpc : RpcCommand) (status : Status)
  (w : World) : Prop :=
  forall w', DoRetry fuel rpc status w = Done tt w' ->
             task_id_ (retrier w') = kInvalidTaskId.

End AsStated.

(** C7 as stated: the drain deadline is the sum of [now], the shutdown
    timeout and the latest [deadline + extra delay] over the calls. *)
Definition drain_deadline_as_stated (w : Registry.World) : MonoTime :=
  let timeout_ms := FromMilliseconds (FLAGS_rpcs_shutdown_timeout_ms (Registry.flags w)) in
  let extra := FromMilliseconds (FLAGS_rpcs_shutdown_extra_delay_ms (Registry.flags w)) in
  match map (fun c => Registry.command_deadline c + extra) (commands (snapshot w)) with
  | [] => Registry.now w + timeout_ms
  | t :: rest => Registry.now w + timeout_ms + latest t rest
  end.

Definition Shutdown_deadline_as_stated (w : Registry.World) : Prop :=
  exists w1, Registry.DoRequestAbortAll true w = Done (drain_deadline_as_stated w) w1.

(* ===================================================================== *)
(** ** Proof automation *)
(* ===================================================================== *)

(** Evaluation of the monadic glue of the retrier and of the registry. *)
Ltac run :=
  cbv [bind ret gets modify fatal blocked CHECK Retrier.emit Retrier.LOG_WARNING
       Retrier.Now Retrier.call_SendRpc Retrier.call_Finished].

Ltac run_registry :=
  cbv [bind ret gets modify fatal blocked CHECK Registry.emit Registry.call_Abort].

(** Destructs a world of the retrier into its fields. *)
Ltac open_world w :=
  destruct w as [[?attempt ?dl [?cstatus ?cerr ?cdl] ?last ?tid ?st]
                 [?acc ?next ?tasks] ?fl ?t ?ent ?weak ?evs].

(** Reads off an equation between two returned outcomes. *)
Ltac returned H := inversion H; subst; clear H.

(* ===================================================================== *)
(** ** Further definitions used in the statements *)
(* ===================================================================== *)

Section MoreRetrierStatements.
Context {collab : Collaborators}.
Import Retrier.

(** A command whose virtual methods keep a property of the world: started
    in a world with [P], they return in a world with [P]. *)
Definition respects (P : World -> Prop) (rpc : RpcCommand) : Prop :=
  preserves P (SendRpc rpc)
  /\ forall status, preserves P (Finished rpc status).

Definition in_state (state : RpcRetrierState) (w : World) : Prop :=
  state_ (retrier w) = state.

(** A waiting retrier has a task. *)
Definition waiting_with_task (state : RpcRetrierState) (id : ScheduledTaskId) : Prop :=
  state = kWaiting -> id <> kInvalidTaskId.

(** The ids of the tasks the messenger holds. *)
Definition held (w : World) : list ScheduledTaskId :=
  map task_id (scheduled_tasks (messenger w)).

(** The retrier is finished and the ids of the tasks the messenger holds
    satisfy [T]. *)
Definition finished_and (T : list ScheduledTaskId -> Prop) (w : World) : Prop :=
  state_ (retrier w) = kFinished /\ T (held w).

(** The retrier is finished and the messenger holds no task beyond those
    with an id in [ids]. *)
Definition finished_with_tasks (ids : list ScheduledTaskId) : World -> Prop :=
  finished_and (fun l => incl l ids).

(** Steps that leave the ids of the held tasks alone. *)
Definition same_tasks (f : World -> World) : Prop :=
  forall w, held (f w) = held w.

(** Does the call return, rather than block or fail a [CHECK]? *)
Definition returns {A : Type} (m : M World A) (w : World) : bool :=
  match m w with
  | Done _ _ => true
  | _ => false
  end.

(** The status [DoRetry] reports when it cannot take [kRunning]. *)
Definition aborted_in (rpc : RpcCommand) (state : RpcRetrierState) : Status :=
  STATUS kAborted (ToString rpc ++ " aborted: " ++ RpcRetrierState_ToString state).

(** The status [DelayedRetry] returns when no other thread interferes: the
    rejection of a finished or waiting retrier, the refusal of the
    messenger, or [OK]. *)
Definition retry_status (rpc : RpcCommand) (w : World) : Status :=
  match state_ (retrier w) with
  | kFinished | kWaiting => rejection rpc (state_ (retrier w))
  | _ =>
      if accepting (messenger w) then Status_OK
      else STATUS kAborted ("Failed to schedule: " ++ ToString rpc)
  end.

(** The world after [n] sleeps of [d] each. *)
Fixpoint slept (n : nat) (d : MonoDelta) (w : World) : World :=
  match n with
  | O => w
  | S n' => slept n' d (with_now (now w + d) (with_event (EvSleep d) w))
  end.

End MoreRetrierStatements.

Section MoreRegistryStatements.
Import Registry.

(** The requests a registry serves. *)
Inductive Request : Type :=
| ReqRegister (call : RpcCommandPtr)
| ReqRegisterInto (call : RpcCommandPtr) (handle : Handle)
| ReqRegisterAndStart (call : RpcCommandPtr) (handle : Handle)
| ReqUnregister (handle : Handle)
| ReqPrepare
| ReqRequestAbortAll
| ReqShutdown (meanwhile : list nat) (wakeups : list Wakeup).

Definition serve (req : Request) : M World unit :=
  match req with
  | ReqRegister call => _ <- Register call ;; ret tt
  | ReqRegisterInto call handle => _ <- Register_into call handle ;; ret tt
  | ReqRegisterAndStart call handle => _ <- RegisterAndStart call handle ;; ret tt
  | ReqUnregister handle => _ <- Unregister handle ;; ret tt
  | ReqPrepare => _ <- Prepare ;; ret tt
  | ReqRequestAbortAll => RequestAbortAll
  | ReqShutdown meanwhile wakeups => Shutdown meanwhile wakeups
  end.

Fixpoint serve_all (reqs : list Request) : M World unit :=
  match reqs with
  | [] => ret tt
  | req :: rest => serve req ;; serve_all rest
  end.

(** Is the call the start of a command? *)
Definition starts (c : Call) : bool :=
  match c with
  | CallSendRpc _ => true
  | _ => false
  end.

(** A registry that is shut down, holds only nodes of [base], and has
    started no command since [made] calls ago. *)
Definition closed_since (base : World) (w : World) : Prop :=
  shutdown_ (rpcs w) = true
  /\ incl (calls_ (rpcs w)) (calls_ (rpcs base))
  /\ exists made,
       calls_made w = calls_made base ++ made /\ existsb starts made = false.

End MoreRegistryStatements.

Section HandlesStatements.
Import Registry Handles.

(** The handle behind the pointer is [calls_.end()]. *)
Definition invalid_at (w : Handles.World) (p : HandlePtr) : Prop :=
  nth_error (handles w) p = Some InvalidHandle.

(** The commands the valid handles of a list point to, in the order of the
    list. *)
Definition targets (w : Handles.World) (listed : list HandlePtr) : list RpcCommandPtr :=
  flat_map
    (fun p =>
       match nth_error (handles w) p with
       | Some (Some addr) =>
           match deref addr (calls_ (rpcs (registry w))) with
           | Some call => [call]
           | None => []
           end
       | _ => []
       end)
    listed.

(** The registry after further calls to the outside. *)
Definition after_registry_calls (made : list Call) (w : Handles.World) : Handles.World :=
  with_registry (after_calls made (registry w)) w.

End HandlesStatements.

Section HandlesConditions.
Import Registry Handles.

(** The pointer is in the store, and its handle is invalid or the handle of
    a node of [calls_] that holds a command. *)
Definition resolved (w : Handles.World) (p : HandlePtr) : bool :=
  match nth_error (handles w) p with
  | Some None => true
  | Some (Some addr) =>
      match deref addr (calls_ (rpcs (registry w))) with
      | Some (Some _) => true
      | _ => false
      end
  | None => false
  end.

Definition notification (c : Call) : bool :=
  match c with
  | NotifyOne => true
  | _ => false
  end.

(** Between two worlds, invalid handles stayed invalid and the registry
    made no call but notifications of its condition variable. *)
Definition only_unregistered (w w' : Handles.World) : Prop :=
  (forall p, invalid_at w p -> invalid_at w' p)
  /\ exists notes,
       calls_made (registry w') = calls_made (registry w) ++ notes
       /\ forallb notification notes = true.

End HandlesConditions.

(* ===================================================================== *)
(** ** Further sample worlds *)
(* ===================================================================== *)

(** A retrier that waits for task 2, which the messenger holds. *)
Definition waiting_world : World := {|
  retrier := sample_retrier 0 Status_OK kWaiting 2;
  messenger :=
    {| accepting := true;
       next_task_id := 3;
       scheduled_tasks :=
         [{| task_id := 2; task_delay := FromMilliseconds 3;
             task_abort_requested := false |}] |};
  flags := default_flags 1;
  now := FromMilliseconds 300;
  entropy := [7];
  weak_failures := [];
  events := []
|}.

(** A retrier in the middle of an attempt, and one in the middle of
    scheduling a retry. *)
Definition running_world : World :=
  sample_world (sample_retrier 0 Status_OK kRunning kInvalidTaskId) true.

Definition scheduling_world : World :=
  sample_world (sample_retrier 0 Status_OK kScheduling kInvalidTaskId) true.

(** Three handles on the registry of scenario 4: the first and the third
    point to its two commands, the second is invalid. *)
Definition sample_handles : Handles.World := {|
  Handles.registry := scenario_registry false;
  Handles.handles := [Some 0%nat; None; Some 1%nat];
  Handles.waits := 0
|}.

(* ===================================================================== *)
(** * Properties of the retrier *)
(* ===================================================================== *)

Section RetrierProperties.
Context {collab : Collaborators}.
Import Retrier.

Lemma RpcRetrierState_eqb_eq (a b : RpcRetrierState) :
  RpcRetrierState_eqb a b = true <-> a = b.
Proof. destruct a, b; simpl; split; congruence. Qed.

Lemma StatusCode_eqb_eq (a b : StatusCode) : StatusCode_eqb a b = true <-> a = b.
Proof. destruct a, b; simpl; split; congruence. Qed.

Lemma wrap32_small (x : Z) : INT_MIN <= x <= INT_MAX -> wrap32 x = x.
Proof.
  unfold wrap32, INT_MIN, INT_MAX. intros H.
  rewrite Z.mod_small by lia. lia.
Qed.

Lemma DelayedRetry_acquire_enough_fuel (fuel : nat) (rpc : RpcCommand) (w : World) :
  (2 <= fuel)%nat -> DelayedRetry_acquire fuel rpc kIdle w = acquired rpc w.
Proof.
  intros Hfuel.
  destruct fuel as [|[|fuel]]; try lia.
  unfold acquired. cbn [DelayedRetry_acquire]. run.
  unfold compare_exchange_strong.
  destruct (state_ (retrier w)) eqn:Hst; cbn; try reflexivity.
  - rewrite Hst. reflexivity.
  - rewrite Hst. reflexivity.
Qed.

Lemma DelayedRetry_backoff_total (why_status : Status) (strategy : BackoffStrategy)
  (w : World) :
  exists w1,
    DelayedRetry_backoff why_status strategy w =
      Done (backoff_ms (flags w) strategy (attempt_num_ (retrier w)) (drawn_jitter w)) w1
    /\ attempt_num_ (retrier w1) = int_add (attempt_num_ (retrier w)) 1
    /\ last_error_ (retrier w1) = next_last_error why_status (last_error_ (retrier w))
    /\ state_ (retrier w1) = state_ (retrier w)
    /\ task_id_ (retrier w1) = task_id_ (retrier w)
    /\ deadline_ (retrier w1) = deadline_ (retrier w)
    /\ controller_ (retrier w1) = controller_ (retrier w)
    /\ messenger w1 = messenger w
    /\ flags w1 = flags w
    /\ now w1 = now w
    /\ events w1 = events w.
Proof.
  open_world w. unfold DelayedRetry_backoff, next_last_error, drawn_jitter. run.
  cbn.
  destruct (negb (ok why_status) && (ok last || IsTimedOut last)); cbn;
    unfold RandomUniformInt; cbn; destruct ent as [|r rest]; cbn;
    eexists; repeat split.
Qed.

(** What [DelayedRetry] does when no other thread interferes, by the state
    it finds and the answer of the messenger. *)
Lemma DelayedRetry_cases (fuel : nat) (rpc : RpcCommand) (why_status : Status)
  (strategy : BackoffStrategy) (w : World) :
  (2 <= fuel)%nat ->
  let num_ms :=
    backoff_ms (flags w) strategy (attempt_num_ (retrier w)) (drawn_jitter w) in
  exists status w',
    DelayedRetry fuel rpc why_status strategy w = Done status w'
    /\ attempt_num_ (retrier w') = int_add (attempt_num_ (retrier w)) 1
    /\ last_error_ (retrier w') = next_last_error why_status (last_error_ (retrier w))
    /\ deadline_ (retrier w') = deadline_ (retrier w)
    /\ controller_ (retrier w') = controller_ (retrier w)
    /\ flags w' = flags w
    /\ now w' = now w
    /\ match state_ (retrier w) with
       | kFinished =>
           status = STATUS kIllegalState ("Retry of finished command: " ++ ToString rpc)
           /\ state_ (retrier w') = kFinished
           /\ task_id_ (retrier w') = task_id_ (retrier w)
           /\ messenger w' = messenger w
           /\ events w' = events w ++ [EvLogWarning (Status_ToString status)]
       | kWaiting =>
           status = STATUS kIllegalState ("Retry of already waiting command: " ++ ToString rpc)
           /\ state_ (retrier w') = kWaiting
           /\ task_id_ (retrier w') = task_id_ (retrier w)
           /\ messenger w' = messenger w
           /\ events w' = events w ++ [EvLogWarning (Status_ToString status)]
       | _ =>
           if accepting (messenger w) then
             status = Status_OK
             /\ state_ (retrier w') = kWaiting
             /\ task_id_ (retrier w') = Z.pos (next_task_id (messenger w))
             /\ messenger w' =
                  {| accepting := true;
                     next_task_id := Pos.succ (next_task_id (messenger w));
                     scheduled_tasks :=
                       scheduled_tasks (messenger w) ++
                       [{| task_id := Z.pos (next_task_id (messenger w));
                           task_delay := FromMilliseconds num_ms;
                           task_abort_requested := false |}] |}
             /\ events w' = events w
           else
             status = STATUS kAborted ("Failed to schedule: " ++ ToString rpc)
             /\ state_ (retrier w') = kFinished
             /\ task_id_ (retrier w') = kInvalidTaskId
             /\ messenger w' = messenger w
             /\ events w' = events w ++ [EvLogWarning (Status_ToString status)]
       end.
Proof.
  intros Hfuel num_ms. subst num_ms.
  unfold DelayedRetry.
  destruct (DelayedRetry_backoff_total why_status strategy w)
    as (w1 & Hb & Hn & Hl & Hs & Ht & Hd & Hc & Hm & Hf & Hnow & He).
  unfold bind at 1. rewrite Hb.
  unfold bind at 1. rewrite DelayedRetry_acquire_enough_fuel by exact Hfuel.
  unfold acquired.
  set (num_ms := backoff_ms _ _ _ _) in *. clearbody num_ms.
  rewrite <- Hn, <- Hl, <- Hd, <- Hc, <- Hf, <- Hnow, <- He, <- Hm, <- Ht, <- Hs.
  clear Hb Hn Hl Hs Ht Hd Hc Hm Hf Hnow He. clear w.
  open_world w1.
  destruct st; cbn;
    try (destruct acc; cbn);
    do 2 eexists; repeat split; reflexivity.
Qed.

Lemma drawn_jitter_range (w : World) : 0 <= drawn_jitter w <= 4.
Proof.
  unfold drawn_jitter. destruct (entropy w) as [|r rest]; [lia|].
  pose proof (Z.mod_pos_bound r 5). lia.
Qed.

Lemma shiftl_one_bounds (e : Z) : 0 <= e <= 30 -> 1 <= Z.shiftl 1 e <= 1073741824.
Proof.
  intros He. rewrite Z.shiftl_1_l.
  split.
  - pose proof (Z.pow_pos_nonneg 2 e). lia.
  - change 1073741824 with (2 ^ 30). apply Z.pow_le_mono_r; lia.
Qed.

Lemma draw_drawn_jitter (w : World) : draw 0 4 w = drawn_jitter w.
Proof.
  unfold draw, drawn_jitter, RandomUniformInt.
  destruct (entropy w) as [|r rest]; reflexivity.
Qed.

Lemma DelayedRetry_backoff_entropy (why_status : Status) (strategy : BackoffStrategy)
  (w : World) :
  entropy (final (DelayedRetry_backoff why_status strategy w)) = tl (entropy w).
Proof.
  open_world w. unfold DelayedRetry_backoff. run. cbn.
  destruct (negb (ok why_status) && (ok last || IsTimedOut last)); cbn;
    unfold RandomUniformInt; cbn; destruct ent as [|r rest]; reflexivity.
Qed.

(** Over whole periods of the raw values, the reduction made by
    [RandomUniformInt(0, 4)] hits each of the five values equally often. *)
Lemma times_drawn_period (value : Z) (periods : nat) (w : World) :
  0 <= value <= 4 ->
  times_drawn 0 4 value (raw_values (5 * periods)) w = periods.
Proof.
  intros Hvalue. unfold times_drawn, raw_values.
  assert (Hdraw : forall r, draw 0 4 (with_entropy (r :: entropy w) w) = r mod 5).
  { intros r. reflexivity. }
  induction periods as [|periods IH]; [reflexivity|].
  replace (5 * S periods)%nat with (5 * periods + 5)%nat by lia.
  rewrite seq_app, map_app, filter_app, length_app, IH.
  assert (Hmod : forall i : nat, (i < 5)%nat ->
                   Z.of_nat (i + (0 + 5 * periods)) mod 5 = Z.of_nat i).
  { intros i Hi.
    replace (Z.of_nat (i + (0 + 5 * periods)))
      with (Z.of_nat i + Z.of_nat periods * 5) by lia.
    rewrite Z_mod_plus_full. apply Z.mod_small. lia. }
  pose proof (Hmod 0%nat ltac:(lia)) as H0. pose proof (Hmod 1%nat ltac:(lia)) as H1.
  pose proof (Hmod 2%nat ltac:(lia)) as H2. pose proof (Hmod 3%nat ltac:(lia)) as H3.
  pose proof (Hmod 4%nat ltac:(lia)) as H4.
  cbn [Nat.add] in H0, H1, H2, H3, H4.
  clear Hmod IH. cbn [Nat.add]. revert H0 H1 H2 H3 H4.
  generalize (5 * periods)%nat as a. intros a E0 E1 E2 E3 E4.
  cbn [seq map filter]. rewrite !Hdraw, E0, E1, E2, E3, E4.
  assert (Hcases : value = 0 \/ value = 1 \/ value = 2 \/ value = 3 \/ value = 4) by lia.
  destruct Hcases as [-> | [-> | [-> | [-> | ->]]]]; cbn; lia.
Qed.

(** On [int] the delay is the mathematical one wherever the expression is
    defined. *)
Lemma backoff_ms_defined (fl : Flags) (strategy : BackoffStrategy) (n j : Z) :
  0 <= j <= 4 ->
  delay_defined fl strategy n j ->
  backoff_ms fl strategy n j =
    match strategy with
    | kExponential =>
        Z.shiftl 1 (Z.min (FLAGS_min_backoff_ms_exponent fl + n)
                          (FLAGS_max_backoff_ms_exponent fl))
    | kLinear => n
    end + j.
Proof.
  intros Hj Hdef. unfold backoff_ms, int_add, int_shl.
  destruct strategy; cbn [delay_defined] in Hdef.
  - apply wrap32_small. exact Hdef.
  - destruct Hdef as [Hsum Hexp].
    rewrite (wrap32_small (_ + n)) by exact Hsum.
    pose proof (shiftl_one_bounds _ Hexp) as Hb.
    rewrite (wrap32_small (Z.shiftl _ _)) by (unfold INT_MIN, INT_MAX; lia).
    apply wrap32_small. unfold INT_MIN, INT_MAX. lia.
Qed.

(** C2. [DelayedRetry] invoked with attempt counter [n] draws one value
    [j] with [RandomUniformInt(0, 4)] and computes the delay from it: on
    [int], the expression of lines 115-120, which is
    [(1 << min(MinExp + n, MaxExp)) + j] milliseconds under the exponential
    strategy and [n + j] under the linear one wherever that expression is
    defined (no overflow, a shift count in [[0, 30]]).  [j] lies in
    [[0, 4]], and over whole periods of the raw values of the random source
    each of the five values is drawn equally often.  The flags default to
    [MinExp = 7] and [MaxExp = 16].  [attempt_num_] is incremented before
    the task is handed to the messenger: it is [n + 1] (on [int]) in the
    world in which the scheduling part runs, and stays so on return; the
    task is scheduled with the computed delay. *)
Theorem DelayedRetry_delay_formula (fuel : nat) (rpc : RpcCommand) (why_status : Status)
  (strategy : BackoffStrategy) (w : World) :
  let n := attempt_num_ (retrier w) in
  let MinExp := FLAGS_min_backoff_ms_exponent (flags w) in
  let MaxExp := FLAGS_max_backoff_ms_exponent (flags w) in
  let j := draw 0 4 w in
  (2 <= fuel)%nat ->
  exists num_ms w1 status w',
    0 <= j <= 4
    /\ (forall value periods,
          0 <= value <= 4 ->
          times_drawn 0 4 value (raw_values (5 * periods)) w = periods)
    /\ DelayedRetry_backoff why_status strategy w = Done num_ms w1
    /\ entropy w1 = tl (entropy w)
    /\ num_ms = backoff_ms (flags w) strategy n j
    /\ (delay_defined (flags w) strategy n j ->
        num_ms =
          match strategy with
          | kExponential => Z.shiftl 1 (Z.min (MinExp + n) MaxExp)
          | kLinear => n
          end + j)
    /\ attempt_num_ (retrier w1) = int_add n 1
    /\ (representable (n + 1) -> attempt_num_ (retrier w1) = n + 1)
    /\ scheduled_tasks (messenger w1) = scheduled_tasks (messenger w)
    /\ DelayedRetry fuel rpc why_status strategy w =
         (acquired <- DelayedRetry_acquire fuel rpc kIdle ;;
          match acquired with
          | Some result => ret result
          | None => DelayedRetry_schedule rpc num_ms
          end) w1
    /\ DelayedRetry fuel rpc why_status strategy w = Done status w'
    /\ attempt_num_ (retrier w') = attempt_num_ (retrier w1)
    /\ (ok status = true ->
        scheduled_tasks (messenger w') =
          scheduled_tasks (messenger w) ++
          [{| task_id := task_id_ (retrier w');
              task_delay := FromMilliseconds num_ms;
              task_abort_requested := false |}])
    /\ (forall kTimeMultiplier,
          FLAGS_min_backoff_ms_exponent (default_flags kTimeMultiplier) = 7
          /\ FLAGS_max_backoff_ms_exponent (default_flags kTimeMultiplier) = 16).
Proof.
  intros n MinExp MaxExp j Hfuel.
  assert (Hdraw : j = drawn_jitter w) by apply draw_drawn_jitter.
  pose proof (drawn_jitter_range w) as Hj. rewrite <- Hdraw in Hj.
  destruct (DelayedRetry_backoff_total why_status strategy w)
    as (w1 & Hb & Hn1 & _ & _ & _ & _ & _ & Hm & _).
  destruct (DelayedRetry_cases fuel rpc why_status strategy w Hfuel)
    as (status & w' & Hrun & Hn' & _ & _ & _ & _ & _ & Hcase).
  pose proof (DelayedRetry_backoff_entropy why_status strategy w) as Hent.
  rewrite Hb in Hent. cbn [final] in Hent.
  rewrite <- Hdraw in Hb. fold n in Hb.
  exists (backoff_ms (flags w) strategy n j), w1, status, w'.
  split; [exact Hj|].
  split; [intros value periods Hvalue; apply times_drawn_period; exact Hvalue|].
  split; [exact Hb|].
  split; [exact Hent|].
  split; [reflexivity|].
  split; [intros Hdef; apply backoff_ms_defined; assumption|].
  split; [exact Hn1|].
  split; [intros Hrep; rewrite Hn1; unfold int_add; apply wrap32_small; exact Hrep|].
  split; [now rewrite Hm|].
  split; [unfold DelayedRetry; unfold bind at 1; now rewrite Hb|].
  split; [exact Hrun|].
  split; [rewrite Hn', Hn1; reflexivity|].
  split; [|intros k; split; reflexivity].
  intros Hok. rewrite <- Hdraw in Hcase. fold n in Hcase.
  destruct (state_ (retrier w));
    try (destruct (accepting (messenger w)));
    destruct Hcase as (Hst & _ & Htid & Hmsg & _); subst status;
    try discriminate Hok;
    rewrite Hmsg, Htid; reflexivity.
Qed.

(** C5. [DelayedRetry] with a non-OK [why_status] overwrites [last_error_]
    with it exactly when the prior [last_error_] is OK or a timeout; with an
    OK [why_status], or over a prior error that is not a timeout,
    [last_error_] is left as it was. *)
Theorem DelayedRetry_last_error_policy (fuel : nat) (rpc : RpcCommand)
  (why_status : Status) (strategy : BackoffStrategy) (w : World) :
  (2 <= fuel)%nat ->
  exists status w',
    DelayedRetry fuel rpc why_status strategy w = Done status w'
    /\ (ok why_status = false ->
        ok (last_error_ (retrier w)) = true \/ IsTimedOut (last_error_ (retrier w)) = true ->
        last_error_ (retrier w') = why_status)
    /\ (ok why_status = false ->
        ok (last_error_ (retrier w)) = false ->
        IsTimedOut (last_error_ (retrier w)) = false ->
        last_error_ (retrier w') = last_error_ (retrier w))
    /\ (ok why_status = true ->
        last_error_ (retrier w') = last_error_ (retrier w)).
Proof.
  intros Hfuel.
  destruct (DelayedRetry_cases fuel rpc why_status strategy w Hfuel)
    as (status & w' & Hrun & _ & Hlast & _).
  exists status, w'. split; [exact Hrun|].
  rewrite Hlast. unfold next_last_error.
  repeat split.
  - intros Hwhy [Hok | Hto]; rewrite Hwhy, ?Hok, ?Hto; cbn;
      rewrite ?orb_true_r; reflexivity.
  - intros Hwhy Hok Hto. rewrite Hwhy, Hok, Hto. reflexivity.
  - intros Hwhy. rewrite Hwhy. reflexivity.
Qed.

(** C4 (amended). [DelayedRetry] on a retrier in [kFinished] returns
    [IllegalState("Retry of finished command: <rpc>")], and on one in
    [kWaiting] returns [IllegalState("Retry of already waiting command:
    <rpc>")]; the status is logged and returned to the caller; [state_],
    [task_id_], the deadline, the controller and the messenger are left as
    they were, while [attempt_num_] has been incremented and [last_error_]
    updated by the policy of lines 107-109 before the state was looked at. *)
Theorem DelayedRetry_rejected (fuel : nat) (rpc : RpcCommand) (why_status : Status)
  (strategy : BackoffStrategy) (w : World) :
  (2 <= fuel)%nat ->
  state_ (retrier w) = kFinished \/ state_ (retrier w) = kWaiting ->
  exists w',
    DelayedRetry fuel rpc why_status strategy w
      = Done (rejection rpc (state_ (retrier w))) w'
    /\ IsIllegalState (rejection rpc (state_ (retrier w))) = true
    /\ state_ (retrier w') = state_ (retrier w)
    /\ task_id_ (retrier w') = task_id_ (retrier w)
    /\ deadline_ (retrier w') = deadline_ (retrier w)
    /\ controller_ (retrier w') = controller_ (retrier w)
    /\ messenger w' = messenger w
    /\ events w' =
         events w ++ [EvLogWarning (Status_ToString (rejection rpc (state_ (retrier w))))]
    /\ attempt_num_ (retrier w') = int_add (attempt_num_ (retrier w)) 1
    /\ last_error_ (retrier w') = next_last_error why_status (last_error_ (retrier w)).
Proof.
  intros Hfuel Hstate.
  destruct (DelayedRetry_cases fuel rpc why_status strategy w Hfuel)
    as (status & w' & Hrun & Hn & Hl & Hd & Hc & _ & _ & Hcase).
  exists w'.
  destruct Hstate as [Hst | Hst]; rewrite Hst in *; cbn [rejection];
    destruct Hcase as (Hstatus & Hst' & Htid & Hm & Hev); subst status;
    repeat split; assumption.
Qed.

(** C1 (amended). [HandleResponse] schedules a retry (through
    [DelayedRetry] with the exponential strategy) and returns [true],
    leaving [*out_status] alone, exactly when the controller status is a
    remote error, the caller passed [retry_when_busy], the error response
    carries the code [ERROR_SERVER_TOO_BUSY], and [DelayedRetry] returns OK.
    When these conditions hold except that [DelayedRetry] fails, it returns
    [false] with [*out_status] set to the status [DelayedRetry] returned.
    Otherwise it returns [false] with [*out_status] set to the controller
    status, and changes nothing. *)
Theorem HandleResponse_outcome (fuel : nat) (rpc : RpcCommand) (out_status : Status)
  (retry_when_busy : bool) (w : World) :
  (2 <= fuel)%nat ->
  let controller_status := controller_status (controller_ (retrier w)) in
  exists status w1,
    DelayedRetry fuel rpc controller_status kExponential w = Done status w1
    /\ HandleResponse fuel rpc out_status retry_when_busy w =
         (if busy_retry retry_when_busy w then
            if ok status then Done (true, out_status) w1
            else Done (false, status) w1
          else Done (false, controller_status) w)
    /\ ((exists out w', HandleResponse fuel rpc out_status retry_when_busy w
                          = Done (true, out) w')
        <-> busy_retry retry_when_busy w = true /\ ok status = true).
Proof.
  intros Hfuel cs.
  destruct (DelayedRetry_cases fuel rpc cs kExponential w Hfuel)
    as (status & w1 & Hrun & _).
  exists status, w1.
  split; [exact Hrun|].
  assert (Heq : HandleResponse fuel rpc out_status retry_when_busy w =
         (if busy_retry retry_when_busy w then
            if ok status then Done (true, out_status) w1
            else Done (false, status) w1
          else Done (false, cs) w)).
  { unfold HandleResponse, busy_retry. run. fold cs.
    destruct (IsRemoteError cs && retry_when_busy); cbn [andb]; [|reflexivity].
    destruct (too_busy _); [|reflexivity].
    rewrite Hrun. destruct (ok status); reflexivity. }
  split; [exact Heq|].
  rewrite Heq. split.
  - intros (out & w' & H).
    destruct (busy_retry retry_when_busy w); [|discriminate H].
    destruct (ok status); [auto|discriminate H].
  - intros [-> ->]. eauto.
Qed.

(** ** [DoRetry] *)

Lemma DoRetry_spin_skipped (fuel : nat) (run : bool) (expected_state : RpcRetrierState)
  (w : World) :
  negb run && RpcRetrierState_eqb expected_state kScheduling = false ->
  DoRetry_spin fuel run expected_state w = Done (run, expected_state) w.
Proof. intros H. destruct fuel; cbn [DoRetry_spin]; rewrite H; reflexivity. Qed.

(** From [kWaiting] the reactor's closure takes [kRunning], clears
    [task_id_] and goes on to look at the deadline. *)
Lemma DoRetry_from_waiting (fuel : nat) (rpc : RpcCommand) (status : Status) (w : World) :
  state_ (retrier w) = kWaiting ->
  DoRetry fuel rpc status w =
    (new_status <- DoRetry_deadline_check rpc status ;;
     (if ok new_status then
        modify (with_retrier
                  (fun r => set_controller (RpcController_Reset (controller_ r)) r)) ;;
        call_SendRpc rpc
      else
        call_Finished rpc
          (if IsServiceUnavailable new_status
           then STATUS kAborted ("Aborted because of " ++ Status_ToString new_status)
           else new_status)) ;;
     back_to_idle) (running w).
Proof.
  intros Hst. unfold DoRetry.
  unfold bind at 1. unfold compare_exchange_strong at 1. rewrite Hst. cbn [RpcRetrierState_eqb].
  unfold bind at 1. rewrite DoRetry_spin_skipped by reflexivity.
  unfold bind at 1. cbn [modify negb]. reflexivity.
Qed.

(** From a state other than [kWaiting] and [kScheduling] the closure
    cannot take [kRunning]: it clears [task_id_] and reports the abort. *)
Lemma DoRetry_not_waiting (fuel : nat) (rpc : RpcCommand) (status : Status) (w : World) :
  state_ (retrier w) <> kWaiting ->
  state_ (retrier w) <> kScheduling ->
  DoRetry fuel rpc status w =
    call_Finished rpc
      (STATUS kAborted
         (ToString rpc ++ " aborted: " ++ RpcRetrierState_ToString (state_ (retrier w))))
      (with_retrier (set_task_id kInvalidTaskId) w).
Proof.
  intros Hw Hs. unfold DoRetry.
  unfold bind at 1. unfold compare_exchange_strong at 1.
  destruct (RpcRetrierState_eqb (state_ (retrier w)) kWaiting) eqn:E.
  { apply RpcRetrierState_eqb_eq in E. contradiction. }
  unfold bind at 1. rewrite DoRetry_spin_skipped.
  - unfold bind at 1. cbn [modify negb]. reflexivity.
  - cbn [negb andb]. destruct (state_ (retrier w)); try reflexivity; contradiction.
Qed.

(** C6. When the messenger refuses the task, [DelayedRetry] takes the
    retrier from [kScheduling] to [kFinished] and returns
    [Aborted("Failed to schedule: <rpc>")]; the messenger holds no task for
    the attempt, so the reactor has no [DoRetry] to fire for it, and the
    closure of a task it still holds from before only reports the abort to
    the command. *)
Theorem DelayedRetry_refused (fuel : nat) (rpc : RpcCommand) (why_status : Status)
  (strategy : BackoffStrategy) (w : World) :
  (2 <= fuel)%nat ->
  accepting (messenger w) = false ->
  state_ (retrier w) <> kFinished ->
  state_ (retrier w) <> kWaiting ->
  let aborted := STATUS kAborted ("Failed to schedule: " ++ ToString rpc) in
  exists num_ms w1 w2 w',
    DelayedRetry_backoff why_status strategy w = Done num_ms w1
    /\ DelayedRetry_acquire fuel rpc kIdle w1 = Done None w2
    /\ state_ (retrier w2) = kScheduling
    /\ DelayedRetry_schedule rpc num_ms w2 = Done aborted w'
    /\ DelayedRetry fuel rpc why_status strategy w = Done aborted w'
    /\ IsAborted aborted = true
    /\ state_ (retrier w') = kFinished
    /\ task_id_ (retrier w') = kInvalidTaskId
    /\ scheduled_tasks (messenger w') = scheduled_tasks (messenger w)
    /\ (forall fuel' rpc' id status,
          pending id w = false ->
          reactor_fire fuel' rpc' id status w' = Done tt w')
    /\ (forall fuel' id status,
          pending id w = true ->
          reactor_fire fuel' rpc id status w' =
            call_Finished rpc
              (STATUS kAborted
                 (ToString rpc ++ " aborted: " ++ RpcRetrierState_ToString kFinished))
              (with_retrier (set_task_id kInvalidTaskId)
                 (with_messenger (drop_task id) w'))).
Proof.
  intros Hfuel Hacc Hfin Hwait aborted.
  destruct (DelayedRetry_backoff_total why_status strategy w)
    as (w1 & Hb & _ & _ & Hs1 & _ & _ & _ & Hm1 & _).
  destruct (DelayedRetry_cases fuel rpc why_status strategy w Hfuel)
    as (status & w' & Hrun & _ & _ & _ & _ & _ & _ & Hcase).
  assert (Hcase' : status = aborted /\ state_ (retrier w') = kFinished
                   /\ task_id_ (retrier w') = kInvalidTaskId
                   /\ messenger w' = messenger w).
  { rewrite Hacc in Hcase.
    destruct (state_ (retrier w)); try congruence;
      destruct Hcase as (? & ? & ? & ? & _); auto. }
  destruct Hcase' as (-> & Hst' & Htid' & Hm').
  pose proof (DelayedRetry_acquire_enough_fuel fuel rpc w1 Hfuel) as Hacq.
  assert (Hacq' : acquired rpc w1 = Done None (with_retrier (set_state kScheduling) w1)).
  { unfold acquired. rewrite Hs1. destruct (state_ (retrier w)); congruence. }
  rewrite Hacq' in Hacq.
  exists (backoff_ms (flags w) strategy (attempt_num_ (retrier w)) (drawn_jitter w)),
    w1, (with_retrier (set_state kScheduling) w1), w'.
  split; [exact Hb|].
  split; [exact Hacq|].
  split; [reflexivity|].
  assert (Hsched :
    DelayedRetry_schedule rpc
      (backoff_ms (flags w) strategy (attempt_num_ (retrier w)) (drawn_jitter w))
      (with_retrier (set_state kScheduling) w1) = Done aborted w').
  { unfold DelayedRetry in Hrun. unfold bind at 1 in Hrun. rewrite Hb in Hrun.
    unfold bind at 1 in Hrun. rewrite Hacq in Hrun. exact Hrun. }
  split; [exact Hsched|].
  split; [exact Hrun|].
  split; [reflexivity|].
  split; [exact Hst'|].
  split; [exact Htid'|].
  split; [now rewrite Hm'|].
  split.
  - intros fuel' rpc' id status' Hpend.
    unfold reactor_fire, pending in *. run. rewrite Hm', Hpend. reflexivity.
  - intros fuel' id status' Hpend.
    unfold reactor_fire. unfold bind at 1. cbn [gets].
    unfold pending in *. rewrite Hm', Hpend.
    unfold bind at 1. cbn [modify].
    rewrite DoRetry_not_waiting.
    + change (state_ (retrier (with_messenger (drop_task id) w')))
        with (state_ (retrier w')).
      rewrite Hst'. reflexivity.
    + change (state_ (retrier (with_messenger (drop_task id) w')))
        with (state_ (retrier w')).
      rewrite Hst'. discriminate.
    + change (state_ (retrier (with_messenger (drop_task id) w')))
        with (state_ (retrier w')).
      rewrite Hst'. discriminate.
Qed.

(** C3 (amended). When [DoRetry] is fired with an OK status on a retrier in
    [kWaiting] whose overall deadline is initialized and lies strictly
    before the current time, it takes [kRunning], clears [task_id_],
    synthesizes [TimedOut("<cmd> passed its deadline <D> (now: <T>)")], with
    [": <last_error>"] appended exactly when [last_error_] is not OK, and
    the one call it makes on the command is [Finished] with that status (no
    [SendRpc]); it then tries to go back to [kIdle]. *)
Theorem DoRetry_deadline_passed (fuel : nat) (rpc : RpcCommand) (status : Status)
  (w : World) :
  state_ (retrier w) = kWaiting ->
  ok status = true ->
  Initialized (deadline_ (retrier w)) = true ->
  ComesBefore (deadline_ (retrier w)) (now w) = true ->
  let timed_out := STATUS kTimedOut (deadline_message rpc w) in
  IsTimedOut timed_out = true
  /\ deadline_message rpc w =
       (if ok (last_error_ (retrier w))
        then ToString rpc ++ " passed its deadline "
             ++ MonoTime_ToString (deadline_ (retrier w))
             ++ " (now: " ++ MonoTime_ToString (now w) ++ ")"
        else (ToString rpc ++ " passed its deadline "
              ++ MonoTime_ToString (deadline_ (retrier w))
              ++ " (now: " ++ MonoTime_ToString (now w) ++ ")")
             ++ ": " ++ Status_ToString (last_error_ (retrier w)))%string
  /\ state_ (retrier (running w)) = kRunning
  /\ task_id_ (retrier (running w)) = kInvalidTaskId
  /\ DoRetry fuel rpc status w =
       (Finished rpc timed_out ;; back_to_idle)
         (with_event (EvFinished timed_out) (running w)).
Proof.
  intros Hst Hok Hinit Hpast timed_out.
  split; [reflexivity|].
  split; [reflexivity|].
  split; [reflexivity|].
  split; [reflexivity|].
  rewrite DoRetry_from_waiting by exact Hst.
  unfold bind at 1.
  assert (Hcheck : DoRetry_deadline_check rpc status (running w)
                   = Done timed_out (running w)).
  { unfold DoRetry_deadline_check. rewrite Hok. run.
    change (deadline_ (retrier (running w))) with (deadline_ (retrier w)).
    change (now (running w)) with (now w).
    change (last_error_ (retrier (running w))) with (last_error_ (retrier w)).
    rewrite Hinit.
    change (now (running w)) with (now w). rewrite Hpast. cbn beta.
    change (last_error_ (retrier (running w))) with (last_error_ (retrier w)).
    subst timed_out. unfold deadline_message.
    destruct (ok (last_error_ (retrier w))); reflexivity. }
  rewrite Hcheck. reflexivity.
Qed.

(** X1. The other outcomes of a firing that finds the retrier waiting: a
    status that is not OK goes to the command's [Finished], a
    [ServiceUnavailable] one (the reactor is shut down) wrapped as
    [Aborted("Aborted because of ...")]; with an OK status and the overall
    deadline unset or not yet passed, the controller is reset and the
    command's [SendRpc] is called.  In each case [DoRetry] then tries to go
    back to [kIdle]. *)
Theorem DoRetry_dispatch (fuel : nat) (rpc : RpcCommand) (status : Status) (w : World) :
  state_ (retrier w) = kWaiting ->
  (ok status = false ->
   DoRetry fuel rpc status w =
     (call_Finished rpc
        (if IsServiceUnavailable status
         then STATUS kAborted ("Aborted because of " ++ Status_ToString status)
         else status) ;;
      back_to_idle) (running w))
  /\ (ok status = true ->
      Initialized (deadline_ (retrier w)) = false
      \/ ComesBefore (deadline_ (retrier w)) (now w) = false ->
      DoRetry fuel rpc status w =
        (modify (with_retrier
                   (fun r => set_controller (RpcController_Reset (controller_ r)) r)) ;;
         call_SendRpc rpc ;;
         back_to_idle) (running w)).
Proof.
  intros Hst. rewrite DoRetry_from_waiting by exact Hst.
  split.
  - intros Hok. unfold bind at 1. unfold DoRetry_deadline_check. rewrite Hok.
    cbn [ret]. rewrite Hok. reflexivity.
  - intros Hok Hdeadline. unfold bind at 1.
    assert (Hcheck : DoRetry_deadline_check rpc status (running w) = Done status (running w)).
    { unfold DoRetry_deadline_check. rewrite Hok. run.
      change (deadline_ (retrier (running w))) with (deadline_ (retrier w)).
      destruct (Initialized (deadline_ (retrier w))) eqn:Hinit; [|reflexivity].
      change (now (running w)) with (now w).
      destruct Hdeadline as [H | H]; [discriminate H|]. rewrite H. reflexivity. }
    rewrite Hcheck, Hok. reflexivity.
Qed.

(** X2. A retry accepted by the messenger: from a state other than
    [kFinished] and [kWaiting], [DelayedRetry] returns OK and leaves the
    retrier in [kWaiting] with the id of the task the messenger now holds,
    which is not [kInvalidTaskId]. *)
Theorem DelayedRetry_scheduled (fuel : nat) (rpc : RpcCommand) (why_status : Status)
  (strategy : BackoffStrategy) (w : World) :
  (2 <= fuel)%nat ->
  accepting (messenger w) = true ->
  state_ (retrier w) <> kFinished ->
  state_ (retrier w) <> kWaiting ->
  exists w',
    DelayedRetry fuel rpc why_status strategy w = Done Status_OK w'
    /\ state_ (retrier w') = kWaiting
    /\ task_id_ (retrier w') <> kInvalidTaskId
    /\ pending (task_id_ (retrier w')) w' = true
    /\ scheduled_tasks (messenger w') =
         scheduled_tasks (messenger w) ++
         [{| task_id := task_id_ (retrier w');
             task_delay :=
               FromMilliseconds
                 (backoff_ms (flags w) strategy (attempt_num_ (retrier w))
                    (drawn_jitter w));
             task_abort_requested := false |}]
    /\ events w' = events w.
Proof.
  intros Hfuel Hacc Hfin Hwait.
  destruct (DelayedRetry_cases fuel rpc why_status strategy w Hfuel)
    as (status & w' & Hrun & _ & _ & _ & _ & _ & _ & Hcase).
  rewrite Hacc in Hcase.
  assert (Hcase' :
    status = Status_OK
    /\ state_ (retrier w') = kWaiting
    /\ task_id_ (retrier w') = Z.pos (next_task_id (messenger w))
    /\ messenger w' =
         {| accepting := true;
            next_task_id := Pos.succ (next_task_id (messenger w));
            scheduled_tasks :=
              scheduled_tasks (messenger w) ++
              [{| task_id := Z.pos (next_task_id (messenger w));
                  task_delay :=
                    FromMilliseconds
                      (backoff_ms (flags w) strategy (attempt_num_ (retrier w))
                         (drawn_jitter w));
                  task_abort_requested := false |}] |}
    /\ events w' = events w).
  { destruct (state_ (retrier w)); try congruence; exact Hcase. }
  destruct Hcase' as (-> & Hst & Hid & Hm & Hev).
  exists w'. split; [exact Hrun|]. split; [exact Hst|].
  split; [rewrite Hid; discriminate|].
  split.
  { unfold pending. rewrite Hm, Hid. cbn [scheduled_tasks].
    rewrite existsb_app. cbn. unfold is_task. cbn. rewrite Pos.eqb_refl.
    apply orb_true_r. }
  split; [rewrite Hm, Hid; reflexivity|exact Hev].
Qed.

(** ** The retrier between operations *)

Lemma bind_Done {A B : Type} (m : M World A) (k : A -> M World B) (w w' : World) (b : B) :
  bind m k w = Done b w' ->
  exists a w1, m w = Done a w1 /\ k a w1 = Done b w'.
Proof.
  unfold bind. destruct (m w) as [a w1| |]; intros H; try discriminate. eauto.
Qed.

Lemma triple_bind {A B : Type} (P : World -> Prop) (Q : A -> World -> Prop)
  (R : B -> World -> Prop) (m : M World A) (k : A -> M World B) :
  triple P m Q -> (forall a, triple (Q a) (k a) R) -> triple P (bind m k) R.
Proof.
  intros Hm Hk w b w' HP Hrun.
  apply bind_Done in Hrun. destruct Hrun as (a & w1 & H1 & H2).
  eapply Hk; [eapply Hm|]; eassumption.
Qed.

Lemma triple_weaken {A : Type} (P P' : World -> Prop) (Q Q' : A -> World -> Prop)
  (m : M World A) :
  triple P' m Q' -> (forall w, P w -> P' w) -> (forall a w, Q' a w -> Q a w) ->
  triple P m Q.
Proof. intros H HP HQ w a w' Hw Hrun. eauto. Qed.

Lemma triple_ret {A : Type} (P : World -> Prop) (a : A) :
  triple P (ret a) (fun _ => P).
Proof. intros w a' w' HP H. returned H. exact HP. Qed.

Lemma triple_gets {A : Type} (P : World -> Prop) (f : World -> A) :
  triple P (gets f) (fun a w => P w /\ a = f w).
Proof. intros w a w' HP H. returned H. auto. Qed.

Lemma triple_modify (P Q : World -> Prop) (f : World -> World) :
  (forall w, P w -> Q (f w)) -> triple P (modify f) (fun _ => Q).
Proof. intros Hf w a w' HP H. returned H. auto. Qed.

Lemma triple_fatal {A : Type} (P : World -> Prop) (Q : A -> World -> Prop) :
  triple P fatal Q.
Proof. intros w a w' _ H. discriminate H. Qed.

Lemma triple_blocked {A : Type} (P : World -> Prop) (Q : A -> World -> Prop) :
  triple P blocked Q.
Proof. intros w a w' _ H. discriminate H. Qed.

Lemma triple_any {A : Type} (P : World -> Prop) (m : M World A) :
  triple P m (fun _ _ => True).
Proof. intros w a w' _ _. exact I. Qed.

Lemma preserves_gets {A : Type} (P : World -> Prop) (f : World -> A) :
  preserves P (gets f).
Proof. intros w a w' HP H. returned H. exact HP. Qed.

Lemma preserves_bind {A B : Type} (P : World -> Prop) (m : M World A)
  (k : A -> M World B) :
  preserves P m -> (forall a, preserves P (k a)) -> preserves P (bind m k).
Proof. intros Hm Hk. eapply triple_bind; [exact Hm|exact Hk]. Qed.

Section StateAndTask.

Variable R : RpcRetrierState -> ScheduledTaskId -> Prop.
Hypothesis R_cleared : forall state, R state kInvalidTaskId.
Hypothesis R_idle : forall id, R kRunning id -> R kIdle id.

Variable rpc : RpcCommand.
Hypothesis rpc_SendRpc : preserves (observes R) (SendRpc rpc).
Hypothesis rpc_Finished : forall status, preserves (observes R) (Finished rpc status).

Lemma observes_modify (f : World -> World) :
  same_state_and_task f -> preserves (observes R) (modify f).
Proof.
  intros Hf. apply triple_modify. intros w HP.
  unfold observes in *. destruct (Hf w) as [-> ->]. exact HP.
Qed.

Lemma observes_emit (e : Event) : preserves (observes R) (Retrier.emit e).
Proof. apply observes_modify. intros w. split; reflexivity. Qed.

Lemma observes_call_Finished (status : Status) :
  preserves (observes R) (call_Finished rpc status).
Proof.
  unfold call_Finished.
  apply preserves_bind; [apply observes_emit|]. intros ?. apply rpc_Finished.
Qed.

Lemma observes_call_SendRpc : preserves (observes R) (call_SendRpc rpc).
Proof.
  unfold call_SendRpc.
  apply preserves_bind; [apply observes_emit|]. intros ?. apply rpc_SendRpc.
Qed.

Lemma observes_back_to_idle : preserves (observes R) back_to_idle.
Proof.
  intros w a w' HP H. unfold back_to_idle, compare_exchange_strong in H.
  unfold bind, ret in H.
  destruct (RpcRetrierState_eqb (state_ (retrier w)) kRunning) eqn:E;
    returned H; [|exact HP].
  apply RpcRetrierState_eqb_eq in E.
  unfold observes in *. cbn. rewrite E in HP. apply R_idle. exact HP.
Qed.

Lemma observes_deadline_check (status : Status) :
  preserves (observes R) (DoRetry_deadline_check rpc status).
Proof.
  unfold DoRetry_deadline_check.
  destruct (ok status); [|apply triple_ret].
  apply preserves_bind; [apply preserves_gets|]. intros deadline.
  destruct (Initialized deadline); [|apply triple_ret].
  apply preserves_bind; [apply preserves_gets|]. intros t.
  destruct (ComesBefore deadline t); [|apply triple_ret].
  apply preserves_bind; [apply preserves_gets|]. intros last.
  apply triple_ret.
Qed.

(** [DoRetry] clears [task_id_] before it calls the command: whatever the
    state it is fired in, what holds of a cleared [task_id_] and is kept by
    the command holds when [DoRetry] returns. *)
Lemma DoRetry_establishes (fuel : nat) (status : Status) :
  triple (fun _ => True) (DoRetry fuel rpc status) (fun _ => observes R).
Proof.
  unfold DoRetry.
  eapply triple_bind; [apply triple_any|]. intros [run expected]. cbn beta iota.
  eapply triple_bind; [apply triple_any|]. intros [run' expected']. cbn beta iota.
  eapply triple_bind.
  { apply (triple_modify _ (observes R)). intros w ?. apply R_cleared. }
  intros ?.
  destruct (negb run').
  - apply observes_call_Finished.
  - apply preserves_bind; [apply observes_deadline_check|]. intros new_status.
    apply preserves_bind.
    + destruct (ok new_status).
      * apply preserves_bind; [|intros ?; apply observes_call_SendRpc].
        apply observes_modify. intros w. split; reflexivity.
      * apply observes_call_Finished.
    + intros ?. apply observes_back_to_idle.
Qed.

End StateAndTask.

Lemma preserves_modify (f : World -> World) :
  same_state_and_task f -> preserves task_only_while_waiting (modify f).
Proof. apply (observes_modify task_or_waiting). Qed.

Lemma preserves_emit (e : Event) : preserves task_only_while_waiting (Retrier.emit e).
Proof. apply (observes_emit task_or_waiting). Qed.

Lemma preserves_call_Finished (rpc : RpcCommand) (status : Status) :
  well_behaved rpc -> preserves task_only_while_waiting (call_Finished rpc status).
Proof. intros [_ Hfin]. apply (observes_call_Finished task_or_waiting). exact Hfin. Qed.

Lemma task_or_waiting_idle (id : ScheduledTaskId) :
  task_or_waiting kRunning id -> task_or_waiting kIdle id.
Proof. intros [H | [H | H]]; [left; exact H | discriminate H | discriminate H]. Qed.

Lemma DoRetry_task_only_while_waiting (fuel : nat) (rpc : RpcCommand) (status : Status) :
  well_behaved rpc ->
  triple (fun _ => True) (DoRetry fuel rpc status) (fun _ => task_only_while_waiting).
Proof.
  intros [Hsend Hfin].
  apply (DoRetry_establishes task_or_waiting); auto.
  - intros state. left. reflexivity.
  - apply task_or_waiting_idle.
Qed.

Lemma DoRetry_task_cleared (fuel : nat) (rpc : RpcCommand) (status : Status) :
  keeps_task_cleared rpc ->
  triple (fun _ => True) (DoRetry fuel rpc status)
    (fun _ w => task_id_ (retrier w) = kInvalidTaskId).
Proof.
  intros [Hsend Hfin].
  apply (DoRetry_establishes (fun _ id => id = kInvalidTaskId)); auto.
Qed.

Lemma preserves_backoff (why_status : Status) (strategy : BackoffStrategy) :
  preserves task_only_while_waiting (DelayedRetry_backoff why_status strategy).
Proof.
  intros w a w' HP H.
  destruct (DelayedRetry_backoff_total why_status strategy w)
    as (w1 & Hb & _ & _ & Hs & Ht & _).
  rewrite Hb in H. returned H.
  unfold task_only_while_waiting, observes in *. rewrite Hs, Ht. exact HP.
Qed.

Lemma DelayedRetry_acquire_post (fuel : nat) (rpc : RpcCommand)
  (expected_state : RpcRetrierState) :
  triple task_only_while_waiting (DelayedRetry_acquire fuel rpc expected_state)
    (fun r w => match r with
                | None => state_ (retrier w) = kScheduling
                | Some _ => task_only_while_waiting w
                end).
Proof.
  revert expected_state. induction fuel as [|fuel IH]; intros expected_state.
  - apply triple_blocked.
  - cbn [DelayedRetry_acquire].
    intros w r w' HP H. unfold bind at 1 in H. unfold compare_exchange_strong in H.
    destruct (RpcRetrierState_eqb (state_ (retrier w)) expected_state).
    + returned H. reflexivity.
    + destruct (state_ (retrier w)) eqn:Hst;
        try (eapply IH; eassumption);
        unfold LOG_WARNING, Retrier.emit, modify, bind, ret in H;
        returned H; exact HP.
Qed.

Lemma DelayedRetry_schedule_post (rpc : RpcCommand) (num_ms : Z) :
  triple (fun _ => True) (DelayedRetry_schedule rpc num_ms)
    (fun _ => task_only_while_waiting).
Proof.
  intros w status w' _ H. unfold DelayedRetry_schedule in H.
  apply bind_Done in H. destruct H as (id & w1 & _ & H).
  apply bind_Done in H. destruct H as ([] & w2 & Hset & H).
  returned Hset.
  unfold bind at 1 in H. cbn [gets] in H.
  change (task_id_ (retrier (with_retrier (set_task_id id) w1))) with id in H.
  destruct (id =? kInvalidTaskId) eqn:Hid.
  - apply Z.eqb_eq in Hid. subst id.
    apply bind_Done in H. destruct H as ([] & w3 & Hlog & H).
    returned Hlog.
    unfold bind at 1, compare_exchange_strong at 1 in H.
    destruct (RpcRetrierState_eqb _ kScheduling);
      unfold CHECK, bind, ret, fatal in H; [|discriminate H].
    returned H. left. reflexivity.
  - unfold bind at 1, compare_exchange_strong at 1 in H.
    destruct (RpcRetrierState_eqb _ kScheduling);
      unfold CHECK, bind, ret, fatal in H; [|discriminate H].
    returned H. right. left. reflexivity.
Qed.

Lemma preserves_DelayedRetry (fuel : nat) (rpc : RpcCommand) (why_status : Status)
  (strategy : BackoffStrategy) :
  preserves task_only_while_waiting (DelayedRetry fuel rpc why_status strategy).
Proof.
  unfold DelayedRetry.
  apply preserves_bind; [apply preserves_backoff|]. intros num_ms.
  eapply triple_bind; [apply DelayedRetry_acquire_post|]. intros [result|].
  - apply triple_ret.
  - eapply triple_weaken;
      [apply DelayedRetry_schedule_post | intros w0 ?; exact I | intros ? w0 H; exact H].
Qed.

Lemma preserves_HandleResponse (fuel : nat) (rpc : RpcCommand) (out_status : Status)
  (retry_when_busy : bool) :
  preserves task_only_while_waiting (HandleResponse fuel rpc out_status retry_when_busy).
Proof.
  unfold HandleResponse.
  apply preserves_bind; [apply preserves_gets|]. intros cs.
  destruct (IsRemoteError cs && retry_when_busy); [|apply triple_ret].
  apply preserves_bind; [apply preserves_gets|]. intros err.
  destruct (too_busy err); [|apply triple_ret].
  apply preserves_bind; [apply preserves_DelayedRetry|]. intros status.
  destruct (negb (ok status)); apply triple_ret.
Qed.

Lemma preserves_ScheduleRetry (fuel : nat) (rpc : RpcCommand) (status : Status) :
  well_behaved rpc -> preserves task_only_while_waiting (ScheduleRetry fuel rpc status).
Proof.
  intros Hrpc. unfold ScheduleRetry.
  apply preserves_bind; [apply preserves_DelayedRetry|]. intros retry_status.
  destruct (negb (ok retry_status)); [|apply triple_ret].
  apply preserves_bind; [apply preserves_emit|]. intros ?.
  apply preserves_call_Finished. exact Hrpc.
Qed.

Lemma preserves_PrepareController (single_call_timeout : option MonoDelta) :
  preserves task_only_while_waiting (PrepareController single_call_timeout).
Proof.
  unfold PrepareController.
  apply preserves_bind; [apply preserves_gets|]. intros fl.
  apply preserves_bind; [apply preserves_gets|]. intros deadline.
  apply preserves_bind; [apply preserves_gets|]. intros t.
  apply preserves_bind; [|intros ?; apply preserves_gets].
  apply preserves_modify. intros w. split; reflexivity.
Qed.

Lemma preserves_reactor_fire (fuel : nat) (rpc : RpcCommand) (id : ScheduledTaskId)
  (status : Status) :
  well_behaved rpc ->
  preserves task_only_while_waiting (reactor_fire fuel rpc id status).
Proof.
  intros Hrpc. unfold reactor_fire.
  apply preserves_bind; [apply preserves_gets|]. intros is_pending.
  destruct is_pending; [|apply triple_ret].
  apply preserves_bind.
  - apply preserves_modify. intros w. split; reflexivity.
  - intros ?. eapply triple_weaken;
      [apply DoRetry_task_only_while_waiting; exact Hrpc | intros w0 ?; exact I | intros ? w0 H; exact H].
Qed.

(** [Abort] returns only once it has seen [task_id_] cleared. *)
Lemma Abort_drain_post (naps : list (M World unit)) :
  triple (fun _ => True) (Abort_drain naps)
    (fun _ w => task_id_ (retrier w) = kInvalidTaskId).
Proof.
  induction naps as [|nap naps IH]; intros w a w' _ H; cbn [Abort_drain] in H;
    unfold bind at 1 in H; cbn [gets] in H;
    destruct (task_id_ (retrier w) =? kInvalidTaskId) eqn:Hid.
  - returned H. now apply Z.eqb_eq.
  - apply bind_Done in H. destruct H as (? & ? & _ & H). discriminate H.
  - returned H. now apply Z.eqb_eq.
  - apply bind_Done in H. destruct H as (? & w1 & _ & H).
    apply bind_Done in H. destruct H as (? & w2 & _ & H).
    eapply IH; [exact I|exact H].
Qed.

Lemma Abort_post (naps : list (M World unit)) :
  triple (fun _ => True) (Abort naps)
    (fun _ w => task_id_ (retrier w) = kInvalidTaskId).
Proof.
  unfold Abort. eapply triple_bind; [apply triple_any|].
  intros rest. apply Abort_drain_post.
Qed.

Lemma preserves_perform (fuel : nat) (rpc : RpcCommand) (op : Operation) :
  well_behaved rpc -> preserves task_only_while_waiting (perform fuel rpc op).
Proof.
  intros Hrpc. destruct op; cbn [perform].
  - apply preserves_bind; [apply preserves_DelayedRetry|]. intros ?. apply triple_ret.
  - apply preserves_ScheduleRetry. exact Hrpc.
  - apply preserves_bind; [apply preserves_HandleResponse|]. intros ?. apply triple_ret.
  - apply preserves_bind; [apply preserves_PrepareController|]. intros ?. apply triple_ret.
  - eapply triple_weaken;
      [apply Abort_post | intros w0 ?; exact I | intros ? w0 H; left; exact H].
  - apply preserves_reactor_fire. exact Hrpc.
  - apply preserves_modify. intros w. split; reflexivity.
  - apply preserves_modify. intros w. split; reflexivity.
  - apply preserves_modify. intros w. split; reflexivity.
  - apply preserves_modify. intros w. split; reflexivity.
Qed.

Lemma preserves_perform_all (fuel : nat) (rpc : RpcCommand) (ops : list Operation) :
  well_behaved rpc -> preserves task_only_while_waiting (perform_all fuel rpc ops).
Proof.
  intros Hrpc. induction ops as [|op ops IH]; cbn [perform_all].
  - apply triple_ret.
  - apply preserves_bind; [apply preserves_perform; exact Hrpc|]. intros ?. exact IH.
Qed.

(** Commands built from the operations of the retrier are well behaved. *)
Lemma scripted_command_well_behaved (fuel : nat) (inner : RpcCommand)
  (send : list Operation) (finished : Status -> list Operation) :
  well_behaved inner -> well_behaved (scripted_command fuel inner send finished).
Proof.
  intros Hinner. split; [|intros status]; apply preserves_perform_all; exact Hinner.
Qed.

Lemma Quiescent_task_only_while_waiting (fuel : nat) (rpc : RpcCommand) (w : World) :
  well_behaved rpc -> Quiescent fuel rpc w -> task_only_while_waiting w.
Proof.
  intros Hrpc Hq. induction Hq as [w [_ Hid] | w w' op _ IH Hstep].
  - left. exact Hid.
  - eapply preserves_perform; eassumption.
Qed.

Lemma DoRetry_spin_scheduling (fuel : nat) (w : World) :
  state_ (retrier w) = kScheduling ->
  DoRetry_spin fuel false kScheduling w = Blocked (slept fuel (FromMilliseconds 1) w).
Proof.
  revert w. induction fuel as [|fuel IH]; intros w Hst; cbn [DoRetry_spin negb andb
    RpcRetrierState_eqb]; [reflexivity|].
  unfold bind at 1. unfold compare_exchange_strong. rewrite Hst.
  cbn [RpcRetrierState_eqb]. cbn iota beta.
  unfold bind at 1. unfold sleep_for. run. cbn beta iota.
  rewrite IH by exact Hst. reflexivity.
Qed.

Lemma slept_fields (n : nat) (d : MonoDelta) (w : World) :
  retrier (slept n d w) = retrier w
  /\ messenger (slept n d w) = messenger w
  /\ events (slept n d w) = events w ++ repeat (EvSleep d) n
  /\ now (slept n d w) = now w + Z.of_nat n * d.
Proof.
  revert w. induction n as [|n IH]; intros w.
  - cbn. rewrite app_nil_r. repeat split; lia.
  - cbn [slept]. destruct (IH (with_now (now w + d) (with_event (EvSleep d) w)))
      as (Hr & Hm & He & Hn).
    rewrite Hr, Hm, He, Hn. cbn [retrier messenger events now with_now with_event repeat].
    rewrite <- app_assoc. cbn [app]. repeat split. lia.
Qed.

Lemma DoRetry_scheduling (fuel : nat) (rpc : RpcCommand) (status : Status) (w : World) :
  state_ (retrier w) = kScheduling ->
  DoRetry fuel rpc status w = Blocked (slept fuel (FromMilliseconds 1) w).
Proof.
  intros Hst.
  unfold DoRetry. unfold bind at 1. unfold compare_exchange_strong at 1.
  rewrite Hst. cbn [RpcRetrierState_eqb]. cbn iota beta.
  unfold bind at 1. rewrite DoRetry_spin_scheduling by exact Hst. reflexivity.
Qed.

(** [DoRetry_deadline_check] only reads. *)
Lemma DoRetry_deadline_check_reads (rpc : RpcCommand) (status : Status) (w : World) :
  exists new_status, DoRetry_deadline_check rpc status w = Done new_status w.
Proof.
  unfold DoRetry_deadline_check. run.
  destruct (ok status); [|eauto].
  destruct (Initialized (deadline_ (retrier w))); [|eauto].
  destruct (ComesBefore (deadline_ (retrier w)) (now w)); [|eauto].
  eauto.
Qed.

Lemma back_to_idle_outcome (w : World) :
  exists w',
    back_to_idle w = Done tt w'
    /\ task_id_ (retrier w') = task_id_ (retrier w)
    /\ messenger w' = messenger w
    /\ events w' = events w
    /\ state_ (retrier w') = settled true (state_ (retrier w)).
Proof.
  unfold back_to_idle, compare_exchange_strong, settled. run. cbn [andb].
  destruct (RpcRetrierState_eqb (state_ (retrier w)) kRunning);
    eexists; repeat split.
Qed.

(** Every [DoRetry] that gets to call the command does so in a world in
    which [task_id_] is already cleared, and nothing it does after the
    command returned touches [task_id_] again. *)
Lemma DoRetry_calls_with_task_cleared (fuel : nat) (rpc : RpcCommand) (status : Status)
  (w : World) :
  state_ (retrier w) <> kScheduling ->
  exists cb held_running w_c,
    DoRetry fuel rpc status w = (invoke rpc cb ;; afterwards held_running)%monad w_c
    /\ task_id_ (retrier w_c) = kInvalidTaskId
    /\ events w_c = events w ++ [recorded cb]
    /\ messenger w_c = messenger w
    /\ (if held_running
        then state_ (retrier w) = kWaiting /\ state_ (retrier w_c) = kRunning
        else state_ (retrier w) <> kWaiting
             /\ state_ (retrier w_c) = state_ (retrier w)
             /\ cb = ViaFinished
                       (STATUS kAborted
                          (ToString rpc ++ " aborted: "
                           ++ RpcRetrierState_ToString (state_ (retrier w)))))
    /\ forall w_d,
         invoke rpc cb w_c = Done tt w_d ->
         exists w',
           DoRetry fuel rpc status w = Done tt w'
           /\ task_id_ (retrier w') = task_id_ (retrier w_d)
           /\ messenger w' = messenger w_d
           /\ events w' = events w_d
           /\ state_ (retrier w') = settled held_running (state_ (retrier w_d)).
Proof.
  intros Hsched.
  assert (Htail : forall cb held_running w_c,
            DoRetry fuel rpc status w
              = (invoke rpc cb ;; afterwards held_running)%monad w_c ->
            forall w_d,
              invoke rpc cb w_c = Done tt w_d ->
              exists w',
                DoRetry fuel rpc status w = Done tt w'
                /\ task_id_ (retrier w') = task_id_ (retrier w_d)
                /\ messenger w' = messenger w_d
                /\ events w' = events w_d
                /\ state_ (retrier w') = settled held_running (state_ (retrier w_d))).
  { intros cb held_running w_c Hrun w_d Hcb. rewrite Hrun. unfold bind. rewrite Hcb.
    destruct held_running; cbn [afterwards].
    - apply back_to_idle_outcome.
    - exists w_d. repeat split. }
  destruct (RpcRetrierState_eqb (state_ (retrier w)) kWaiting) eqn:Hwaiting.
  - apply RpcRetrierState_eqb_eq in Hwaiting.
    pose proof (DoRetry_from_waiting fuel rpc status w Hwaiting) as Hrun.
    destruct (DoRetry_deadline_check_reads rpc status (running w)) as [new_status Hcheck].
    unfold bind at 1 in Hrun. rewrite Hcheck in Hrun.
    destruct (ok new_status).
    + set (w_c := with_event EvSendRpc
                    (with_retrier
                       (fun r => set_controller (RpcController_Reset (controller_ r)) r)
                       (running w))).
      assert (Hrun' : DoRetry fuel rpc status w
                      = (invoke rpc ViaSendRpc ;; afterwards true)%monad w_c).
      { rewrite Hrun. reflexivity. }
      exists ViaSendRpc, true, w_c.
      split; [exact Hrun'|]. split; [reflexivity|]. split; [reflexivity|].
      split; [reflexivity|]. split; [split; [exact Hwaiting|reflexivity]|].
      exact (Htail _ _ _ Hrun').
    + set (reported := if IsServiceUnavailable new_status
                       then STATUS kAborted
                              ("Aborted because of " ++ Status_ToString new_status)
                       else new_status) in *.
      set (w_c := with_event (EvFinished reported) (running w)).
      assert (Hrun' : DoRetry fuel rpc status w
                      = (invoke rpc (ViaFinished reported) ;; afterwards true)%monad w_c).
      { rewrite Hrun. reflexivity. }
      exists (ViaFinished reported), true, w_c.
      split; [exact Hrun'|]. split; [reflexivity|]. split; [reflexivity|].
      split; [reflexivity|]. split; [split; [exact Hwaiting|reflexivity]|].
      exact (Htail _ _ _ Hrun').
  - assert (Hnot : state_ (retrier w) <> kWaiting).
    { intros Heq. rewrite Heq in Hwaiting. discriminate Hwaiting. }
    pose proof (DoRetry_not_waiting fuel rpc status w Hnot Hsched) as Hrun.
    set (reported := STATUS kAborted
                       (ToString rpc ++ " aborted: "
                        ++ RpcRetrierState_ToString (state_ (retrier w)))) in *.
    set (w_c := with_event (EvFinished reported)
                  (with_retrier (set_task_id kInvalidTaskId) w)).
    assert (Hrun' : DoRetry fuel rpc status w
                    = (invoke rpc (ViaFinished reported) ;; afterwards false)%monad w_c).
    { rewrite Hrun. unfold call_Finished, afterwards, w_c. run. cbn [invoke].
      match goal with
      | |- ?call = _ => destruct call as [[] ?|?|?]; reflexivity
      end. }
    exists (ViaFinished reported), false, w_c.
    split; [exact Hrun'|]. split; [reflexivity|]. split; [reflexivity|].
    split; [reflexivity|]. split; [split; [exact Hnot|split; reflexivity]|].
    exact (Htail _ _ _ Hrun').
Qed.

Lemma destructor_outcome (dfatal_is_fatal : bool) (w : World) :
  destructor dfatal_is_fatal w =
    if (task_id_ (retrier w) =? kInvalidTaskId)
       && (RpcRetrierState_eqb (state_ (retrier w)) kIdle
           || RpcRetrierState_eqb (state_ (retrier w)) kFinished)
    then Done tt w
    else
      let logged :=
        with_event
          (EvLogDFatal ("Destroying RpcRetrier in invalid state: "
                        ++ RpcRetrier_ToString (retrier w))) w in
      if dfatal_is_fatal then Fatal logged else Done tt logged.
Proof.
  unfold destructor, LOG_DFATAL. run. cbn beta iota.
  rewrite (Z.eqb_sym kInvalidTaskId).
  destruct (task_id_ (retrier w) =? kInvalidTaskId);
    destruct (state_ (retrier w)); destruct dfatal_is_fatal; reflexivity.
Qed.

Lemma with_event_changes (e : Event) (w : World) : with_event e w <> w.
Proof.
  intros H. apply (f_equal events) in H. cbn in H.
  apply (f_equal (@List.length Event)) in H. rewrite length_app in H. cbn in H. lia.
Qed.


End RetrierProperties.

(* ===================================================================== *)
(** * Further properties of the retrier *)
(* ===================================================================== *)

Section MoreRetrierProperties.
Context {collab : Collaborators}.
Import Retrier.

(** ** [DoRetry] while the retry is still being scheduled *)

(** X4. Fired while the scheduling thread still holds [kScheduling],
    [DoRetry] only sleeps, one millisecond at a time: as long as the state
    does not change it does not return, does not call the command, and
    leaves the retrier, [task_id_] included, and the messenger as they
    are. *)
Theorem DoRetry_waits_while_scheduling (fuel : nat) (rpc : RpcCommand) (status : Status)
  (w : World) :
  state_ (retrier w) = kScheduling ->
  exists w',
    DoRetry fuel rpc status w = Blocked w'
    /\ retrier w' = retrier w
    /\ messenger w' = messenger w
    /\ events w' = events w ++ repeat (EvSleep (FromMilliseconds 1)) fuel
    /\ now w' = now w + Z.of_nat fuel * FromMilliseconds 1.
Proof.
  intros Hst. exists (slept fuel (FromMilliseconds 1) w).
  split; [|apply slept_fields]. now apply DoRetry_scheduling.
Qed.

(** ** Invariants of the world kept by every operation *)

Lemma triple_conj {A : Type} (P : World -> Prop) (Q1 Q2 : A -> World -> Prop)
  (m : M World A) :
  triple P m Q1 -> triple P m Q2 -> triple P m (fun a w => Q1 a w /\ Q2 a w).
Proof. intros H1 H2 w a w' HP H. split; eauto. Qed.

Lemma respects_iff (P Q : World -> Prop) (rpc : RpcCommand) :
  (forall w, P w <-> Q w) -> respects P rpc -> respects Q rpc.
Proof.
  intros HPQ [Hsend Hfin]. split; [|intros status]; intros w a w' HQ H; apply HPQ.
  - eapply Hsend; [apply HPQ; exact HQ|exact H].
  - eapply Hfin; [apply HPQ; exact HQ|exact H].
Qed.

Lemma ids_dropped (id : ScheduledTaskId) (l : list DelayedTask) :
  map task_id (filter (fun t => negb (is_task id t)) l)
  = filter (fun i => negb (i =? id)) (map task_id l).
Proof.
  induction l as [|t l IH]; cbn; [reflexivity|].
  unfold is_task at 1. destruct (task_id t =? id); cbn; now rewrite IH.
Qed.

Lemma held_drop_task (id : ScheduledTaskId) (w : World) :
  held (with_messenger (drop_task id) w) = filter (fun i => negb (i =? id)) (held w).
Proof. unfold held. cbn. apply ids_dropped. Qed.

Lemma held_request_abort (id : ScheduledTaskId) (l : list DelayedTask) :
  map task_id (map (request_abort id) l) = map task_id l.
Proof.
  induction l as [|t l IH]; cbn; [reflexivity|]. rewrite IH. f_equal.
  unfold request_abort. destruct (task_id t =? id); reflexivity.
Qed.

Section WorldInvariant.

Variable P : World -> Prop.
Variable rpc : RpcCommand.

(** [P] looks at the state, the task id and the ids of the held tasks
    only, and is kept when the reactor takes a task off its list. *)
Hypothesis P_framed :
  forall f, same_state_and_task f -> same_tasks f -> forall w, P w -> P (f w).
Hypothesis P_dropped :
  forall id w, P w -> P (with_messenger (drop_task id) w).

(** The three places where the state or the task id is written. *)
Hypothesis P_DelayedRetry :
  forall fuel why_status strategy,
    preserves P (DelayedRetry fuel rpc why_status strategy).
Hypothesis P_DoRetry :
  forall fuel status, preserves P (DoRetry fuel rpc status).
Hypothesis P_abort_exchange :
  forall expected, preserves P (compare_exchange_weak expected kFinished).

Hypothesis P_Finished : forall status, preserves P (Finished rpc status).

Lemma kept_modify (f : World -> World) :
  same_state_and_task f -> same_tasks f -> preserves P (modify f).
Proof. intros H1 H2. apply triple_modify. intros w HP. now apply P_framed. Qed.

Lemma kept_emit (e : Event) : preserves P (Retrier.emit e).
Proof. apply kept_modify; intros w; [split|]; reflexivity. Qed.

Lemma kept_reactor_fire (fuel : nat) (id : ScheduledTaskId) (status : Status) :
  preserves P (reactor_fire fuel rpc id status).
Proof.
  unfold reactor_fire.
  apply preserves_bind; [apply preserves_gets|]. intros is_pending.
  destruct is_pending; [|apply triple_ret].
  apply preserves_bind; [|intros ?; apply P_DoRetry].
  apply triple_modify. intros w HP. now apply P_dropped.
Qed.

Lemma kept_reactor_run (fuel : nat) (firings : list (ScheduledTaskId * Status)) :
  preserves P (reactor_run fuel rpc firings).
Proof.
  induction firings as [|[id status] firings IH]; cbn [reactor_run].
  - apply triple_ret.
  - apply preserves_bind; [apply kept_reactor_fire|]. intros ?. exact IH.
Qed.

Lemma kept_sleep_for (d : MonoDelta) (others : M World unit) :
  preserves P others -> preserves P (sleep_for d others).
Proof.
  intros Hothers. unfold sleep_for.
  apply preserves_bind; [apply kept_emit|]. intros ?.
  apply preserves_bind; [apply preserves_gets|]. intros t.
  apply preserves_bind; [|intros ?; exact Hothers].
  apply kept_modify; intros w; [split|]; reflexivity.
Qed.

Lemma kept_AbortOnReactor (id : ScheduledTaskId) : preserves P (AbortOnReactor id).
Proof.
  unfold AbortOnReactor.
  apply preserves_bind; [apply kept_emit|]. intros ?.
  apply kept_modify; intros w; [split; reflexivity|].
  unfold held. cbn. apply held_request_abort.
Qed.

Lemma kept_Abort_park (naps : list (M World unit)) (expected_state : RpcRetrierState) :
  Forall (preserves P) naps ->
  triple P (Abort_park naps expected_state)
    (fun rest w => P w /\ Forall (preserves P) rest).
Proof.
  intros Hnaps. revert expected_state.
  induction Hnaps as [|nap naps Hnap Hnaps IH]; intros expected_state;
    cbn [Abort_park].
  - eapply triple_bind; [apply P_abort_exchange|].
    intros [exchanged expected]. cbn beta iota.
    destruct exchanged.
    { intros w a w' HP H. returned H. split; [exact HP|constructor]. }
    destruct (RpcRetrierState_eqb expected kFinished).
    { intros w a w' HP H. returned H. split; [exact HP|constructor]. }
    apply triple_blocked.
  - eapply triple_bind; [apply P_abort_exchange|].
    intros [exchanged expected]. cbn beta iota.
    destruct exchanged.
    { intros w a w' HP H. returned H. split; [exact HP|now constructor]. }
    destruct (RpcRetrierState_eqb expected kFinished).
    { intros w a w' HP H. returned H. split; [exact HP|now constructor]. }
    eapply triple_bind; [apply (kept_sleep_for _ nap Hnap)|].
    intros ?. apply IH.
Qed.

Lemma kept_Abort_drain (naps : list (M World unit)) :
  Forall (preserves P) naps -> preserves P (Abort_drain naps).
Proof.
  intros Hnaps. induction Hnaps as [|nap naps Hnap Hnaps IH]; cbn [Abort_drain].
  - apply preserves_bind; [apply preserves_gets|]. intros id.
    destruct (id =? kInvalidTaskId); [apply triple_ret|].
    apply preserves_bind; [apply kept_AbortOnReactor|]. intros ?. apply triple_blocked.
  - apply preserves_bind; [apply preserves_gets|]. intros id.
    destruct (id =? kInvalidTaskId); [apply triple_ret|].
    apply preserves_bind; [apply kept_AbortOnReactor|]. intros ?.
    apply preserves_bind; [apply kept_sleep_for; exact Hnap|]. intros ?. exact IH.
Qed.

Lemma reactor_naps_kept (fuel : nat) (naps : list (list (ScheduledTaskId * Status))) :
  Forall (preserves P) (map (reactor_run fuel rpc) naps).
Proof. apply Forall_forall. intros nap Hin. apply in_map_iff in Hin.
  destruct Hin as (firings & <- & _). apply kept_reactor_run. Qed.

Lemma kept_Abort (fuel : nat) (naps : list (list (ScheduledTaskId * Status))) :
  preserves P (Abort (map (reactor_run fuel rpc) naps)).
Proof.
  unfold Abort. eapply triple_bind.
  - apply kept_Abort_park. apply reactor_naps_kept.
  - intros rest. intros w a w' [HP Hrest] H.
    exact (kept_Abort_drain rest Hrest w a w' HP H).
Qed.

Lemma kept_call_Finished (status : Status) : preserves P (call_Finished rpc status).
Proof.
  unfold call_Finished.
  apply preserves_bind; [apply kept_emit|]. intros ?. apply P_Finished.
Qed.

Lemma kept_perform (fuel : nat) (op : Operation) : preserves P (perform fuel rpc op).
Proof.
  destruct op; cbn [perform].
  - apply preserves_bind; [apply P_DelayedRetry|]. intros ?. apply triple_ret.
  - unfold ScheduleRetry.
    apply preserves_bind; [apply P_DelayedRetry|]. intros retry_status.
    destruct (negb (ok retry_status)); [|apply triple_ret].
    apply preserves_bind; [apply kept_emit|]. intros ?. apply kept_call_Finished.
  - apply preserves_bind; [|intros ?; apply triple_ret].
    unfold HandleResponse.
    apply preserves_bind; [apply preserves_gets|]. intros cs.
    destruct (IsRemoteError cs && retry_when_busy); [|apply triple_ret].
    apply preserves_bind; [apply preserves_gets|]. intros err.
    destruct (too_busy err); [|apply triple_ret].
    apply preserves_bind; [apply P_DelayedRetry|]. intros status.
    destruct (negb (ok status)); apply triple_ret.
  - apply preserves_bind; [|intros ?; apply triple_ret].
    unfold PrepareController.
    apply preserves_bind; [apply preserves_gets|]. intros fl.
    apply preserves_bind; [apply preserves_gets|]. intros deadline.
    apply preserves_bind; [apply preserves_gets|]. intros t.
    apply preserves_bind; [|intros ?; apply preserves_gets].
    apply kept_modify; intros w; [split|]; reflexivity.
  - apply kept_Abort.
  - apply kept_reactor_fire.
  - apply kept_modify; intros w; [split|]; reflexivity.
  - apply kept_modify; intros w; [split|]; reflexivity.
  - apply kept_modify; intros w; [split|]; reflexivity.
  - apply kept_modify; intros w; [split|]; reflexivity.
Qed.

Lemma kept_perform_all (fuel : nat) (ops : list Operation) :
  preserves P (perform_all fuel rpc ops).
Proof.
  induction ops as [|op ops IH]; cbn [perform_all].
  - apply triple_ret.
  - apply preserves_bind; [apply kept_perform|]. intros ?. exact IH.
Qed.

End WorldInvariant.

(** ** A finished retrier *)

Section Finished.

Variable T : list ScheduledTaskId -> Prop.
Variable rpc : RpcCommand.
Hypothesis T_filter : forall f l, T l -> T (filter f l).
Hypothesis rpc_respects : respects (finished_and T) rpc.

Lemma finished_framed (f : World -> World) :
  same_state_and_task f -> same_tasks f ->
  forall w, finished_and T w -> finished_and T (f w).
Proof.
  intros Hf Hh w [Hs HT]. split.
  - destruct (Hf w) as [-> _]. exact Hs.
  - rewrite Hh. exact HT.
Qed.

Lemma finished_dropped (id : ScheduledTaskId) (w : World) :
  finished_and T w -> finished_and T (with_messenger (drop_task id) w).
Proof.
  intros [Hs HT]. split; [exact Hs|]. rewrite held_drop_task. now apply T_filter.
Qed.

Lemma DelayedRetry_acquire_finished (fuel : nat) (expected_state : RpcRetrierState)
  (w : World) :
  state_ (retrier w) = kFinished -> expected_state <> kFinished ->
  DelayedRetry_acquire (S fuel) rpc expected_state w = acquired rpc w.
Proof.
  intros Hs He. cbn [DelayedRetry_acquire]. unfold bind at 1.
  unfold compare_exchange_strong, acquired. rewrite Hs.
  destruct expected_state; try contradiction; cbn [RpcRetrierState_eqb]; cbn iota beta;
    run; reflexivity.
Qed.

Lemma finished_DelayedRetry (fuel : nat) (why_status : Status)
  (strategy : BackoffStrategy) :
  preserves (finished_and T) (DelayedRetry fuel rpc why_status strategy).
Proof.
  intros w a w' [Hs HT] H. unfold DelayedRetry in H.
  destruct (DelayedRetry_backoff_total why_status strategy w)
    as (w1 & Hb & _ & _ & Hs1 & _ & _ & _ & Hm1 & _).
  unfold bind at 1 in H. rewrite Hb in H.
  destruct fuel as [|fuel]; [discriminate H|].
  unfold bind at 1 in H.
  rewrite DelayedRetry_acquire_finished in H by (congruence || discriminate).
  unfold acquired in H. rewrite Hs1, Hs in H. returned H.
  split; cbn; [congruence|]. unfold held in *. cbn. rewrite Hm1. exact HT.
Qed.

Lemma finished_DoRetry (fuel : nat) (status : Status) :
  preserves (finished_and T) (DoRetry fuel rpc status).
Proof.
  intros w a w' [Hs HT] H.
  rewrite DoRetry_not_waiting in H by (rewrite Hs; discriminate).
  unfold call_Finished in H. unfold bind at 1 in H. cbn [Retrier.emit modify] in H.
  destruct rpc_respects as [_ Hfin]. eapply Hfin; [|exact H]. split; cbn; assumption.
Qed.

Lemma finished_abort_exchange (expected : RpcRetrierState) :
  preserves (finished_and T) (compare_exchange_weak expected kFinished).
Proof.
  intros w a w' [Hs HT] H. unfold compare_exchange_weak, compare_exchange_strong in H.
  destruct (weak_failures w) as [|[] rest]; cbn in H;
    try destruct (RpcRetrierState_eqb (state_ (retrier w)) expected);
    returned H; split; unfold held in *; cbn; first [reflexivity|assumption].
Qed.

Lemma finished_perform_all (fuel : nat) (ops : list Operation) :
  preserves (finished_and T) (perform_all fuel rpc ops).
Proof.
  apply kept_perform_all.
  - exact finished_framed.
  - exact finished_dropped.
  - exact finished_DelayedRetry.
  - exact finished_DoRetry.
  - exact finished_abort_exchange.
  - destruct rpc_respects as [_ Hfin]. exact Hfin.
Qed.

Lemma finished_naps (fuel : nat) (naps : list (list (ScheduledTaskId * Status))) :
  Forall (preserves (finished_and T)) (map (reactor_run fuel rpc) naps).
Proof.
  apply reactor_naps_kept; [exact finished_dropped|exact finished_DoRetry].
Qed.

End Finished.

Lemma abort_exchange_post (expected_state : RpcRetrierState) :
  triple (fun _ => True) (compare_exchange_weak expected_state kFinished)
    (fun r w => if fst r then state_ (retrier w) = kFinished
                else snd r = state_ (retrier w)).
Proof.
  intros w [exchanged expected] w' _ H.
  unfold compare_exchange_weak, compare_exchange_strong in H.
  destruct (weak_failures w) as [|[] rest]; cbn in H;
    try destruct (RpcRetrierState_eqb (state_ (retrier w)) expected_state);
    returned H; reflexivity.
Qed.

Lemma Abort_park_post (naps : list (M World unit)) (expected_state : RpcRetrierState) :
  triple (fun _ => True) (Abort_park naps expected_state)
    (fun _ w => state_ (retrier w) = kFinished).
Proof.
  revert expected_state. induction naps as [|nap naps IH]; intros expected_state;
    cbn [Abort_park].
  - eapply triple_bind; [apply abort_exchange_post|].
    intros [exchanged expected]. cbn [fst snd].
    destruct exchanged.
    { intros w a w' Hq H. returned H. exact Hq. }
    destruct (RpcRetrierState_eqb expected kFinished) eqn:E.
    { intros w a w' Hq H. returned H. apply RpcRetrierState_eqb_eq in E. congruence. }
    apply triple_blocked.
  - eapply triple_bind; [apply abort_exchange_post|].
    intros [exchanged expected]. cbn [fst snd].
    destruct exchanged.
    { intros w a w' Hq H. returned H. exact Hq. }
    destruct (RpcRetrierState_eqb expected kFinished) eqn:E.
    { intros w a w' Hq H. returned H. apply RpcRetrierState_eqb_eq in E. congruence. }
    eapply triple_bind; [apply triple_any|]. intros ?. apply IH.
Qed.

Lemma Abort_park_rest (naps : list (M World unit)) (expected_state : RpcRetrierState)
  (w : World) (rest : list (M World unit)) (w' : World) :
  Abort_park naps expected_state w = Done rest w' ->
  exists used, naps = used ++ rest.
Proof.
  revert expected_state w. induction naps as [|nap naps IH]; intros expected_state w;
    cbn [Abort_park]; unfold bind at 1;
    destruct (compare_exchange_weak expected_state kFinished w)
      as [[exchanged expected] w1|w1|w1]; try discriminate;
    cbn beta iota;
    (destruct exchanged; [intros H; returned H; exists []; reflexivity|]);
    (destruct (RpcRetrierState_eqb expected kFinished);
       [intros H; returned H; exists []; reflexivity|]).
  - discriminate.
  - unfold bind at 1. destruct (sleep_for (FromMilliseconds 10) nap w1) as [[] w2|w2|w2];
      try discriminate.
    intros H. apply IH in H. destruct H as [used ->]. exists (nap :: used). reflexivity.
Qed.

(** X5. Whatever the state [Abort] is called in and whatever the reactor
    fires while it sleeps, an [Abort] that returns leaves the retrier in
    [kFinished] with [task_id_] cleared, provided the command's [SendRpc]
    and [Finished] leave a finished retrier finished. *)
Theorem Abort_leaves_finished (fuel : nat) (rpc : RpcCommand)
  (naps : list (list (ScheduledTaskId * Status))) (w w' : World) :
  respects (in_state kFinished) rpc ->
  Abort (map (reactor_run fuel rpc) naps) w = Done tt w' ->
  state_ (retrier w') = kFinished /\ task_id_ (retrier w') = kInvalidTaskId.
Proof.
  intros Hrpc H.
  assert (Hrpc' : respects (finished_and (fun _ => True)) rpc).
  { revert Hrpc. apply respects_iff. intros w0. unfold finished_and, in_state. tauto. }
  unfold Abort in H. unfold bind at 1 in H.
  destruct (Abort_park (map (reactor_run fuel rpc) naps) kIdle w) as [rest w1|w1|w1] eqn:E;
    try discriminate.
  pose proof (Abort_park_post _ _ _ _ _ I E) as Hs.
  destruct (Abort_park_rest _ _ _ _ _ E) as [used Hused].
  assert (Hrest : Forall (preserves (finished_and (fun _ => True))) rest).
  { pose proof (finished_naps (fun _ => True) rpc (fun _ _ _ => I) Hrpc' fuel naps) as Hall.
    rewrite Hused in Hall. apply Forall_app in Hall. apply Hall. }
  split.
  - pose proof (kept_Abort_drain (finished_and (fun _ => True))
                  (finished_framed (fun _ => True)) rest Hrest) as Hdrain.
    apply (Hdrain w1 tt w'); [split; [exact Hs|exact I]|exact H].
  - exact (Abort_drain_post rest w1 tt w' I H).
Qed.

(** X7. [kFinished] is terminal: whatever is done to a finished retrier
    (retries asked for, responses handled, aborts, firings of the tasks
    the reactor still holds, changes of its surroundings), it stays
    finished and the messenger is handed no new task, provided the
    command's own [SendRpc] and [Finished] do not break this either. *)
Theorem finished_is_terminal (fuel : nat) (rpc : RpcCommand) (ops : list Operation)
  (w w' : World) :
  state_ (retrier w) = kFinished ->
  respects (finished_with_tasks (held w)) rpc ->
  perform_all fuel rpc ops w = Done tt w' ->
  state_ (retrier w') = kFinished /\ incl (held w') (held w).
Proof.
  intros Hs Hrpc H.
  apply (finished_perform_all (fun l => incl l (held w)) rpc) with (fuel := fuel)
    (ops := ops) (w := w) (a := tt); [| exact Hrpc | | exact H].
  - intros f l Hl i Hi. apply Hl. apply filter_In in Hi. apply Hi.
  - split; [exact Hs|apply incl_refl].
Qed.

(** ** [Abort] while an attempt is running *)

Lemma in_state_framed (state : RpcRetrierState) (f : World -> World) :
  same_state_and_task f -> same_tasks f ->
  forall w, in_state state w -> in_state state (f w).
Proof. intros Hf _ w Hs. unfold in_state in *. destruct (Hf w) as [-> _]. exact Hs. Qed.

Lemma busy_DoRetry (fuel : nat) (rpc : RpcCommand) (state : RpcRetrierState)
  (status : Status) :
  state = kRunning \/ state = kScheduling ->
  respects (in_state state) rpc ->
  preserves (in_state state) (DoRetry fuel rpc status).
Proof.
  intros Hstate [_ Hfin] w a w' Hs H. unfold in_state in Hs.
  destruct Hstate as [-> | ->].
  - rewrite DoRetry_not_waiting in H by (rewrite Hs; discriminate).
    unfold call_Finished in H. unfold bind at 1 in H. cbn [Retrier.emit modify] in H.
    eapply Hfin; [|exact H]. exact Hs.
  - rewrite DoRetry_scheduling in H by exact Hs. discriminate H.
Qed.

Lemma abort_exchange_busy (state : RpcRetrierState) (w : World) :
  state = kRunning \/ state = kScheduling ->
  in_state state w ->
  exists w1, compare_exchange_weak kIdle kFinished w = Done (false, state) w1
             /\ in_state state w1.
Proof.
  intros Hstate Hs. unfold in_state in Hs.
  unfold compare_exchange_weak, compare_exchange_strong.
  destruct (weak_failures w) as [|[] rest].
  - exists w. rewrite Hs. destruct Hstate as [-> | ->]; split; reflexivity || exact Hs.
  - exists (with_weak_failures rest w). rewrite Hs. split; [reflexivity|exact Hs].
  - exists (with_weak_failures rest w).
    change (state_ (retrier (with_weak_failures rest w))) with (state_ (retrier w)).
    rewrite Hs. destruct Hstate as [-> | ->]; split; reflexivity || exact Hs.
Qed.

Lemma Abort_park_busy (state : RpcRetrierState) (naps : list (M World unit)) :
  state = kRunning \/ state = kScheduling ->
  Forall (preserves (in_state state)) naps ->
  forall w, in_state state w -> returns (Abort_park naps kIdle) w = false.
Proof.
  intros Hstate Hnaps.
  induction Hnaps as [|nap naps Hnap Hnaps IH]; intros w Hs; unfold returns;
    cbn [Abort_park]; unfold bind at 1;
    destruct (abort_exchange_busy state w Hstate Hs) as (w1 & -> & Hs1).
  - destruct Hstate as [-> | ->]; reflexivity.
  - assert (Hstep :
              match (sleep_for (FromMilliseconds 10) nap ;; Abort_park naps kIdle)%monad w1
              with Done _ _ => true | _ => false end = false).
    { unfold bind at 1.
      destruct (sleep_for (FromMilliseconds 10) nap w1) as [[] w2|w2|w2] eqn:E;
        try reflexivity.
      apply IH.
      exact (kept_sleep_for (in_state state) (in_state_framed state) _ nap Hnap
               w1 tt w2 Hs1 E). }
    destruct Hstate as [-> | ->]; exact Hstep.
Qed.

(** X6. [Abort] waits for an attempt in progress: called while the state is
    [kRunning] or [kScheduling], it does not return as long as the state
    stays what it is, whatever the reactor fires while it sleeps and however
    often the weak exchange fails, provided the command's [SendRpc] and
    [Finished] leave the state alone. *)
Theorem Abort_waits_while_busy (fuel : nat) (rpc : RpcCommand)
  (naps : list (list (ScheduledTaskId * Status))) (w : World) :
  state_ (retrier w) = kRunning \/ state_ (retrier w) = kScheduling ->
  respects (in_state (state_ (retrier w))) rpc ->
  returns (Abort (map (reactor_run fuel rpc) naps)) w = false.
Proof.
  intros Hstate Hrpc.
  pose proof (Abort_park_busy (state_ (retrier w)) (map (reactor_run fuel rpc) naps)
                Hstate) as Hpark.
  unfold returns in *. unfold Abort. unfold bind at 1.
  destruct (Abort_park (map (reactor_run fuel rpc) naps) kIdle w) eqn:E;
    try reflexivity.
  specialize (Hpark
    (reactor_naps_kept (in_state (state_ (retrier w))) rpc
       (fun _ _ Hs => Hs) (fun f st => busy_DoRetry f rpc _ st Hstate Hrpc) fuel naps)
    w eq_refl).
  rewrite E in Hpark. discriminate Hpark.
Qed.

(** ** A waiting retrier has a task *)

Section WaitingHasTask.

Variable rpc : RpcCommand.
Hypothesis rpc_respects : respects (observes waiting_with_task) rpc.

Lemma waiting_framed (f : World -> World) :
  same_state_and_task f -> same_tasks f ->
  forall w, observes waiting_with_task w -> observes waiting_with_task (f w).
Proof. intros Hf _ w HP. unfold observes in *. destruct (Hf w) as [-> ->]. exact HP. Qed.

Lemma waiting_DelayedRetry (fuel : nat) (why_status : Status)
  (strategy : BackoffStrategy) :
  preserves (observes waiting_with_task) (DelayedRetry fuel rpc why_status strategy).
Proof.
  unfold DelayedRetry.
  apply preserves_bind.
  { intros w a w' HP H.
    destruct (DelayedRetry_backoff_total why_status strategy w)
      as (w1 & Hb & _ & _ & Hs & Ht & _).
    rewrite Hb in H. returned H. unfold observes in *. rewrite Hs, Ht. exact HP. }
  intros num_ms.
  eapply triple_bind with
    (Q := fun r w => match r with
                     | None => True
                     | Some _ => observes waiting_with_task w
                     end).
  { generalize kIdle as expected_state.
    induction fuel as [|fuel' IH]; intros expected_state; [apply triple_blocked|].
    cbn [DelayedRetry_acquire].
    intros w r w' HP H. unfold bind at 1 in H. unfold compare_exchange_strong in H.
    destruct (RpcRetrierState_eqb (state_ (retrier w)) expected_state).
    - returned H. exact I.
    - destruct (state_ (retrier w)) eqn:Hst;
        try (eapply IH; eassumption);
        unfold LOG_WARNING, Retrier.emit, modify, bind, ret in H;
        returned H; exact HP. }
  intros [result|]; [apply triple_ret|].
  intros w status w' _ H. unfold DelayedRetry_schedule in H.
  apply bind_Done in H. destruct H as (id & w1 & _ & H).
  apply bind_Done in H. destruct H as ([] & w2 & Hset & H).
  returned Hset.
  unfold bind at 1 in H. cbn [gets] in H.
  change (task_id_ (retrier (with_retrier (set_task_id id) w1))) with id in H.
  destruct (id =? kInvalidTaskId) eqn:Hid.
  - apply bind_Done in H. destruct H as ([] & w3 & Hlog & H).
    returned Hlog.
    unfold bind at 1, compare_exchange_strong at 1 in H.
    destruct (RpcRetrierState_eqb _ kScheduling);
      unfold CHECK, bind, ret, fatal in H; [|discriminate H].
    returned H. intros Hw. discriminate Hw.
  - unfold bind at 1, compare_exchange_strong at 1 in H.
    destruct (RpcRetrierState_eqb _ kScheduling);
      unfold CHECK, bind, ret, fatal in H; [|discriminate H].
    returned H. intros _. apply Z.eqb_neq in Hid. exact Hid.
Qed.

Lemma DoRetry_spin_post (fuel : nat) (run : bool) (expected_state : RpcRetrierState) :
  triple (fun w => state_ (retrier w) <> kWaiting) (DoRetry_spin fuel run expected_state)
    (fun _ w => state_ (retrier w) <> kWaiting).
Proof.
  revert run expected_state. induction fuel as [|fuel IH]; intros run expected_state;
    cbn [DoRetry_spin];
    destruct (negb run && RpcRetrierState_eqb expected_state kScheduling);
    try apply triple_ret; [apply triple_blocked|].
  intros w r w' Hs H. unfold bind at 1 in H. unfold compare_exchange_strong in H.
  destruct (RpcRetrierState_eqb (state_ (retrier w)) kWaiting) eqn:E.
  { apply RpcRetrierState_eqb_eq in E. contradiction. }
  cbn beta iota in H. unfold bind at 1 in H.
  unfold sleep_for in H. run. cbn beta iota in H.
  eapply IH; [|exact H]. exact Hs.
Qed.

Lemma waiting_DoRetry (fuel : nat) (status : Status) :
  preserves (observes waiting_with_task) (DoRetry fuel rpc status).
Proof.
  destruct rpc_respects as [Hsend Hfin].
  unfold DoRetry.
  eapply triple_bind with (Q := fun _ w => state_ (retrier w) <> kWaiting).
  { intros w r w' _ H. unfold compare_exchange_strong in H.
    destruct (RpcRetrierState_eqb (state_ (retrier w)) kWaiting) eqn:E; returned H.
    - discriminate.
    - intros Hw. rewrite Hw in E. discriminate E. }
  intros [run expected]. cbn beta iota.
  eapply triple_bind; [apply DoRetry_spin_post|]. intros [run' expected']. cbn beta iota.
  eapply triple_bind.
  { apply (triple_modify _ (observes waiting_with_task)). intros w Hs Hw.
    cbn in Hw. contradiction. }
  intros ?.
  destruct (negb run').
  - apply kept_call_Finished; [exact waiting_framed|exact Hfin].
  - apply preserves_bind; [apply observes_deadline_check|]. intros new_status.
    apply preserves_bind.
    + destruct (ok new_status).
      * apply preserves_bind.
        { apply kept_modify; [exact waiting_framed| |]; intros w; [split|]; reflexivity. }
        intros ?. unfold call_SendRpc.
        apply preserves_bind; [apply kept_emit; exact waiting_framed|]. intros ?.
        exact Hsend.
      * apply kept_call_Finished; [exact waiting_framed|exact Hfin].
    + intros ?. apply preserves_bind; [|intros ?; apply triple_ret].
      intros w r w' HP H. unfold compare_exchange_strong in H.
      destruct (RpcRetrierState_eqb (state_ (retrier w)) kRunning);
        returned H; [|exact HP].
      intros Hw. discriminate Hw.
Qed.

Lemma waiting_abort_exchange (expected : RpcRetrierState) :
  preserves (observes waiting_with_task) (compare_exchange_weak expected kFinished).
Proof.
  intros w a w' HP H. unfold compare_exchange_weak, compare_exchange_strong in H.
  destruct (weak_failures w) as [|[] rest]; cbn in H;
    try destruct (RpcRetrierState_eqb (state_ (retrier w)) expected);
    returned H; first [exact HP | intros Hw; discriminate Hw].
Qed.

Lemma waiting_perform (fuel : nat) (op : Operation) :
  preserves (observes waiting_with_task) (perform fuel rpc op).
Proof.
  apply kept_perform.
  - exact waiting_framed.
  - intros id w HP. exact HP.
  - exact waiting_DelayedRetry.
  - exact waiting_DoRetry.
  - exact waiting_abort_exchange.
  - destruct rpc_respects as [_ Hfin]. exact Hfin.
Qed.

End WaitingHasTask.

(** X8. A retrier observed waiting has a task: at quiescence the state is
    [kWaiting] only with [task_id_] holding a task id, the one [Abort]
    hands to the messenger, for every command whose [SendRpc] and
    [Finished] keep that themselves. *)
Theorem waiting_has_task_at_quiescence (fuel : nat) (rpc : RpcCommand) (w : World) :
  respects (observes waiting_with_task) rpc ->
  Quiescent fuel rpc w ->
  state_ (retrier w) = kWaiting ->
  task_id_ (retrier w) <> kInvalidTaskId.
Proof.
  intros Hrpc Hq. induction Hq as [w [Hs Ht]|w w' op Hq IH Hop].
  - intros Hw. rewrite Hw in Hs. discriminate Hs.
  - exact (waiting_perform rpc Hrpc fuel op w tt w' IH Hop).
Qed.

(** ** [Abort] of a waiting retrier *)

Lemma pending_request_abort (id id' : ScheduledTaskId) (l : list DelayedTask) :
  existsb (is_task id) (map (request_abort id') l) = existsb (is_task id) l.
Proof.
  induction l as [|t l IH]; cbn [map existsb]; [reflexivity|]. rewrite IH. f_equal.
  unfold is_task, request_abort. destruct (task_id t =? id'); reflexivity.
Qed.

(** X9. [Abort] of a retrier that waits for its task, with no spurious
    failure of the weak exchange: the first exchange fails and reports
    [kWaiting], [Abort] sleeps, the second exchange parks the state in
    [kFinished], and the task is handed to [AbortOnReactor].  When the reactor
    fires the task during the next sleep, with whatever status, [DoRetry]
    clears [task_id_] and calls the command's [Finished] exactly once with
    [Aborted("<rpc> aborted: kFinished")], never [SendRpc]; [Abort] then
    returns as soon as it reads the cleared [task_id_]. *)
Theorem Abort_cancels_waiting (fuel : nat) (rpc : RpcCommand) (status : Status)
  (w : World) (id : ScheduledTaskId) :
  state_ (retrier w) = kWaiting ->
  task_id_ (retrier w) = id ->
  id <> kInvalidTaskId ->
  pending id w = true ->
  weak_failures w = [] ->
  let nap := FromMilliseconds 10 in
  let run := Abort (map (reactor_run fuel rpc) [[]; [(id, status)]]) w in
  exists w2,
    run = (Finished rpc (aborted_in rpc kFinished) ;; Abort_drain [])%monad w2
    /\ (forall w3, Finished rpc (aborted_in rpc kFinished) w2 = Done tt w3 ->
                   task_id_ (retrier w3) = kInvalidTaskId -> run = Done tt w3)
    /\ state_ (retrier w2) = kFinished
    /\ task_id_ (retrier w2) = kInvalidTaskId
    /\ held w2 = filter (fun i => negb (i =? id)) (held w)
    /\ events w2 =
         events w ++ [EvSleep nap; EvAbortOnReactor id; EvSleep nap;
                      EvFinished (aborted_in rpc kFinished)]
    /\ now w2 = now w + nap + nap.
Proof.
  intros Hs Ht Hid Hp Hweak nap run0. subst run0.
  assert (Hrun : exists w2,
    Abort (map (reactor_run fuel rpc) [[]; [(id, status)]]) w
      = (Finished rpc (aborted_in rpc kFinished) ;; Abort_drain [])%monad w2
    /\ state_ (retrier w2) = kFinished
    /\ task_id_ (retrier w2) = kInvalidTaskId
    /\ held w2 = filter (fun i => negb (i =? id)) (held w)
    /\ events w2 =
         events w ++ [EvSleep nap; EvAbortOnReactor id; EvSleep nap;
                      EvFinished (aborted_in rpc kFinished)]
    /\ now w2 = now w + nap + nap).
  { unfold Abort. cbn [map reactor_run Abort_park].
    unfold bind at 1. unfold bind at 1. unfold compare_exchange_weak at 1. rewrite Hweak.
    unfold compare_exchange_strong at 1. rewrite Hs. cbn [RpcRetrierState_eqb negb].
    cbn iota beta.
    unfold bind at 1. unfold bind at 1. unfold sleep_for at 1. run. cbn iota beta.
    unfold compare_exchange_weak at 1. cbn [weak_failures with_now with_event].
    rewrite Hweak. unfold compare_exchange_strong at 1.
    cbn [retrier with_now with_event]. rewrite Hs. cbn [RpcRetrierState_eqb].
    cbn iota beta.
    cbn [Abort_drain]. run. cbn beta iota.
    cbn [retrier with_retrier with_now with_event task_id_ set_state].
    rewrite Ht. apply Z.eqb_neq in Hid. rewrite Hid.
    unfold AbortOnReactor, sleep_for. run. cbn beta iota.
    unfold reactor_fire. run. cbn beta iota.
    unfold pending at 1. cbn [messenger with_messenger with_now with_event scheduled_tasks].
    rewrite pending_request_abort.
    cbn [messenger with_retrier with_now with_event]. unfold pending in Hp. rewrite Hp.
    rewrite DoRetry_not_waiting by (cbn; discriminate).
    unfold call_Finished. run. cbn beta iota.
    cbn [state_ retrier with_retrier with_messenger with_now with_event set_state].
    match goal with
    | |- context [Finished rpc _ ?w0] => exists w0
    end.
    split.
    - unfold aborted_in.
      match goal with
      | |- context [Finished rpc ?s ?w0] => destruct (Finished rpc s w0) as [[] ?|?|?]
      end; reflexivity.
    - split; [reflexivity|]. split; [reflexivity|].
      split.
      { unfold held.
        cbn [messenger with_event with_retrier with_messenger with_now drop_task
             scheduled_tasks].
        rewrite ids_dropped, held_request_abort. reflexivity. }
      split.
      { cbn. rewrite <- !app_assoc. reflexivity. }
      reflexivity. }
  destruct Hrun as (w2 & Hrun & Hfields). exists w2.
  split; [exact Hrun|]. split; [|exact Hfields].
  intros w3 Hfin Ht3. rewrite Hrun. unfold bind. rewrite Hfin.
  cbn [Abort_drain]. unfold bind, gets. rewrite Ht3. reflexivity.
Qed.

(** ** [Rpc::ScheduleRetry] and a firing that cannot run *)

(** X17. [ScheduleRetry] either schedules the retry or finishes the
    command, never both: when [DelayedRetry] returns [OK] the retrier waits
    for the new task and neither [Finished] nor [SendRpc] is called, nothing
    is logged; when it fails (the retrier is finished or already waiting, or
    the messenger refuses the task) the failure is logged once more with the
    prefix ["Failed to schedule retry: "] and handed to the command's
    [Finished], once. *)
Theorem ScheduleRetry_outcome (fuel : nat) (rpc : RpcCommand) (status : Status)
  (w : World) :
  (2 <= fuel)%nat ->
  let result := retry_status rpc w in
  exists w1,
    DelayedRetry fuel rpc status default_strategy w = Done result w1
    /\ if ok result then
         ScheduleRetry fuel rpc status w = Done tt w1
         /\ state_ (retrier w1) = kWaiting
         /\ task_id_ (retrier w1) <> kInvalidTaskId
         /\ events w1 = events w
       else
         ScheduleRetry fuel rpc status w =
           Finished rpc result
             (with_event (EvFinished result)
                (with_event
                   (EvLogWarning ("Failed to schedule retry: " ++ Status_ToString result))
                   w1))
         /\ events w1 = events w ++ [EvLogWarning (Status_ToString result)]
         /\ scheduled_tasks (messenger w1) = scheduled_tasks (messenger w)
         /\ (state_ (retrier w1) = kFinished \/ state_ (retrier w1) = kWaiting).
Proof.
  intros Hfuel result.
  destruct (DelayedRetry_cases fuel rpc status default_strategy w Hfuel)
    as (st & w1 & Hrun & _ & _ & _ & _ & _ & _ & Hcase).
  assert (Hst : st = result
                /\ if ok result then
                     state_ (retrier w1) = kWaiting
                     /\ task_id_ (retrier w1) <> kInvalidTaskId
                     /\ events w1 = events w
                   else
                     events w1 = events w ++ [EvLogWarning (Status_ToString result)]
                     /\ scheduled_tasks (messenger w1) = scheduled_tasks (messenger w)
                     /\ (state_ (retrier w1) = kFinished
                         \/ state_ (retrier w1) = kWaiting)).
  { unfold result, retry_status, rejection. clear result.
    destruct (state_ (retrier w)); try destruct (accepting (messenger w));
      destruct Hcase as (Hst & Hs & Ht & Hm & He); rewrite Hst in *;
      cbn [ok status_code]; (split; [reflexivity|]).
    all: first
      [ split; [exact Hs|split; [rewrite Ht; discriminate|exact He]]
      | split; [exact He|split; [rewrite Hm; reflexivity|]];
        first [left; exact Hs|right; exact Hs] ]. }
  destruct Hst as [Hst Hfields]. rewrite Hst in Hrun. clear Hst Hcase.
  exists w1. split; [exact Hrun|].
  assert (Heq : ScheduleRetry fuel rpc status w =
                if ok result then Done tt w1
                else Finished rpc result
                       (with_event (EvFinished result)
                          (with_event
                             (EvLogWarning
                                ("Failed to schedule retry: " ++ Status_ToString result))
                             w1))).
  { unfold ScheduleRetry. unfold bind at 1. rewrite Hrun.
    destruct (ok result); reflexivity. }
  rewrite Heq. clear Heq.
  destruct (ok result).
  - destruct Hfields as (Hs & Ht & He).
    split; [reflexivity|]. split; [exact Hs|]. split; [exact Ht|exact He].
  - destruct Hfields as (He & Hm & Hs).
    split; [reflexivity|]. split; [exact He|]. split; [exact Hm|exact Hs].
Qed.

(** X18. A firing that finds the retrier neither waiting nor scheduling
    (idle, running an attempt, or finished) cannot run: whatever the status
    it was fired with and whatever the deadline, [DoRetry] clears [task_id_]
    and calls the command's [Finished] once with
    [Aborted("<rpc> aborted: <state>")]; it sends nothing and does not touch
    the state. *)
Theorem DoRetry_aborts_when_not_waiting (fuel : nat) (rpc : RpcCommand)
  (status : Status) (w : World) :
  state_ (retrier w) <> kWaiting ->
  state_ (retrier w) <> kScheduling ->
  exists w1,
    DoRetry fuel rpc status w = Finished rpc (aborted_in rpc (state_ (retrier w))) w1
    /\ state_ (retrier w1) = state_ (retrier w)
    /\ task_id_ (retrier w1) = kInvalidTaskId
    /\ messenger w1 = messenger w
    /\ now w1 = now w
    /\ events w1 = events w ++ [EvFinished (aborted_in rpc (state_ (retrier w)))].
Proof.
  intros Hw Hs.
  exists (with_event (EvFinished (aborted_in rpc (state_ (retrier w))))
            (with_retrier (set_task_id kInvalidTaskId) w)).
  split; [|repeat split].
  rewrite DoRetry_not_waiting by assumption. reflexivity.
Qed.

(** X19. [Abort] of a retrier that is idle or finished and has no task
    outstanding returns at once (no spurious failure of the weak exchange):
    the state is [kFinished], and [Abort] has not slept, has not called the
    messenger or the command, and has left the clock and the messenger as
    they were, whatever the other threads were about to do. *)
Theorem Abort_of_idle (naps : list (M World unit)) (w : World) :
  state_ (retrier w) = kIdle \/ state_ (retrier w) = kFinished ->
  task_id_ (retrier w) = kInvalidTaskId ->
  weak_failures w = [] ->
  exists w',
    Abort naps w = Done tt w'
    /\ state_ (retrier w') = kFinished
    /\ task_id_ (retrier w') = kInvalidTaskId
    /\ events w' = events w
    /\ messenger w' = messenger w
    /\ now w' = now w.
Proof.
  intros Hstate Ht Hweak.
  assert (Hpark : exists w1,
            Abort_park naps kIdle w = Done naps w1
            /\ state_ (retrier w1) = kFinished
            /\ task_id_ (retrier w1) = kInvalidTaskId
            /\ events w1 = events w /\ messenger w1 = messenger w /\ now w1 = now w).
  { destruct Hstate as [Hs | Hs].
    - exists (with_retrier (set_state kFinished) w).
      split; [|repeat split; exact Ht].
      destruct naps; cbn [Abort_park]; unfold bind at 1;
        unfold compare_exchange_weak, compare_exchange_strong;
        rewrite Hweak, Hs; reflexivity.
    - exists w. split; [|repeat split; assumption].
      destruct naps; cbn [Abort_park]; unfold bind at 1;
        unfold compare_exchange_weak, compare_exchange_strong;
        rewrite Hweak, Hs; reflexivity. }
  destruct Hpark as (w1 & Hpark & Hs1 & Ht1 & Hfields). exists w1.
  split; [|split; [exact Hs1|split; [exact Ht1|exact Hfields]]].
  unfold Abort. unfold bind at 1. rewrite Hpark.
  destruct naps; cbn [Abort_drain]; unfold bind at 1; cbn [gets]; rewrite Ht1;
    reflexivity.
Qed.

End MoreRetrierProperties.

(* ===================================================================== *)
(** * Properties of the registry *)
(* ===================================================================== *)

Section RegistryProperties.
Import Registry.

Lemma after_calls_nil (w : World) : after_calls [] w = w.
Proof. destruct w. unfold after_calls. cbn. now rewrite app_nil_r. Qed.

Lemma after_calls_app (a b : list Call) (w : World) :
  after_calls b (after_calls a w) = after_calls (a ++ b) w.
Proof. unfold after_calls. cbn. now rewrite app_assoc. Qed.

Lemma prev_end_push (calls : list Node) (addr : nat) (call : RpcCommandPtr) :
  prev_end (calls ++ [(addr, call)]) = Some addr.
Proof. unfold prev_end. rewrite rev_app_distr. reflexivity. Qed.

Lemma deref_push (r : Rpcs) (call : RpcCommandPtr) :
  fresh r ->
  deref (next_node r) (calls_ (push_back call r)) = Some call.
Proof.
  intros Hfresh. unfold deref, push_back. cbn [calls_].
  assert (H : forall l, (forall a c, In (a, c) l -> (a < next_node r)%nat) ->
              find (fun n => Nat.eqb (fst n) (next_node r)) (l ++ [(next_node r, call)])
              = Some (next_node r, call)).
  { induction l as [|[a c] l IH]; intros Hl; cbn.
    - now rewrite Nat.eqb_refl.
    - destruct (Nat.eqb_spec a (next_node r)) as [->|_].
      + specialize (Hl (next_node r) c (or_introl eq_refl)). lia.
      + apply IH. intros a' c' Hin. apply (Hl a' c'). now right. }
  rewrite H; [reflexivity|exact Hfresh].
Qed.

Lemma fresh_push_back (r : Rpcs) (call : RpcCommandPtr) :
  fresh r -> fresh (push_back call r).
Proof.
  intros Hfresh addr c Hin. unfold push_back in *. cbn in *.
  apply in_app_or in Hin. destruct Hin as [Hin | [Heq | []]].
  - specialize (Hfresh addr c Hin). lia.
  - injection Heq as <- _. lia.
Qed.

Lemma fresh_erase (r : Rpcs) (addr : nat) : fresh r -> fresh (erase addr r).
Proof.
  intros Hfresh a c Hin. unfold erase in *. cbn in *.
  apply filter_In in Hin. destruct Hin as [Hin _]. exact (Hfresh a c Hin).
Qed.

(** C8. After the shutdown flag is set, [Register(c)] calls [c->Abort()]
    once, returns [InvalidHandle()] and appends nothing to [calls_]; before
    shutdown it appends [c], calls nothing, and returns the handle of the
    appended node. *)
Theorem Register_outcome (c : Command) (w : World) :
  fresh (rpcs w) ->
  exists handle w',
    Register (Some c) w = Done handle w'
    /\ fresh (rpcs w')
    /\ if shutdown_ (rpcs w) then
         handle = InvalidHandle
         /\ rpcs w' = rpcs w
         /\ calls_made w' = calls_made w ++ [CallAbort c]
       else
         calls_ (rpcs w') = calls_ (rpcs w) ++ [(next_node (rpcs w), Some c)]
         /\ shutdown_ (rpcs w') = false
         /\ calls_made w' = calls_made w
         /\ handle = Some (next_node (rpcs w))
         /\ handle = prev_end (calls_ (rpcs w'))
         /\ deref (next_node (rpcs w)) (calls_ (rpcs w')) = Some (Some c).
Proof.
  intros Hfresh. unfold Register. run_registry.
  destruct (shutdown_ (rpcs w)) eqn:Hsd.
  - do 2 eexists. split; [reflexivity|]. cbn. auto.
  - do 2 eexists. split; [reflexivity|]. cbn [rpcs with_rpcs calls_made].
    split; [now apply fresh_push_back|].
    split; [reflexivity|].
    split; [exact Hsd|].
    split; [reflexivity|].
    split; [apply prev_end_push|].
    split; [reflexivity|].
    now apply deref_push.
Qed.

(** X3. [Unregister] of the invalid handle returns the null pointer and changes
    nothing; [Unregister] of the handle of a node of [calls_] erases that
    node and no other, notifies the condition variable once, and returns
    the command of the node together with the invalid handle. *)
Theorem Unregister_outcome (w : World) :
  Unregister InvalidHandle w = Done (None, InvalidHandle) w
  /\ forall addr call,
       deref addr (calls_ (rpcs w)) = Some call ->
       exists w',
         Unregister (Some addr) w = Done (call, InvalidHandle) w'
         /\ calls_ (rpcs w') =
              filter (fun n => negb (Nat.eqb (fst n) addr)) (calls_ (rpcs w))
         /\ deref addr (calls_ (rpcs w')) = None
         /\ shutdown_ (rpcs w') = shutdown_ (rpcs w)
         /\ calls_made w' = calls_made w ++ [NotifyOne].
Proof.
  split; [reflexivity|].
  intros addr call Hderef. unfold Unregister. run_registry. rewrite Hderef.
  eexists. split; [reflexivity|]. cbn.
  split; [reflexivity|]. split; [|split; reflexivity].
  unfold deref.
  destruct (find _ (filter _ _)) as [[a c]|] eqn:Hfind; [|reflexivity].
  apply find_some in Hfind. destruct Hfind as [Hin Heq].
  apply filter_In in Hin. destruct Hin as [_ Hneq]. cbn in *.
  rewrite Heq in Hneq. discriminate Hneq.
Qed.

(** ** Abort-all *)

Lemma emit_after_calls (c : Call) (w : World) : emit c w = Done tt (after_calls [c] w).
Proof. reflexivity. Qed.

(** The running maximum of the loop is the latest of the instants. *)
Lemma running_max_latest (instants : list MonoTime) (base : MonoTime) :
  fold_left Z.max instants base = latest base instants.
Proof.
  unfold latest. apply fold_symmetric.
  - intros x y z. apply Z.max_assoc.
  - intros y. apply Z.max_comm.
Qed.

Lemma latest_bounds (base : MonoTime) (instants : list MonoTime) :
  base <= latest base instants
  /\ (forall t, In t instants -> t <= latest base instants)
  /\ (latest base instants = base \/ In (latest base instants) instants).
Proof.
  unfold latest. induction instants as [|t instants (IHb & IHu & IHa)]; cbn.
  - repeat split; [lia | intros t [] | left; reflexivity].
  - split; [lia|]. split.
    + intros u [<- | Hin]; [lia|]. specialize (IHu u Hin). lia.
    + destruct (Z.max_spec t (fold_right Z.max base instants)) as [[_ ->] | [_ ->]].
      * destruct IHa as [-> | Hin]; [left; reflexivity | right; right; exact Hin].
      * right. left. reflexivity.
Qed.

(** The loop over a snapshot without null pointers aborts each command in
    order and returns the latest instant. *)
Lemma abort_calls_present (calls : list RpcCommandPtr) (extra : MonoDelta)
  (deadline : MonoTime) (w : World) :
  forallb present calls = true ->
  abort_calls calls extra deadline w =
    Done (latest deadline (map (fun c => command_deadline c + extra) (commands calls)))
         (after_calls (map CallAbort (commands calls)) w).
Proof.
  rewrite <- running_max_latest.
  revert deadline w. induction calls as [|[c|] calls IH]; intros deadline w Hall.
  - cbn. now rewrite after_calls_nil.
  - cbn in Hall. cbn [abort_calls commands map fold_left present].
    unfold CHECK. unfold bind at 1. unfold ret at 1.
    unfold bind at 1. rewrite emit_after_calls.
    rewrite IH by exact Hall. rewrite after_calls_app. reflexivity.
  - discriminate Hall.
Qed.

(** The loop stops at the first null pointer with a failed [CHECK], after
    aborting the commands before it. *)
Lemma abort_calls_null (before after : list RpcCommandPtr) (extra : MonoDelta)
  (deadline : MonoTime) (w : World) :
  forallb present before = true ->
  abort_calls (before ++ None :: after) extra deadline w =
    Fatal (after_calls (map CallAbort (commands before)) w).
Proof.
  revert deadline w. induction before as [|[c|] before IH]; intros deadline w Hall.
  - cbn. now rewrite after_calls_nil.
  - cbn in Hall. cbn [app abort_calls commands map present].
    unfold CHECK. unfold bind at 1. unfold ret at 1.
    unfold bind at 1. rewrite emit_after_calls.
    rewrite IH by exact Hall. rewrite after_calls_app. reflexivity.
  - discriminate Hall.
Qed.

Lemma first_null (calls : list RpcCommandPtr) :
  forallb present calls = false ->
  exists before after,
    calls = before ++ None :: after /\ forallb present before = true.
Proof.
  induction calls as [|[c|] calls IH]; intros H.
  - discriminate H.
  - cbn in H. destruct (IH H) as (before & after & -> & Hb).
    exists (Some c :: before), after. split; [reflexivity|exact Hb].
  - exists [], calls. split; reflexivity.
Qed.

Lemma In_None_absent (calls : list RpcCommandPtr) :
  In None calls <-> forallb present calls = false.
Proof.
  induction calls as [|[c|] calls IH]; cbn.
  - split; [intros []|discriminate].
  - rewrite <- IH. split; [intros [H|H]; [discriminate H|exact H] | auto].
  - split; auto.
Qed.

Lemma DoRequestAbortAll_unfold (shutdown : bool) (w : World) :
  DoRequestAbortAll shutdown w =
    abort_calls (snapshot w)
      (FromMilliseconds (FLAGS_rpcs_shutdown_extra_delay_ms (flags w)))
      (now w + FromMilliseconds (FLAGS_rpcs_shutdown_timeout_ms (flags w)))
      (flagged shutdown w).
Proof.
  unfold DoRequestAbortAll, snapshot, flagged. run_registry.
  destruct (shutdown_ (rpcs w)); reflexivity.
Qed.

Lemma commands_present (calls : list RpcCommandPtr) :
  forallb present calls = true -> map Some (commands calls) = calls.
Proof.
  induction calls as [|[c|] calls IH]; cbn; intros H;
    [reflexivity | now rewrite IH | discriminate H].
Qed.

Lemma DoRequestAbortAll_present (shutdown : bool) (w : World) :
  forallb present (snapshot w) = true ->
  DoRequestAbortAll shutdown w =
    Done (drain_deadline w)
         (after_calls (map CallAbort (commands (snapshot w))) (flagged shutdown w)).
Proof.
  intros Hall. rewrite DoRequestAbortAll_unfold.
  rewrite abort_calls_present by exact Hall. reflexivity.
Qed.

(** ** Shutdown *)

Lemma empty_nil (r : Rpcs) : empty r = true <-> calls_ r = [].
Proof. unfold empty. destruct (calls_ r); split; congruence. Qed.

Lemma Shutdown_wait_nil (deadline : MonoTime) (w : World) :
  Shutdown_wait deadline [] w =
    if empty (rpcs w) then Done tt w
    else Blocked (after_calls [LogWaitingCalls (List.length (calls_ (rpcs w)))] w).
Proof. cbn [Shutdown_wait]. run_registry. destruct (empty (rpcs w)); reflexivity. Qed.

Lemma Shutdown_wait_cons (deadline : MonoTime) (wk : Wakeup) (wakeups : list Wakeup)
  (w : World) :
  Shutdown_wait deadline (wk :: wakeups) w =
    if empty (rpcs w) then Done tt w
    else
      match wait_result wk with
      | timeout => Done tt (woken deadline wk w)
      | no_timeout => Shutdown_wait deadline wakeups (woken deadline wk w)
      end.
Proof.
  cbn [Shutdown_wait]. unfold bind at 1. cbn [gets]. cbn beta.
  destruct (empty (rpcs w)); [reflexivity|].
  unfold bind at 1. cbn [gets]. unfold bind at 1. rewrite emit_after_calls.
  unfold bind at 1. unfold wait_until.
  unfold bind at 1. rewrite emit_after_calls. rewrite after_calls_app.
  unfold bind at 1. cbn [modify]. cbn [ret app].
  destruct (wait_result wk); reflexivity.
Qed.

Lemma shutdown_erase_all (addrs : list nat) (r : Rpcs) :
  shutdown_ (fold_left (fun r addr => erase addr r) addrs r) = shutdown_ r.
Proof.
  revert r. induction addrs as [|a l IH]; intros r; cbn; [reflexivity|].
  now rewrite IH.
Qed.

Lemma woken_calls_made (deadline : MonoTime) (wk : Wakeup) (w : World) :
  calls_made (woken deadline wk w) =
    calls_made w
    ++ [LogWaitingCalls (List.length (calls_ (rpcs w))); WaitUntil deadline].
Proof. reflexivity. Qed.

Lemma Forall_waits_on_woken (deadline : MonoTime) (size : nat) :
  Forall (waits_on deadline) [LogWaitingCalls size; WaitUntil deadline].
Proof.
  apply Forall_cons; [right; eauto|].
  apply Forall_cons; [left; reflexivity | apply Forall_nil].
Qed.

Lemma Shutdown_wait_outcome (deadline : MonoTime) (wakeups : list Wakeup) (w : World) :
  (exists made,
      calls_made (final (Shutdown_wait deadline wakeups w)) = calls_made w ++ made
      /\ Forall (waits_on deadline) made)
  /\ shutdown_ (rpcs (final (Shutdown_wait deadline wakeups w))) = shutdown_ (rpcs w)
  /\ match Shutdown_wait deadline wakeups w with
     | Done _ w' => empty (rpcs w') = true \/ existsb timed_out wakeups = true
     | Blocked w' => empty (rpcs w') = false /\ existsb timed_out wakeups = false
     | Fatal _ => False
     end.
Proof.
  revert w. induction wakeups as [|wk wakeups IH]; intros w.
  - rewrite Shutdown_wait_nil.
    destruct (empty (rpcs w)) eqn:He; cbn.
    + split; [exists []; rewrite app_nil_r; auto|]. auto.
    + split; [|auto].
      eexists. split; [reflexivity|].
      apply Forall_cons; [right; eauto | apply Forall_nil].
  - rewrite Shutdown_wait_cons.
    destruct (empty (rpcs w)) eqn:He.
    + cbn. split; [exists []; rewrite app_nil_r; auto|]. auto.
    + unfold timed_out at 1 2. cbn [existsb].
      destruct (wait_result wk) eqn:Hres.
      * destruct (IH (woken deadline wk w)) as ((made & Hmade & Hwaits) & Hsd & Hout).
        split; [|split].
        -- rewrite woken_calls_made, <- app_assoc in Hmade.
           eexists. split; [exact Hmade|].
           apply Forall_app. split; [apply Forall_waits_on_woken|exact Hwaits].
        -- rewrite Hsd. apply shutdown_erase_all.
        -- cbn [orb]. exact Hout.
      * cbn [final orb].
        split; [|split].
        -- eexists. split; [apply woken_calls_made|]. apply Forall_waits_on_woken.
        -- apply shutdown_erase_all.
        -- right. reflexivity.
Qed.

Lemma Shutdown_unfold (meanwhile : list nat) (wakeups : list Wakeup) (w w1 : World)
  (deadline : MonoTime) :
  DoRequestAbortAll true w = Done deadline w1 ->
  Shutdown meanwhile wakeups w =
    match Shutdown_wait deadline wakeups (drained meanwhile w1) with
    | Done _ w' => if empty (rpcs w') then Done tt w' else Fatal w'
    | Fatal w' => Fatal w'
    | Blocked w' => Blocked w'
    end.
Proof.
  intros Habort. unfold Shutdown. unfold bind at 1. rewrite Habort.
  unfold bind at 1. cbn [modify]. fold (drained meanwhile w1).
  unfold bind at 1.
  destruct (Shutdown_wait deadline wakeups (drained meanwhile w1)) as [[] w'| |];
    try reflexivity.
  run_registry. destruct (empty (rpcs w')); reflexivity.
Qed.

(** C7 (amended). [Shutdown] sets the shutdown flag; if the flag was not
    set before, it aborts every registered command, once each and in the
    order of [calls_] (all the registered pointers being non-null); the
    drain deadline it computes is the latest of
    [now + rpcs_shutdown_timeout_ms] and, over the aborted commands, of
    [deadline + rpcs_shutdown_extra_delay_ms]; it then waits on the
    condition variable, each time until that deadline, as long as [calls_]
    is not empty and no wait has timed out; it returns if [calls_] is empty
    after the wait, and fails the [CHECK] otherwise. *)
Theorem Shutdown_outcome (meanwhile : list nat) (wakeups : list Wakeup) (w : World) :
  forallb present (snapshot w) = true ->
  let timeout_ms := FromMilliseconds (FLAGS_rpcs_shutdown_timeout_ms (flags w)) in
  let extra := FromMilliseconds (FLAGS_rpcs_shutdown_extra_delay_ms (flags w)) in
  let aborted := commands (snapshot w) in
  exists w1,
    DoRequestAbortAll true w = Done (drain_deadline w) w1
    /\ shutdown_ (rpcs w1) = true
    /\ calls_ (rpcs w1) = calls_ (rpcs w)
    /\ calls_made w1 = calls_made w ++ map CallAbort aborted
    /\ (shutdown_ (rpcs w) = false -> map Some aborted = map snd (calls_ (rpcs w)))
    /\ now w + timeout_ms <= drain_deadline w
    /\ (forall c, In c aborted -> command_deadline c + extra <= drain_deadline w)
    /\ (drain_deadline w = now w + timeout_ms
        \/ exists c, In c aborted /\ drain_deadline w = command_deadline c + extra)
    /\ (exists made,
          calls_made (final (Shutdown meanwhile wakeups w)) = calls_made w1 ++ made
          /\ Forall (waits_on (drain_deadline w)) made)
    /\ match Shutdown meanwhile wakeups w with
       | Done _ w' => calls_ (rpcs w') = []
       | Fatal w' => calls_ (rpcs w') <> [] /\ existsb timed_out wakeups = true
       | Blocked w' => calls_ (rpcs w') <> [] /\ existsb timed_out wakeups = false
       end.
Proof.
  intros Hall timeout_ms extra aborted.
  pose proof (DoRequestAbortAll_present true w Hall) as Habort.
  eexists. split; [exact Habort|].
  split; [unfold flagged; destruct (shutdown_ (rpcs w)) eqn:E; [exact E|reflexivity]|].
  split; [unfold flagged; destruct (shutdown_ (rpcs w)); reflexivity|].
  split; [unfold flagged; destruct (shutdown_ (rpcs w)); reflexivity|].
  split.
  { intros Hsd. subst aborted. unfold snapshot in *. rewrite Hsd in *.
    now apply commands_present. }
  destruct (latest_bounds (now w + timeout_ms)
              (map (fun c => command_deadline c + extra) aborted))
    as (Hbase & Hupper & Hattained).
  fold (drain_deadline w) in Hbase, Hupper, Hattained.
  split; [exact Hbase|].
  split.
  { intros c Hin. apply Hupper. apply in_map_iff. eauto. }
  split.
  { destruct Hattained as [H | H]; [left; exact H|right].
    apply in_map_iff in H. destruct H as (c & Heq & Hin). eauto. }
  rewrite (Shutdown_unfold meanwhile wakeups w _ _ Habort).
  match goal with |- context [Shutdown_wait ?d wakeups ?w2] =>
    destruct (Shutdown_wait_outcome d wakeups w2) as ((made & Hmade & Hwaits) & _ & Hout);
    destruct (Shutdown_wait d wakeups w2) as [[] w'| |] eqn:Hwait
  end; cbn [final] in Hmade.
  - assert (Hfinal : final (if empty (rpcs w') then Done tt w' else Fatal w') = w')
      by (destruct (empty (rpcs w')); reflexivity).
    split.
    { rewrite Hfinal. exists made. split; [exact Hmade|exact Hwaits]. }
    destruct (empty (rpcs w')) eqn:He.
    + now apply empty_nil.
    + split.
      * intros Hnil. apply empty_nil in Hnil. congruence.
      * destruct Hout as [Hout | Hout]; [congruence|exact Hout].
  - contradiction.
  - split.
    { exists made. split; [exact Hmade|exact Hwaits]. }
    destruct Hout as [He Hto]. split; [|exact Hto].
    intros Hnil. apply empty_nil in Hnil. congruence.
Qed.

(** C10. [Prepare] appends a null placeholder to [calls_].  When
    [DoRequestAbortAll] takes its snapshot (the shutdown flag not being set
    yet) and a placeholder has not been overwritten, the [CHECK(call)] of
    its loop fails once the commands in front of the placeholder have been
    aborted, both in [RequestAbortAll] and in [Shutdown]; with every pointer
    non-null no [CHECK] of that loop fails. *)
Theorem unfilled_placeholder_is_fatal (shutdown : bool) (w : World) :
  shutdown_ (rpcs w) = false ->
  (exists w1,
      Prepare w = Done (Some (next_node (rpcs w))) w1
      /\ calls_ (rpcs w1) = calls_ (rpcs w) ++ [(next_node (rpcs w), None)]
      /\ shutdown_ (rpcs w1) = false
      /\ (exists w', DoRequestAbortAll shutdown w1 = Fatal w')
      /\ (exists w', RequestAbortAll w1 = Fatal w')
      /\ (forall meanwhile wakeups, exists w', Shutdown meanwhile wakeups w1 = Fatal w'))
  /\ (In None (map snd (calls_ (rpcs w))) ->
      exists before after,
        map snd (calls_ (rpcs w)) = before ++ None :: after
        /\ forallb present before = true
        /\ DoRequestAbortAll shutdown w =
             Fatal (after_calls (map CallAbort (commands before)) (flagged shutdown w)))
  /\ (~ In None (map snd (calls_ (rpcs w))) ->
      exists deadline w', DoRequestAbortAll shutdown w = Done deadline w').
Proof.
  intros Hsd.
  assert (Hnull : forall sd w0,
             shutdown_ (rpcs w0) = false ->
             In None (map snd (calls_ (rpcs w0))) ->
             exists before after,
               map snd (calls_ (rpcs w0)) = before ++ None :: after
               /\ forallb present before = true
               /\ DoRequestAbortAll sd w0 =
                    Fatal (after_calls (map CallAbort (commands before)) (flagged sd w0))).
  { intros sd w0 Hsd0 Hin. apply In_None_absent in Hin.
    destruct (first_null _ Hin) as (before & after & Heq & Hb).
    exists before, after. split; [exact Heq|]. split; [exact Hb|].
    rewrite DoRequestAbortAll_unfold. unfold snapshot. rewrite Hsd0, Heq.
    now apply abort_calls_null. }
  split; [|split].
  - assert (Hprep : Prepare w =
                    Done (Some (next_node (rpcs w))) (with_rpcs (push_back None) w)).
    { unfold Prepare. run_registry. rewrite Hsd. cbn [rpcs with_rpcs push_back calls_].
      now rewrite prev_end_push. }
    eexists. split; [exact Hprep|].
    split; [reflexivity|].
    split; [exact Hsd|].
    assert (Hin : In None (map snd (calls_ (rpcs (with_rpcs (push_back None) w))))).
    { cbn. rewrite map_app. apply in_or_app. right. left. reflexivity. }
    assert (Hsd1 : shutdown_ (rpcs (with_rpcs (push_back None) w)) = false) by exact Hsd.
    split; [|split].
    + destruct (Hnull shutdown _ Hsd1 Hin) as (? & ? & _ & _ & H). eauto.
    + destruct (Hnull false _ Hsd1 Hin) as (? & ? & _ & _ & H).
      unfold RequestAbortAll, bind. rewrite H. eauto.
    + intros meanwhile wakeups.
      destruct (Hnull true _ Hsd1 Hin) as (? & ? & _ & _ & H).
      unfold Shutdown. unfold bind at 1. rewrite H. eauto.
  - apply Hnull. exact Hsd.
  - intros Hnone.
    assert (Hall : forallb present (snapshot w) = true).
    { unfold snapshot. rewrite Hsd.
      destruct (forallb present (map snd (calls_ (rpcs w)))) eqn:E; [reflexivity|].
      apply In_None_absent in E. contradiction. }
    rewrite (DoRequestAbortAll_present shutdown w Hall). eauto.
Qed.

End RegistryProperties.

(* ===================================================================== *)
(** * Further properties of the registry *)
(* ===================================================================== *)

Section MoreRegistryProperties.
Import Registry.

Lemma registry_bind_Done {A B : Type} (m : M World A) (k : A -> M World B)
  (w w' : World) (b : B) :
  bind m k w = Done b w' ->
  exists a w1, m w = Done a w1 /\ k a w1 = Done b w'.
Proof.
  unfold bind. destruct (m w) as [a w1| |]; intros H; try discriminate. eauto.
Qed.

Lemma erase_fresh (r : Rpcs) (call : RpcCommandPtr) :
  fresh r -> erase (next_node r) (push_back call r)
             = {| calls_ := calls_ r; shutdown_ := shutdown_ r;
                  next_node := S (next_node r) |}.
Proof.
  intros Hfresh. unfold erase, push_back. cbn [calls_ shutdown_ next_node]. f_equal.
  rewrite filter_app. cbn [filter fst]. rewrite Nat.eqb_refl. cbn [negb].
  rewrite app_nil_r.
  apply forallb_filter_id. apply forallb_forall. intros [addr c] Hin.
  cbn [fst]. specialize (Hfresh addr c Hin).
  destruct (Nat.eqb_spec addr (next_node r)); [lia|reflexivity].
Qed.

Lemma prev_end_push_back (r : Rpcs) (call : RpcCommandPtr) :
  prev_end (calls_ (push_back call r)) = Some (next_node r).
Proof. unfold push_back. cbn [calls_]. apply prev_end_push. Qed.

(** X10. [RegisterAndStart] on an invalid handle: before shutdown it
    appends the command, sets the handle to the new node and calls the
    command's [SendRpc] once; after shutdown it calls the command's [Abort]
    once, starts nothing and leaves the handle invalid and [calls_] as it
    is.  On a handle that is already valid the [CHECK] fails before anything
    is done.  A null command on an open registry is registered and then
    dereferenced. *)
Theorem RegisterAndStart_outcome (c : Command) (w : World) :
  fresh (rpcs w) ->
  (if shutdown_ (rpcs w) then
     RegisterAndStart (Some c) InvalidHandle w
       = Done InvalidHandle (after_calls [CallAbort c] w)
   else
     RegisterAndStart (Some c) InvalidHandle w
       = Done (Some (next_node (rpcs w)))
              (after_calls [CallSendRpc c] (with_rpcs (push_back (Some c)) w))
     /\ RegisterAndStart None InvalidHandle w = Fatal (with_rpcs (push_back None) w))
  /\ forall call addr, RegisterAndStart call (Some addr) w = Fatal w.
Proof.
  intros Hfresh. split; [|reflexivity].
  assert (Hopen : forall call, shutdown_ (rpcs w) = false ->
            RegisterAndStart call InvalidHandle w =
              match call with
              | Some c' =>
                  Done (Some (next_node (rpcs w)))
                       (after_calls [CallSendRpc c'] (with_rpcs (push_back call) w))
              | None => Fatal (with_rpcs (push_back call) w)
              end).
  { intros call Hsd.
    unfold RegisterAndStart, Register_into, Register, InvalidHandle. run_registry.
    cbn beta iota. rewrite Hsd. cbn beta iota. cbn [rpcs with_rpcs].
    rewrite !prev_end_push_back. cbn beta iota. cbn [rpcs with_rpcs].
    rewrite (deref_push (rpcs w) call Hfresh). destruct call; reflexivity. }
  destruct (shutdown_ (rpcs w)) eqn:Hsd.
  - unfold RegisterAndStart, Register_into, Register, InvalidHandle. run_registry.
    cbn beta iota. rewrite Hsd. reflexivity.
  - split; [exact (Hopen (Some c) eq_refl)|exact (Hopen None eq_refl)].
Qed.

(** X11. Register then Unregister is a round trip: on an open registry,
    [Unregister] of the handle [Register] returned gives back the command
    that was registered, invalidates the handle, notifies the condition
    variable once and leaves [calls_] as it was before the [Register]; the
    same holds for the placeholder of [Prepare], which gives back the null
    command. *)
Theorem Register_Unregister_round_trip (call : RpcCommandPtr) (w : World) :
  fresh (rpcs w) ->
  shutdown_ (rpcs w) = false ->
  exists handle w1 w2,
    Register call w = Done handle w1
    /\ Unregister handle w1 = Done (call, InvalidHandle) w2
    /\ handle <> InvalidHandle
    /\ calls_ (rpcs w2) = calls_ (rpcs w)
    /\ shutdown_ (rpcs w2) = false
    /\ calls_made w2 = calls_made w ++ [NotifyOne]
    /\ (call = None -> Prepare w = Done handle w1).
Proof.
  intros Hfresh Hsd.
  exists (Some (next_node (rpcs w))), (with_rpcs (push_back call) w),
    (after_calls [NotifyOne] (with_rpcs (erase (next_node (rpcs w)))
                                (with_rpcs (push_back call) w))).
  assert (Hreg : Register call w
                 = Done (Some (next_node (rpcs w))) (with_rpcs (push_back call) w)).
  { unfold Register. run_registry. rewrite Hsd. cbn beta iota. cbn [rpcs with_rpcs].
    unfold push_back at 1. cbn [calls_]. rewrite prev_end_push. reflexivity. }
  split; [exact Hreg|].
  split.
  { unfold Unregister. run_registry. cbn [rpcs with_rpcs].
    rewrite (deref_push (rpcs w) call Hfresh). reflexivity. }
  split; [discriminate|].
  cbn [rpcs with_rpcs after_calls calls_made]. rewrite (erase_fresh _ _ Hfresh).
  cbn [calls_ shutdown_].
  split; [reflexivity|]. split; [exact Hsd|]. split; [reflexivity|].
  intros ->. unfold Prepare. run_registry. rewrite Hsd. cbn beta iota.
  cbn [rpcs with_rpcs]. rewrite prev_end_push_back. reflexivity.
Qed.

(** X12. [RequestAbortAll] aborts every registered command, once each and
    in the order of [calls_], and leaves the registry as it is: [calls_] is
    untouched and the shutdown flag is not set, so that commands can still
    be registered afterwards.  On a registry that is shut down it aborts
    nothing. *)
Theorem RequestAbortAll_outcome (w : World) :
  forallb present (snapshot w) = true ->
  exists w',
    RequestAbortAll w = Done tt w'
    /\ rpcs w' = rpcs w
    /\ flags w' = flags w
    /\ now w' = now w
    /\ calls_made w' = calls_made w ++ map CallAbort (commands (snapshot w))
    /\ (shutdown_ (rpcs w) = false ->
        map Some (commands (snapshot w)) = map snd (calls_ (rpcs w)))
    /\ (shutdown_ (rpcs w) = true -> commands (snapshot w) = []).
Proof.
  intros Hall.
  exists (after_calls (map CallAbort (commands (snapshot w))) w).
  split.
  { unfold RequestAbortAll. unfold bind.
    rewrite (DoRequestAbortAll_present false w Hall).
    unfold flagged. destruct w as [[calls sd next] fl t made].
    cbn [rpcs shutdown_]. destruct sd; reflexivity. }
  split; [reflexivity|]. split; [reflexivity|]. split; [reflexivity|].
  split; [reflexivity|].
  split.
  - intros Hsd. rewrite commands_present by exact Hall.
    unfold snapshot. rewrite Hsd. reflexivity.
  - intros Hsd. unfold snapshot. rewrite Hsd. reflexivity.
Qed.

(** ** A registry that is shut down *)

Lemma calls_erase_all (addrs : list nat) (r : Rpcs) :
  incl (calls_ (fold_left (fun r addr => erase addr r) addrs r)) (calls_ r).
Proof.
  revert r. induction addrs as [|addr addrs IH]; intros r; cbn [fold_left].
  - apply incl_refl.
  - eapply incl_tran; [apply IH|]. unfold erase. cbn [calls_]. apply incl_filter.
Qed.

Lemma erase_all_nil (addrs : list nat) (r : Rpcs) :
  calls_ r = [] -> fold_left (fun r addr => erase addr r) addrs r = r.
Proof.
  intros Hnil. induction addrs as [|addr addrs IH]; cbn [fold_left]; [reflexivity|].
  assert (Herase : erase addr r = r).
  { destruct r as [calls sd next]. cbn in Hnil. subst calls. reflexivity. }
  rewrite Herase. exact IH.
Qed.

Lemma abort_calls_rpcs (calls : list RpcCommandPtr) (extra : MonoDelta)
  (deadline : MonoTime) (w : World) :
  rpcs (final (abort_calls calls extra deadline w)) = rpcs w.
Proof.
  revert deadline w. induction calls as [|[c|] calls IH]; intros deadline w;
    cbn [abort_calls]; run_registry; cbn beta iota; [reflexivity| |reflexivity].
  rewrite IH. reflexivity.
Qed.

Lemma DoRequestAbortAll_shutdown (w w1 : World) (deadline : MonoTime) :
  DoRequestAbortAll true w = Done deadline w1 ->
  shutdown_ (rpcs w1) = true /\ calls_ (rpcs w1) = calls_ (rpcs w).
Proof.
  rewrite DoRequestAbortAll_unfold. intros H.
  pose proof (abort_calls_rpcs (snapshot w)
                (FromMilliseconds (FLAGS_rpcs_shutdown_extra_delay_ms (flags w)))
                (now w + FromMilliseconds (FLAGS_rpcs_shutdown_timeout_ms (flags w)))
                (flagged true w)) as Hrpcs.
  rewrite H in Hrpcs. cbn [final] in Hrpcs. rewrite Hrpcs.
  unfold flagged. destruct (shutdown_ (rpcs w)) eqn:Hsd; [split; [exact Hsd|reflexivity]|].
  split; reflexivity.
Qed.

Lemma Shutdown_closed (w : World) (meanwhile : list nat) (wakeups : list Wakeup) :
  shutdown_ (rpcs w) = true ->
  exists deadline,
    Shutdown meanwhile wakeups w =
      match Shutdown_wait deadline wakeups (drained meanwhile w) with
      | Done _ w' => if empty (rpcs w') then Done tt w' else Fatal w'
      | Fatal w' => Fatal w'
      | Blocked w' => Blocked w'
      end.
Proof.
  intros Hsd. exists (drain_deadline w). apply Shutdown_unfold.
  rewrite DoRequestAbortAll_present by (unfold snapshot; rewrite Hsd; reflexivity).
  unfold snapshot, flagged. rewrite Hsd. cbn [commands map].
  rewrite after_calls_nil. reflexivity.
Qed.

(** X13. [Shutdown] is idempotent: after a [Shutdown] that returned, the
    flag is set and [calls_] is empty, and a further [Shutdown] returns at
    once, whatever the other threads do: it aborts nothing, does not wait
    and leaves the registry as it is. *)
Theorem Shutdown_twice (meanwhile again : list nat) (wakeups more : list Wakeup)
  (w w1 : World) :
  Shutdown meanwhile wakeups w = Done tt w1 ->
  shutdown_ (rpcs w1) = true
  /\ calls_ (rpcs w1) = []
  /\ Shutdown again more w1 = Done tt w1.
Proof.
  intros H.
  assert (Hpost : shutdown_ (rpcs w1) = true /\ calls_ (rpcs w1) = []).
  { destruct (DoRequestAbortAll true w) as [deadline wa|wa|wa] eqn:Habort;
      try (unfold Shutdown in H; unfold bind at 1 in H; rewrite Habort in H;
           discriminate H).
    rewrite (Shutdown_unfold meanwhile wakeups w wa deadline Habort) in H.
    destruct (DoRequestAbortAll_shutdown w wa deadline Habort) as [Hsd _].
    destruct (Shutdown_wait_outcome deadline wakeups (drained meanwhile wa))
      as (_ & Hflag & _).
    destruct (Shutdown_wait deadline wakeups (drained meanwhile wa)) as [[] w'|w'|w'];
      try discriminate H.
    cbn [final] in Hflag.
    destruct (empty (rpcs w')) eqn:Hempty; [|discriminate H].
    returned H. split.
    - rewrite Hflag. unfold drained. cbn [rpcs with_rpcs].
      rewrite shutdown_erase_all. exact Hsd.
    - apply empty_nil. exact Hempty. }
  destruct Hpost as [Hsd Hnil]. split; [exact Hsd|]. split; [exact Hnil|].
  destruct (Shutdown_closed w1 again more Hsd) as [deadline ->].
  assert (Hdrained : drained again w1 = w1).
  { unfold drained, with_rpcs. rewrite (erase_all_nil again (rpcs w1) Hnil).
    destruct w1; reflexivity. }
  rewrite Hdrained.
  assert (Hempty : empty (rpcs w1) = true) by (apply empty_nil; exact Hnil).
  destruct more as [|wk more].
  - rewrite Shutdown_wait_nil, Hempty, Hempty. reflexivity.
  - rewrite Shutdown_wait_cons, Hempty, Hempty. reflexivity.
Qed.

Lemma closed_after_calls (base w : World) (made : list Call) :
  existsb starts made = false ->
  closed_since base w -> closed_since base (after_calls made w).
Proof.
  intros Hmade (Hsd & Hincl & before & Hcalls & Hbefore).
  split; [exact Hsd|]. split; [exact Hincl|].
  exists (before ++ made). cbn [after_calls calls_made]. rewrite Hcalls, app_assoc.
  split; [reflexivity|]. rewrite existsb_app, Hbefore, Hmade. reflexivity.
Qed.

Lemma closed_erased (base w : World) (addrs : list nat) :
  closed_since base w ->
  closed_since base
    (with_rpcs (fun r => fold_left (fun r addr => erase addr r) addrs r) w).
Proof.
  intros (Hsd & Hincl & Hmade). split; [|split].
  - cbn [rpcs with_rpcs]. rewrite shutdown_erase_all. exact Hsd.
  - cbn [rpcs with_rpcs]. eapply incl_tran; [apply calls_erase_all|exact Hincl].
  - exact Hmade.
Qed.

Lemma closed_Shutdown_wait (base : World) (deadline : MonoTime) (wakeups : list Wakeup)
  (w : World) :
  closed_since base w -> closed_since base (final (Shutdown_wait deadline wakeups w)).
Proof.
  revert w. induction wakeups as [|wk wakeups IH]; intros w Hclosed.
  - rewrite Shutdown_wait_nil. destruct (empty (rpcs w)); cbn [final]; [exact Hclosed|].
    apply closed_after_calls; [reflexivity|exact Hclosed].
  - rewrite Shutdown_wait_cons. destruct (empty (rpcs w)); cbn [final]; [exact Hclosed|].
    assert (Hwoken : closed_since base (woken deadline wk w)).
    { unfold woken. apply closed_erased. apply closed_after_calls;
        [reflexivity|exact Hclosed]. }
    destruct (wait_result wk); cbn [final]; [apply IH|]; exact Hwoken.
Qed.

Lemma closed_serve (base : World) (req : Request) (w w' : World) :
  closed_since base w -> serve req w = Done tt w' -> closed_since base w'.
Proof.
  intros Hclosed H. pose proof Hclosed as (Hsd & _).
  destruct req as [call|call handle|call handle|handle| | |meanwhile wakeups];
    cbn [serve] in H.
  - unfold Register in H. revert H. run_registry. rewrite Hsd.
    destruct call as [c|]; cbn beta iota; intros H; [|discriminate H].
    returned H. apply (closed_after_calls base w [CallAbort c]); [reflexivity|exact Hclosed].
  - unfold Register_into, Register in H. revert H.
    destruct handle as [addr|]; run_registry; [intros H; returned H; exact Hclosed|].
    rewrite Hsd.
    destruct call as [c|]; cbn beta iota; intros H; [|discriminate H].
    returned H. apply (closed_after_calls base w [CallAbort c]); [reflexivity|exact Hclosed].
  - unfold RegisterAndStart, Register_into, Register in H. revert H.
    destruct handle as [addr|]; run_registry; [intros H; discriminate H|].
    cbn beta iota. rewrite Hsd.
    destruct call as [c|]; cbn beta iota; intros H; [|discriminate H].
    returned H. apply (closed_after_calls base w [CallAbort c]); [reflexivity|exact Hclosed].
  - unfold Unregister in H. revert H.
    destruct handle as [addr|]; run_registry; [|intros H; returned H; exact Hclosed].
    destruct (deref addr (calls_ (rpcs w))) as [result|]; cbn beta iota; intros H;
      [|discriminate H].
    returned H.
    change (closed_since base
              (after_calls [NotifyOne]
                 (with_rpcs (fun r => fold_left (fun r addr => erase addr r) [addr] r) w))).
    apply closed_after_calls; [reflexivity|].
    apply closed_erased. exact Hclosed.
  - unfold Prepare in H. revert H. run_registry. rewrite Hsd. intros H. returned H.
    exact Hclosed.
  - unfold RequestAbortAll in H. unfold bind in H.
    rewrite DoRequestAbortAll_present in H
      by (unfold snapshot; rewrite Hsd; reflexivity).
    unfold snapshot, flagged in H. rewrite Hsd in H. cbn [commands map] in H.
    rewrite after_calls_nil in H. returned H. exact Hclosed.
  - destruct (Shutdown_closed w meanwhile wakeups Hsd) as [deadline Heq].
    rewrite Heq in H.
    pose proof (closed_Shutdown_wait base deadline wakeups (drained meanwhile w)
                  (closed_erased base w meanwhile Hclosed)) as Hwait.
    destruct (Shutdown_wait deadline wakeups (drained meanwhile w)) as [[] w2|w2|w2];
      try discriminate H.
    destruct (empty (rpcs w2)); [|discriminate H].
    returned H. exact Hwait.
Qed.

(** X14. Once the shutdown flag is set the registry stays closed: whatever
    requests it serves afterwards ([Register], [RegisterAndStart],
    [Prepare], [Unregister], [RequestAbortAll], [Shutdown]), the flag stays
    set, no node is added to [calls_], and no command is started: a command
    handed to [RegisterAndStart] is aborted, never sent. *)
Theorem closed_registry_stays_closed (reqs : list Request) (w w' : World) :
  shutdown_ (rpcs w) = true ->
  serve_all reqs w = Done tt w' ->
  shutdown_ (rpcs w') = true
  /\ incl (calls_ (rpcs w')) (calls_ (rpcs w))
  /\ exists made,
       calls_made w' = calls_made w ++ made /\ existsb starts made = false.
Proof.
  intros Hsd H.
  assert (Hbase : closed_since w w).
  { split; [exact Hsd|]. split; [apply incl_refl|].
    exists []. rewrite app_nil_r. split; reflexivity. }
  change (closed_since w w').
  revert H Hbase. generalize w at 1 3 as w0. revert w'.
  induction reqs as [|req reqs IH]; intros w' w0 H Hclosed; cbn [serve_all] in H.
  - returned H. exact Hclosed.
  - apply registry_bind_Done in H. destruct H as ([] & w1 & Hreq & H).
    apply (IH w' w1 H). exact (closed_serve w req w0 w1 Hclosed Hreq).
Qed.

End MoreRegistryProperties.

(* ===================================================================== *)
(** * Properties of [Rpcs::Abort] *)
(* ===================================================================== *)

Section HandlesProperties.
Import Registry Handles.

Lemma handles_bind_Done {A B : Type} (m : M Handles.World A)
  (k : A -> M Handles.World B) (w w' : Handles.World) (b : B) :
  bind m k w = Done b w' ->
  exists a w1, m w = Done a w1 /\ k a w1 = Done b w'.
Proof.
  unfold bind. destruct (m w) as [a w1| |]; intros H; try discriminate. eauto.
Qed.

Lemma load_Done (p : HandlePtr) (w w' : Handles.World) (h : Handle) :
  load p w = Done h w' -> w' = w /\ nth_error (handles w) p = Some h.
Proof.
  unfold load. destruct (nth_error (handles w) p); intros H; [|discriminate H].
  returned H. split; reflexivity.
Qed.

Lemma nth_error_assign (p q : HandlePtr) (h : Handle) (l : list Handle) :
  nth_error (assign p h l) q =
    if Nat.eqb q p
    then match nth_error l q with Some _ => Some h | None => None end
    else nth_error l q.
Proof.
  revert p q. induction l as [|h' l IH]; intros p q.
  - destruct p; destruct q; cbn; try reflexivity. destruct (Nat.eqb q p); reflexivity.
  - destruct p as [|p]; destruct q as [|q]; cbn; try reflexivity. apply IH.
Qed.

Lemma only_unregistered_refl (w : Handles.World) : only_unregistered w w.
Proof.
  split; [auto|]. exists []. rewrite app_nil_r. split; reflexivity.
Qed.

Lemma only_unregistered_trans (w1 w2 w3 : Handles.World) :
  only_unregistered w1 w2 -> only_unregistered w2 w3 -> only_unregistered w1 w3.
Proof.
  intros (H12 & n12 & Hc12 & Hn12) (H23 & n23 & Hc23 & Hn23). split; [auto|].
  exists (n12 ++ n23). rewrite Hc23, Hc12, app_assoc. split; [reflexivity|].
  rewrite forallb_app, Hn12, Hn23. reflexivity.
Qed.

Lemma Unregister_post (p : HandlePtr) (w w' : Handles.World) (result : RpcCommandPtr) :
  Handles.Unregister p w = Done result w' ->
  only_unregistered w w' /\ invalid_at w' p.
Proof.
  unfold Handles.Unregister. intros H.
  apply handles_bind_Done in H. destruct H as (h & w1 & Hload & H).
  apply load_Done in Hload. destruct Hload as [-> Hp].
  apply handles_bind_Done in H. destruct H as ([r h'] & w2 & Hun & H).
  assert (Hw2 : h' = InvalidHandle
                /\ handles w2 = handles w
                /\ exists notes,
                     calls_made (registry w2) = calls_made (registry w) ++ notes
                     /\ forallb notification notes = true).
  { unfold lift, Registry.Unregister in Hun. destruct h as [addr|].
    - revert Hun. run_registry.
      destruct (deref addr (calls_ (rpcs (registry w)))); cbn beta iota; intros Hun;
        [|discriminate Hun].
      returned Hun. split; [reflexivity|]. split; [reflexivity|].
      exists [NotifyOne]. split; reflexivity.
    - cbn in Hun. returned Hun. split; [reflexivity|]. split; [reflexivity|].
      exists []. cbn. rewrite app_nil_r. split; reflexivity. }
  destruct Hw2 as (-> & Hh & notes & Hcalls & Hnotes).
  unfold store in H. revert H. run_registry. intros H. returned H.
  split; [split|].
  - intros q Hq. unfold invalid_at in *. cbn [handles]. rewrite nth_error_assign, Hh.
    destruct (Nat.eqb q p); [rewrite Hq; reflexivity|exact Hq].
  - exists notes. split; assumption.
  - unfold invalid_at. cbn [handles]. rewrite nth_error_assign, Hh, Nat.eqb_refl, Hp.
    reflexivity.
Qed.

Lemma others_post (ps : list HandlePtr) (w w' : Handles.World) :
  others ps w = Done tt w' -> only_unregistered w w'.
Proof.
  revert w. induction ps as [|p ps IH]; intros w H; cbn [others] in H.
  - returned H. apply only_unregistered_refl.
  - apply handles_bind_Done in H. destruct H as (r & w1 & Hun & H).
    apply Unregister_post in Hun. destruct Hun as [Hun _].
    eapply only_unregistered_trans; [exact Hun|apply IH; exact H].
Qed.

Lemma others_waits (ps : list HandlePtr) (w w' : Handles.World) :
  others ps w = Done tt w' -> waits w' = waits w.
Proof.
  revert w. induction ps as [|p ps IH]; intros w H; cbn [others] in H.
  - now returned H.
  - apply handles_bind_Done in H. destruct H as (r & w1 & Hun & H).
    rewrite (IH w1 H). clear H IH.
    unfold Handles.Unregister in Hun.
    apply handles_bind_Done in Hun. destruct Hun as (h & w2 & Hload & H).
    apply load_Done in Hload. destruct Hload as [-> _].
    apply handles_bind_Done in H. destruct H as ([r' h'] & w3 & Hun & H).
    unfold store in H. revert H. run_registry. intros H. returned H.
    cbn [waits]. unfold lift in Hun.
    destruct (Registry.Unregister h (registry w)); returned Hun; reflexivity.
Qed.

Lemma cond_wait_post (wk : list HandlePtr) (w w' : Handles.World) :
  cond_wait wk w = Done tt w' -> only_unregistered w w'.
Proof.
  unfold cond_wait. intros H. apply handles_bind_Done in H.
  destruct H as ([] & w1 & Hcount & H). returned Hcount.
  apply others_post in H. destruct H as (Hmono & Hnotes). split; assumption.
Qed.

Lemma skip_invalid_post (listed remaining : list HandlePtr) (w w' : Handles.World) :
  skip_invalid listed w = Done remaining w' ->
  w' = w
  /\ exists skipped, listed = skipped ++ remaining /\ Forall (invalid_at w) skipped.
Proof.
  revert remaining. induction listed as [|p listed IH]; intros remaining H;
    cbn [skip_invalid] in H.
  - returned H. split; [reflexivity|]. exists []. split; [reflexivity|constructor].
  - apply handles_bind_Done in H. destruct H as (h & w1 & Hload & H).
    apply load_Done in Hload. destruct Hload as [-> Hp].
    destruct h as [addr|].
    + returned H. split; [reflexivity|]. exists []. split; [reflexivity|constructor].
    + apply IH in H. destruct H as (-> & skipped & -> & Hskipped).
      split; [reflexivity|]. exists (p :: skipped). split; [reflexivity|].
      constructor; [exact Hp|exact Hskipped].
Qed.

Lemma Abort_wait_post (wakeups : list (list HandlePtr)) (listed : list HandlePtr)
  (w w' : Handles.World) :
  Abort_wait wakeups listed w = Done tt w' ->
  only_unregistered w w' /\ Forall (invalid_at w') listed.
Proof.
  revert listed w. induction wakeups as [|wk wakeups IH]; intros listed w H;
    cbn [Abort_wait] in H;
    apply handles_bind_Done in H; destruct H as (remaining & w1 & Hskip & H);
    apply skip_invalid_post in Hskip; destruct Hskip as (-> & skipped & -> & Hskipped).
  - destruct remaining; [|discriminate H]. returned H.
    split; [apply only_unregistered_refl|]. rewrite app_nil_r. exact Hskipped.
  - destruct remaining as [|p remaining].
    { returned H. split; [apply only_unregistered_refl|]. rewrite app_nil_r.
      exact Hskipped. }
    apply handles_bind_Done in H. destruct H as ([] & w2 & Hwait & H).
    apply cond_wait_post in Hwait. apply IH in H. destruct H as [Hrest Hall].
    pose proof (only_unregistered_trans _ _ _ Hwait Hrest) as Hboth.
    split; [exact Hboth|].
    apply Forall_app. split; [|exact Hall].
    destruct Hboth as [Hmono _].
    eapply Forall_impl; [|exact Hskipped]. exact Hmono.
Qed.

Lemma collect_resolved (listed : list HandlePtr) (w : Handles.World) :
  forallb (resolved w) listed = true ->
  collect listed w = Done (targets w listed) w
  /\ forallb present (targets w listed) = true
  /\ (targets w listed = [] -> Forall (invalid_at w) listed).
Proof.
  induction listed as [|p listed IH]; cbn [forallb collect targets flat_map]; intros H.
  - split; [reflexivity|]. split; [reflexivity|]. constructor.
  - apply andb_prop in H. destruct H as [Hp H]. specialize (IH H).
    destruct IH as (Hcollect & Hpresent & Hnone).
    unfold resolved in Hp. unfold bind at 1. unfold load.
    destruct (nth_error (handles w) p) as [[addr|]|] eqn:Hnth; [| |discriminate Hp].
    + unfold bind at 1. cbn [gets].
      destruct (deref addr (calls_ (rpcs (registry w)))) as [[c|]|];
        try discriminate Hp.
      unfold bind at 1. unfold targets in Hcollect. rewrite Hcollect.
      split; [reflexivity|]. split; [exact Hpresent|]. intros Hnil. discriminate Hnil.
    + cbn [app]. split; [exact Hcollect|]. split; [exact Hpresent|].
      intros Hnil. constructor; [exact Hnth|apply Hnone; exact Hnil].
Qed.

Lemma abort_each_present (to_abort : list RpcCommandPtr) (w : Handles.World) :
  forallb present to_abort = true ->
  abort_each to_abort w
  = Done tt (after_registry_calls (map CallAbort (commands to_abort)) w).
Proof.
  revert w. induction to_abort as [|[c|] to_abort IH]; intros w H;
    cbn [abort_each commands map]; [| |discriminate H].
  - unfold after_registry_calls. rewrite after_calls_nil. destruct w; reflexivity.
  - unfold bind at 1. unfold lift, call_Abort. rewrite emit_after_calls.
    rewrite IH by exact H. unfold after_registry_calls, with_registry.
    cbn [registry handles waits]. rewrite after_calls_app. reflexivity.
Qed.

Lemma skip_invalid_all (listed : list HandlePtr) (w : Handles.World) :
  Forall (invalid_at w) listed -> skip_invalid listed w = Done [] w.
Proof.
  intros Hall. induction Hall as [|p listed Hp Hall IH]; cbn [skip_invalid];
    [reflexivity|].
  unfold bind, load. unfold invalid_at in Hp. rewrite Hp. exact IH.
Qed.

Lemma Abort_wait_invalid (wakeups : list (list HandlePtr)) (listed : list HandlePtr)
  (w : Handles.World) :
  Forall (invalid_at w) listed -> Abort_wait wakeups listed w = Done tt w.
Proof.
  intros Hall. destruct wakeups; cbn [Abort_wait]; unfold bind;
    rewrite (skip_invalid_all listed w Hall); reflexivity.
Qed.

(** X15. [Rpcs::Abort] on handles that are invalid or point to registered
    commands: when no handle of the list is valid it returns at once, with
    no call and no wait; otherwise it calls [Abort()] on the command of
    every valid handle, once each and in the order of the list, before
    anything is unregistered, and then waits for the handles of the list;
    if all of them have been unregistered by the time it takes the mutex
    again, it returns without waiting. *)
Theorem Abort_list_outcome (listed meanwhile : list HandlePtr)
  (wakeups : list (list HandlePtr)) (w : Handles.World) :
  forallb (resolved w) listed = true ->
  let aborted := after_registry_calls (map CallAbort (commands (targets w listed))) w in
  forallb present (targets w listed) = true
  /\ (targets w listed = [] <-> Forall (invalid_at w) listed)
  /\ Handles.Abort listed meanwhile wakeups w =
       match targets w listed with
       | [] => Done tt w
       | _ :: _ => (others meanwhile ;; Abort_wait wakeups listed)%monad aborted
       end
  /\ (forall w2,
        targets w listed <> [] ->
        others meanwhile aborted = Done tt w2 ->
        Forall (invalid_at w2) listed ->
        Handles.Abort listed meanwhile wakeups w = Done tt w2
        /\ waits w2 = waits w).
Proof.
  intros Hres aborted.
  destruct (collect_resolved listed w Hres) as (Hcollect & Hpresent & Hnone).
  assert (Hrun : Handles.Abort listed meanwhile wakeups w =
                 match targets w listed with
                 | [] => Done tt w
                 | _ :: _ => (others meanwhile ;; Abort_wait wakeups listed)%monad aborted
                 end).
  { unfold Handles.Abort. unfold bind at 1. rewrite Hcollect. subst aborted.
    destruct (targets w listed) as [|call to_abort] eqn:Ht; [reflexivity|].
    unfold bind at 1. rewrite abort_each_present by exact Hpresent. reflexivity. }
  split; [exact Hpresent|]. split; [|split; [exact Hrun|]].
  - split; [exact Hnone|].
    intros Hall. unfold targets. clear - Hall.
    induction Hall as [|p listed Hp Hall IH]; cbn [flat_map]; [reflexivity|].
    unfold invalid_at in Hp. rewrite Hp. exact IH.
  - intros w2 Hsome Hothers Hall. rewrite Hrun.
    destruct (targets w listed) as [|call to_abort]; [contradiction|].
    unfold bind. rewrite Hothers. split; [apply Abort_wait_invalid; exact Hall|].
    apply others_waits in Hothers. exact Hothers.
Qed.

Lemma collect_Done (listed : list HandlePtr) (to_abort : list RpcCommandPtr)
  (w w1 : Handles.World) :
  collect listed w = Done to_abort w1 ->
  w1 = w /\ to_abort = targets w listed
  /\ (to_abort = [] -> Forall (invalid_at w) listed).
Proof.
  revert to_abort. induction listed as [|p listed IH]; intros to_abort Hcollect;
    cbn [collect] in Hcollect.
  - returned Hcollect. split; [reflexivity|]. split; [reflexivity|]. constructor.
  - apply handles_bind_Done in Hcollect. destruct Hcollect as (h & w2 & Hload & H).
    apply load_Done in Hload. destruct Hload as [-> Hp].
    cbn [targets flat_map]. rewrite Hp. destruct h as [addr|].
    + unfold bind at 1 in H. cbn [gets] in H.
      destruct (deref addr (calls_ (rpcs (registry w)))) as [call|];
        [|discriminate H].
      apply handles_bind_Done in H. destruct H as (rest & w3 & Hrest & H).
      returned H. destruct (IH rest Hrest) as (-> & -> & _).
      split; [reflexivity|]. split; [reflexivity|]. intros Hnil. discriminate Hnil.
    + destruct (IH to_abort H) as (-> & -> & Hnone).
      split; [reflexivity|]. split; [reflexivity|].
      intros Hnil. constructor; [exact Hp|apply Hnone; exact Hnil].
Qed.

Lemma abort_each_Done (to_abort : list RpcCommandPtr) (w w1 : Handles.World) :
  abort_each to_abort w = Done tt w1 ->
  forallb present to_abort = true
  /\ w1 = after_registry_calls (map CallAbort (commands to_abort)) w.
Proof.
  intros H.
  assert (Hpresent : forallb present to_abort = true).
  { revert w H. induction to_abort as [|[c|] l IH]; intros w H; cbn [abort_each] in H.
    - reflexivity.
    - apply handles_bind_Done in H. destruct H as ([] & w2 & _ & H). exact (IH w2 H).
    - unfold bind at 1 in H. cbn in H. discriminate H. }
  split; [exact Hpresent|].
  rewrite abort_each_present in H by exact Hpresent. now returned H.
Qed.

(** X16. [Rpcs::Abort] returns only when every handle of its list is
    invalid: whatever the schedule of the other threads, at its return each
    listed handle equals [calls_.end()], and the calls made since it was
    entered are the [Abort()] of the commands the valid handles pointed to,
    once each and in the order of the list, followed by the notifications
    of those who unregistered. *)
Theorem Abort_list_returns_unregistered (listed meanwhile : list HandlePtr)
  (wakeups : list (list HandlePtr)) (w w' : Handles.World) :
  Handles.Abort listed meanwhile wakeups w = Done tt w' ->
  Forall (invalid_at w') listed
  /\ exists aborted notes,
       calls_made (registry w') =
         calls_made (registry w) ++ map CallAbort aborted ++ notes
       /\ map Some aborted = targets w listed
       /\ forallb notification notes = true.
Proof.
  intros H. unfold Handles.Abort in H.
  apply handles_bind_Done in H. destruct H as (to_abort & w1 & Hcollect & H).
  apply collect_Done in Hcollect. destruct Hcollect as (-> & -> & Hnone).
  destruct (targets w listed) as [|call to_abort] eqn:Ht.
  - returned H. split; [apply Hnone; reflexivity|].
    exists [], []. cbn. rewrite app_nil_r. repeat split.
  - rewrite <- Ht in *. clear Ht.
    apply handles_bind_Done in H. destruct H as ([] & w1 & Habort & H).
    apply abort_each_Done in Habort. destruct Habort as [Hpresent ->].
    apply handles_bind_Done in H. destruct H as ([] & w2 & Hothers & H).
    apply others_post in Hothers. apply Abort_wait_post in H.
    destruct H as [Hwait Hall].
    destruct (only_unregistered_trans _ _ _ Hothers Hwait)
      as (_ & notes & Hcalls & Hnotes).
    split; [exact Hall|].
    exists (commands (targets w listed)), notes.
    split; [|split; [apply commands_present; exact Hpresent|exact Hnotes]].
    rewrite Hcalls. unfold after_registry_calls.
    cbn [registry with_registry after_calls calls_made].
    rewrite <- app_assoc. reflexivity.
Qed.

End HandlesProperties.

(* ===================================================================== *)
(** * The theorems at sample inputs *)
(* ===================================================================== *)

Section Instances.
Import Retrier.
#[local] Existing Instance sample_collaborators.

Lemma passive_command_well_behaved : well_behaved passive_command.
Proof.
  split; [|intros status]; intros w a w' HP H; cbn in H;
    inversion H; subst; exact HP.
Qed.

Lemma rescheduling_command_well_behaved : well_behaved rescheduling_command.
Proof.
  split.
  - apply preserves_ScheduleRetry. exact passive_command_well_behaved.
  - intros status w a w' HP H. cbn in H. inversion H; subst. exact HP.
Qed.

(** C1, counterexample: with the controller reporting
    [ERROR_SERVER_TOO_BUSY] and [retry_when_busy] set, on a retrier that is
    already finished, [HandleResponse] returns [false] and hands back the
    [IllegalState] status of [DelayedRetry], not the controller status. *)
Lemma HandleResponse_reports_scheduling_failure :
  (exists w',
      HandleResponse 2 passive_command Status_OK true finished_world
        = Done (false, STATUS kIllegalState "Retry of finished command: rpc") w')
  /\ STATUS kIllegalState "Retry of finished command: rpc"
     <> controller_status (controller_ (retrier finished_world))
  /\ ~ HandleResponse_as_stated 2 passive_command Status_OK true finished_world.
Proof.
  split; [eexists; vm_compute; reflexivity|].
  split; [discriminate|].
  intros (retried & out & w' & Hrun & _ & Hout).
  vm_compute in Hrun. inversion Hrun; subst.
  specialize (Hout eq_refl). discriminate Hout.
Qed.

(** C1, witness: the busy response of the first attempt is retried. *)
Lemma HandleResponse_outcome_witness :
  (2 <= 2)%nat
  /\ exists w1,
       HandleResponse 2 passive_command Status_OK true idle_world = Done (true, Status_OK) w1
       /\ state_ (retrier w1) = kWaiting.
Proof.
  split; [lia|].
  destruct (HandleResponse_outcome 2 passive_command Status_OK true idle_world)
    as (status & w1 & Hretry & Hrun & _); [lia|].
  vm_compute in Hretry. inversion Hretry; subst.
  eexists. split; [exact Hrun|reflexivity].
Defined.

(** C2, witness: with the raw value 7 the draw is 2, and the second delay
    of the exponential strategy is [(1 << 8) + 2] ms. *)
Lemma DelayedRetry_delay_formula_witness :
  (2 <= 2)%nat
  /\ draw 0 4 idle_world = 2
  /\ delay_defined (flags idle_world) kExponential (attempt_num_ (retrier idle_world))
       (draw 0 4 idle_world)
  /\ representable (attempt_num_ (retrier idle_world) + 1)
  /\ times_drawn 0 4 3 (raw_values 10) idle_world = 2%nat
  /\ exists w1,
       DelayedRetry_backoff (STATUS kRemoteError "server too busy") kExponential idle_world
         = Done 258 w1
       /\ attempt_num_ (retrier w1) = 2
       /\ entropy w1 = [].
Proof.
  assert (Hdef : delay_defined (flags idle_world) kExponential
                   (attempt_num_ (retrier idle_world)) (draw 0 4 idle_world)).
  { vm_compute. repeat split; discriminate. }
  assert (Hrep : representable (attempt_num_ (retrier idle_world) + 1)).
  { vm_compute. split; discriminate. }
  split; [lia|]. split; [reflexivity|]. split; [exact Hdef|]. split; [exact Hrep|].
  destruct (DelayedRetry_delay_formula 2 passive_command
              (STATUS kRemoteError "server too busy") kExponential idle_world (le_n 2))
    as (num_ms & w1 & status & w' & _ & Huniform & Hb & Hent & _ & Hformula & _ & Hn & _).
  split; [exact (Huniform 3 2%nat ltac:(lia))|].
  exists w1. split; [|split; [exact (Hn Hrep)|exact Hent]].
  rewrite Hb. f_equal. exact (Hformula Hdef).
Defined.

(** C3, counterexample: fired with OK on a retrier that an abort has
    parked in [kFinished], with the deadline passed, [DoRetry] delivers
    [Aborted], not [TimedOut]. *)
Lemma DoRetry_after_abort_reports_aborted :
  ok Status_OK = true
  /\ Initialized (deadline_ (retrier (overdue_world kFinished))) = true
  /\ ComesBefore (deadline_ (retrier (overdue_world kFinished)))
       (now (overdue_world kFinished)) = true
  /\ (exists w',
        DoRetry 0 passive_command Status_OK (overdue_world kFinished) = Done tt w'
        /\ events w' = [EvFinished (STATUS kAborted "rpc aborted: kFinished")]
        /\ state_ (retrier w') = kFinished)
  /\ ~ DoRetry_times_out_as_stated 0 passive_command Status_OK (overdue_world kFinished).
Proof.
  split; [reflexivity|]. split; [reflexivity|]. split; [reflexivity|].
  split; [eexists; split; [vm_compute; reflexivity|split; reflexivity]|].
  intros H. specialize (H eq_refl eq_refl eq_refl).
  unfold delivers_timeout in H. vm_compute in H. discriminate H.
Qed.

(** C3, witness: the same firing on the waiting retrier delivers the
    time-out, with the earlier error in its message. *)
Lemma DoRetry_deadline_passed_witness :
  state_ (retrier (overdue_world kWaiting)) = kWaiting
  /\ ok Status_OK = true
  /\ Initialized (deadline_ (retrier (overdue_world kWaiting))) = true
  /\ ComesBefore (deadline_ (retrier (overdue_world kWaiting)))
       (now (overdue_world kWaiting)) = true
  /\ deadline_message passive_command (overdue_world kWaiting)
     = "rpc passed its deadline 200000000ns (now: 300000000ns): connection reset"%string
  /\ exists w',
       DoRetry 0 passive_command Status_OK (overdue_world kWaiting) = Done tt w'
       /\ events w' =
            [EvFinished
               (STATUS kTimedOut
                  (deadline_message passive_command (overdue_world kWaiting)))]
       /\ state_ (retrier w') = kIdle.
Proof.
  split; [reflexivity|]. split; [reflexivity|]. split; [reflexivity|].
  split; [reflexivity|]. split; [reflexivity|].
  destruct (DoRetry_deadline_passed 0 passive_command Status_OK (overdue_world kWaiting)
              eq_refl eq_refl eq_refl eq_refl) as (_ & _ & _ & _ & Hrun).
  eexists. split; [rewrite Hrun; vm_compute; reflexivity|].
  split; reflexivity.
Defined.

(** C4, counterexample: the retry refused on a finished retrier carries
    the message of line 126, and the retrier has counted one more
    attempt. *)
Lemma DelayedRetry_rejected_counts_attempt :
  (exists w',
      DelayedRetry 2 passive_command (STATUS kNetworkError "connection reset") kLinear
        finished_world
        = Done (STATUS kIllegalState "Retry of finished command: rpc") w'
      /\ attempt_num_ (retrier finished_world) = 1
      /\ attempt_num_ (retrier w') = 2
      /\ last_error_ (retrier finished_world) = Status_OK
      /\ last_error_ (retrier w') = STATUS kNetworkError "connection reset")
  /\ ~ DelayedRetry_rejected_as_stated 2 passive_command
         (STATUS kNetworkError "connection reset") kLinear finished_world.
Proof.
  split.
  - eexists. split; [vm_compute; reflexivity|]. repeat split.
  - intros [Hfin _]. destruct (Hfin eq_refl) as (w' & Hrun & _).
    vm_compute in Hrun. discriminate Hrun.
Qed.

(** C4, witness. *)
Lemma DelayedRetry_rejected_witness :
  (2 <= 2)%nat
  /\ (state_ (retrier finished_world) = kFinished
      \/ state_ (retrier finished_world) = kWaiting)
  /\ exists w',
       DelayedRetry 2 passive_command (STATUS kNetworkError "connection reset") kLinear
         finished_world
         = Done (STATUS kIllegalState "Retry of finished command: rpc") w'
       /\ state_ (retrier w') = kFinished
       /\ task_id_ (retrier w') = kInvalidTaskId.
Proof.
  split; [lia|]. split; [left; reflexivity|].
  destruct (DelayedRetry_rejected 2 passive_command
              (STATUS kNetworkError "connection reset") kLinear finished_world
              (le_n 2) (or_introl eq_refl))
    as (w' & Hrun & _ & Hst & Hid & _).
  exists w'. split; [exact Hrun|]. split; [exact Hst|exact Hid].
Defined.

(** C5, witness: the first error replaces the OK [last_error_]. *)
Lemma DelayedRetry_last_error_policy_witness :
  (2 <= 2)%nat
  /\ exists status w',
       DelayedRetry 2 passive_command (STATUS kNetworkError "connection reset") kLinear
         idle_world = Done status w'
       /\ last_error_ (retrier w') = STATUS kNetworkError "connection reset".
Proof.
  split; [lia|].
  destruct (DelayedRetry_last_error_policy 2 passive_command
              (STATUS kNetworkError "connection reset") kLinear idle_world (le_n 2))
    as (status & w' & Hrun & Hover & _).
  exists status, w'. split; [exact Hrun|].
  apply Hover; [reflexivity|left; reflexivity].
Defined.

(** C6, witness. *)
Lemma DelayedRetry_refused_witness :
  (2 <= 2)%nat
  /\ accepting (messenger refusing_world) = false
  /\ state_ (retrier refusing_world) <> kFinished
  /\ state_ (retrier refusing_world) <> kWaiting
  /\ exists w',
       DelayedRetry 2 passive_command (STATUS kNetworkError "connection reset") kLinear
         refusing_world = Done (STATUS kAborted "Failed to schedule: rpc") w'
       /\ state_ (retrier w') = kFinished
       /\ scheduled_tasks (messenger w') = [].
Proof.
  split; [lia|]. split; [reflexivity|]. split; [discriminate|]. split; [discriminate|].
  destruct (DelayedRetry_refused 2 passive_command
              (STATUS kNetworkError "connection reset") kLinear refusing_world
              (le_n 2) eq_refl)
    as (num_ms & w1 & w2 & w' & _ & _ & _ & _ & Hrun & _ & Hst & _ & Htasks & _);
    [discriminate|discriminate|].
  exists w'. split; [exact Hrun|]. split; [exact Hst|exact Htasks].
Defined.


Lemma idle_world_quiescent : Quiescent 2 passive_command idle_world.
Proof. apply Quiescent_initial. split; reflexivity. Qed.


(** X1, witness: a firing with [ServiceUnavailable]. *)
Lemma DoRetry_dispatch_witness :
  state_ (retrier (sample_world (sample_retrier 0 Status_OK kWaiting 1) true)) = kWaiting
  /\ exists w',
       DoRetry 0 passive_command (STATUS kServiceUnavailable "reactor is shutting down")
         (sample_world (sample_retrier 0 Status_OK kWaiting 1) true) = Done tt w'
       /\ events w' =
            [EvFinished
               (STATUS kAborted "Aborted because of reactor is shutting down")]
       /\ state_ (retrier w') = kIdle.
Proof.
  split; [reflexivity|].
  destruct (DoRetry_dispatch 0 passive_command
              (STATUS kServiceUnavailable "reactor is shutting down")
              (sample_world (sample_retrier 0 Status_OK kWaiting 1) true) eq_refl)
    as [Hrun _].
  eexists. split; [rewrite (Hrun eq_refl); vm_compute; reflexivity|].
  split; reflexivity.
Defined.

(** X2, witness. *)
Lemma DelayedRetry_scheduled_witness :
  (2 <= 2)%nat
  /\ accepting (messenger idle_world) = true
  /\ state_ (retrier idle_world) <> kFinished
  /\ state_ (retrier idle_world) <> kWaiting
  /\ exists w',
       DelayedRetry 2 passive_command (STATUS kNetworkError "connection reset") kLinear
         idle_world = Done Status_OK w'
       /\ state_ (retrier w') = kWaiting
       /\ task_id_ (retrier w') <> kInvalidTaskId.
Proof.
  split; [lia|]. split; [reflexivity|]. split; [discriminate|]. split; [discriminate|].
  destruct (DelayedRetry_scheduled 2 passive_command
              (STATUS kNetworkError "connection reset") kLinear idle_world
              (le_n 2) eq_refl)
    as (w' & Hrun & Hst & Hid & _); [discriminate|discriminate|].
  exists w'. split; [exact Hrun|]. split; [exact Hst|exact Hid].
Defined.

End Instances.

Section RegistryInstances.
Import Registry.

(** C7, counterexample: in scenario 4 the drain deadline is the later of
    1050 ms and 1310 ms, not their sum. *)
Lemma Shutdown_deadline_is_not_a_sum :
  (exists w1,
      DoRequestAbortAll true (scenario_registry false) = Done (FromMilliseconds 1310) w1)
  /\ drain_deadline_as_stated (scenario_registry false) = FromMilliseconds 2360
  /\ ~ Shutdown_deadline_as_stated (scenario_registry false).
Proof.
  split; [eexists; vm_compute; reflexivity|].
  split; [reflexivity|].
  intros [w1 H]. vm_compute in H. discriminate H.
Qed.

(** C7, witness: both commands unregister during the first wait. *)
Lemma Shutdown_outcome_witness :
  forallb present (snapshot (scenario_registry false)) = true
  /\ drain_deadline (scenario_registry false) = FromMilliseconds 1310
  /\ exists w',
       Shutdown [] [{| unregistered := [0%nat; 1%nat]; wait_result := no_timeout |}]
         (scenario_registry false) = Done tt w'
       /\ calls_ (rpcs w') = []
       /\ calls_made w' =
            [CallAbort first_call; CallAbort second_call;
             LogWaitingCalls 2; WaitUntil (FromMilliseconds 1310)].
Proof.
  split; [reflexivity|]. split; [reflexivity|].
  destruct (Shutdown_outcome [] [{| unregistered := [0%nat; 1%nat];
                                    wait_result := no_timeout |}]
              (scenario_registry false) eq_refl)
    as (w1 & _ & _ & _ & _ & _ & _ & _ & _ & _ & Hout).
  destruct (Shutdown [] [{| unregistered := [0%nat; 1%nat]; wait_result := no_timeout |}]
              (scenario_registry false)) as [[] w'| |] eqn:Hrun.
  - exists w'. split; [reflexivity|]. split; [exact Hout|].
    vm_compute in Hrun. inversion Hrun; subst. reflexivity.
  - vm_compute in Hrun. discriminate Hrun.
  - vm_compute in Hrun. discriminate Hrun.
Defined.

Lemma scenario_registry_fresh (shutdown : bool) : fresh (rpcs (scenario_registry shutdown)).
Proof.
  intros addr call [H | [H | []]]; injection H as <- _; cbn; lia.
Qed.

(** C8, witness: registration after shutdown aborts the command. *)
Lemma Register_outcome_witness :
  fresh (rpcs (scenario_registry true))
  /\ exists w',
       Register (Some first_call) (scenario_registry true) = Done InvalidHandle w'
       /\ calls_ (rpcs w') = calls_ (rpcs (scenario_registry true))
       /\ calls_made w' = [CallAbort first_call].
Proof.
  split; [exact (scenario_registry_fresh true)|].
  destruct (Register_outcome first_call (scenario_registry true)
              (scenario_registry_fresh true))
    as (handle & w' & Hrun & _ & Hh & Hr & Hc).
  exists w'. subst handle. split; [exact Hrun|].
  split; [now rewrite Hr|exact Hc].
Defined.

(** C10, witness: a placeholder left unfilled makes abort-all fatal. *)
Lemma unfilled_placeholder_is_fatal_witness :
  shutdown_ (rpcs (scenario_registry false)) = false
  /\ exists w1,
       Prepare (scenario_registry false) = Done (Some 2%nat) w1
       /\ (exists w', RequestAbortAll w1 = Fatal w')
       /\ (exists w', Shutdown [] [] w1 = Fatal w').
Proof.
  split; [reflexivity|].
  destruct (unfilled_placeholder_is_fatal false (scenario_registry false) eq_refl)
    as ((w1 & Hprep & _ & _ & _ & Hreq & Hshut) & _).
  exists w1. split; [exact Hprep|]. split; [exact Hreq|apply Hshut].
Defined.

End RegistryInstances.

(* ===================================================================== *)
(** * The further properties at sample inputs *)
(* ===================================================================== *)

Section MoreInstances.
Import Retrier.
#[local] Existing Instance sample_collaborators.

Lemma passive_command_respects (P : World -> Prop) : respects P passive_command.
Proof.
  split; [|intros status]; intros w a w' HP H; cbn in H; inversion H; subst; exact HP.
Qed.

(** X4, witness: three rounds of the busy wait. *)
Lemma DoRetry_waits_while_scheduling_witness :
  state_ (retrier scheduling_world) = kScheduling
  /\ exists w',
       DoRetry 3 passive_command Status_OK scheduling_world = Blocked w'
       /\ retrier w' = retrier scheduling_world
       /\ events w' = [EvSleep 1000000; EvSleep 1000000; EvSleep 1000000]
       /\ now w' = FromMilliseconds 303.
Proof.
  split; [reflexivity|].
  destruct (DoRetry_waits_while_scheduling 3 passive_command Status_OK scheduling_world
              eq_refl) as (w' & Hrun & Hr & _ & He & Hn).
  exists w'. split; [exact Hrun|]. split; [exact Hr|]. split; [exact He|exact Hn].
Defined.

(** X5, witness: the abort of a waiting retrier whose task the reactor
    fires during the second sleep. *)
Lemma Abort_leaves_finished_witness :
  respects (in_state kFinished) passive_command
  /\ exists w',
       Abort (map (reactor_run 2 passive_command) [[]; [(2, Status_OK)]]) waiting_world
         = Done tt w'
       /\ state_ (retrier w') = kFinished
       /\ task_id_ (retrier w') = kInvalidTaskId.
Proof.
  split; [apply passive_command_respects|].
  assert (Hrun : exists w',
             Abort (map (reactor_run 2 passive_command) [[]; [(2, Status_OK)]])
               waiting_world = Done tt w').
  { eexists. vm_compute. reflexivity. }
  destruct Hrun as [w' Hrun]. exists w'. split; [exact Hrun|].
  exact (Abort_leaves_finished 2 passive_command [[]; [(2, Status_OK)]] waiting_world w'
           (passive_command_respects _) Hrun).
Defined.

(** X6, witness: two sleeps of an [Abort] during an attempt. *)
Lemma Abort_waits_while_busy_witness :
  (state_ (retrier running_world) = kRunning
   \/ state_ (retrier running_world) = kScheduling)
  /\ respects (in_state (state_ (retrier running_world))) passive_command
  /\ returns (Abort (map (reactor_run 2 passive_command) [[]; []])) running_world = false.
Proof.
  split; [left; reflexivity|]. split; [apply passive_command_respects|].
  exact (Abort_waits_while_busy 2 passive_command [[]; []] running_world
           (or_introl eq_refl) (passive_command_respects _)).
Defined.

(** X7, witness: a retry, a firing and an abort on a finished retrier. *)
Lemma finished_is_terminal_witness :
  state_ (retrier finished_world) = kFinished
  /\ respects (finished_with_tasks (held finished_world)) passive_command
  /\ exists w',
       perform_all 2 passive_command
         [OpDelayedRetry (STATUS kNetworkError "connection reset") kLinear;
          OpReactorFire 1 Status_OK; OpAbort []] finished_world = Done tt w'
       /\ state_ (retrier w') = kFinished
       /\ incl (held w') (held finished_world).
Proof.
  split; [reflexivity|]. split; [apply passive_command_respects|].
  assert (Hrun : exists w',
             perform_all 2 passive_command
               [OpDelayedRetry (STATUS kNetworkError "connection reset") kLinear;
                OpReactorFire 1 Status_OK; OpAbort []] finished_world = Done tt w').
  { eexists. vm_compute. reflexivity. }
  destruct Hrun as [w' Hrun]. exists w'. split; [exact Hrun|].
  exact (finished_is_terminal 2 passive_command _ finished_world w' eq_refl
           (passive_command_respects _) Hrun).
Defined.

(** X8, witness: after a retry was scheduled the retrier waits with the id
    of the task. *)
Lemma waiting_has_task_at_quiescence_witness :
  respects (observes waiting_with_task) passive_command
  /\ exists w1,
       Quiescent 2 passive_command w1
       /\ state_ (retrier w1) = kWaiting
       /\ task_id_ (retrier w1) <> kInvalidTaskId.
Proof.
  split; [apply passive_command_respects|].
  assert (Hrun : exists w1,
             perform 2 passive_command
               (OpDelayedRetry (STATUS kNetworkError "connection reset") kLinear)
               idle_world = Done tt w1
             /\ state_ (retrier w1) = kWaiting).
  { eexists. split; [vm_compute; reflexivity|reflexivity]. }
  destruct Hrun as (w1 & Hrun & Hstate).
  assert (Hq : Quiescent 2 passive_command w1).
  { apply (Quiescent_after 2 passive_command idle_world w1
             (OpDelayedRetry (STATUS kNetworkError "connection reset") kLinear));
      [|exact Hrun].
    apply Quiescent_initial. split; reflexivity. }
  exists w1. split; [exact Hq|]. split; [exact Hstate|].
  exact (waiting_has_task_at_quiescence 2 passive_command w1
           (passive_command_respects _) Hq Hstate).
Defined.

(** X9, witness: the abort of the retrier waiting for task 2. *)
Lemma Abort_cancels_waiting_witness :
  state_ (retrier waiting_world) = kWaiting
  /\ task_id_ (retrier waiting_world) = 2
  /\ 2 <> kInvalidTaskId
  /\ pending 2 waiting_world = true
  /\ weak_failures waiting_world = []
  /\ exists w2,
       Abort (map (reactor_run 2 passive_command) [[]; [(2, Status_OK)]]) waiting_world
         = Done tt w2
       /\ events w2 =
            [EvSleep 10000000; EvAbortOnReactor 2; EvSleep 10000000;
             EvFinished (STATUS kAborted "rpc aborted: kFinished")]
       /\ held w2 = [].
Proof.
  assert (Hid : 2 <> kInvalidTaskId) by discriminate.
  split; [reflexivity|]. split; [reflexivity|]. split; [exact Hid|].
  split; [reflexivity|]. split; [reflexivity|].
  destruct (Abort_cancels_waiting 2 passive_command Status_OK waiting_world 2
              eq_refl eq_refl Hid eq_refl eq_refl)
    as (w2 & _ & Hreturns & _ & Htask & Hheld & Hevents & _).
  exists w2. split; [exact (Hreturns w2 eq_refl Htask)|].
  split; [exact Hevents|exact Hheld].
Defined.

(** X17, witness: a retry asked of a finished retrier is reported to the
    command. *)
Lemma ScheduleRetry_outcome_witness :
  (2 <= 2)%nat
  /\ retry_status passive_command finished_world
     = STATUS kIllegalState "Retry of finished command: rpc"
  /\ exists w',
       ScheduleRetry 2 passive_command (STATUS kNetworkError "connection reset")
         finished_world = Done tt w'
       /\ events w' =
            [EvLogWarning "Retry of finished command: rpc";
             EvLogWarning "Failed to schedule retry: Retry of finished command: rpc";
             EvFinished (STATUS kIllegalState "Retry of finished command: rpc")].
Proof.
  split; [lia|]. split; [reflexivity|].
  destruct (ScheduleRetry_outcome 2 passive_command
              (STATUS kNetworkError "connection reset") finished_world (le_n 2))
    as (w1 & Hretry & Hrun).
  assert (Hw1 : exists w0,
            DelayedRetry 2 passive_command (STATUS kNetworkError "connection reset")
              default_strategy finished_world
              = Done (retry_status passive_command finished_world) w0
            /\ events w0 = [EvLogWarning "Retry of finished command: rpc"]).
  { eexists. split; [vm_compute; reflexivity|reflexivity]. }
  destruct Hw1 as (w0 & Hretry0 & Hevents0).
  rewrite Hretry in Hretry0. injection Hretry0 as Heq. subst w0.
  change (ok (retry_status passive_command finished_world)) with false in Hrun.
  destruct Hrun as (Hrun & _).
  eexists. split; [exact Hrun|].
  cbn [events with_event]. rewrite Hevents0. reflexivity.
Defined.

(** X18, witness: a stale task fires during an attempt. *)
Lemma DoRetry_aborts_when_not_waiting_witness :
  state_ (retrier running_world) <> kWaiting
  /\ state_ (retrier running_world) <> kScheduling
  /\ exists w',
       DoRetry 0 passive_command Status_OK running_world = Done tt w'
       /\ state_ (retrier w') = kRunning
       /\ events w' = [EvFinished (STATUS kAborted "rpc aborted: kRunning")].
Proof.
  assert (Hw : state_ (retrier running_world) <> kWaiting) by discriminate.
  assert (Hs : state_ (retrier running_world) <> kScheduling) by discriminate.
  split; [exact Hw|]. split; [exact Hs|].
  destruct (DoRetry_aborts_when_not_waiting 0 passive_command Status_OK running_world
              Hw Hs) as (w1 & Hrun & Hstate & _ & _ & _ & Hevents).
  exists w1. split; [exact Hrun|]. split; [exact Hstate|exact Hevents].
Defined.

(** X19, witness. *)
Lemma Abort_of_idle_witness :
  (state_ (retrier idle_world) = kIdle \/ state_ (retrier idle_world) = kFinished)
  /\ task_id_ (retrier idle_world) = kInvalidTaskId
  /\ weak_failures idle_world = []
  /\ exists w',
       Abort [] idle_world = Done tt w'
       /\ state_ (retrier w') = kFinished
       /\ events w' = [].
Proof.
  split; [left; reflexivity|]. split; [reflexivity|]. split; [reflexivity|].
  destruct (Abort_of_idle [] idle_world (or_introl eq_refl) eq_refl eq_refl)
    as (w' & Hrun & Hstate & _ & Hevents & _).
  exists w'. split; [exact Hrun|]. split; [exact Hstate|exact Hevents].
Defined.

End MoreInstances.

Section MoreRegistryInstances.
Import Registry.

(** X10, witness: a command is started on the open registry of
    scenario 4. *)
Lemma RegisterAndStart_outcome_witness :
  fresh (rpcs (scenario_registry false))
  /\ exists w',
       RegisterAndStart (Some first_call) InvalidHandle (scenario_registry false)
         = Done (Some 2%nat) w'
       /\ calls_made w' = [CallSendRpc first_call].
Proof.
  split; [exact (scenario_registry_fresh false)|].
  destruct (RegisterAndStart_outcome first_call (scenario_registry false)
              (scenario_registry_fresh false)) as [[Hrun _] _].
  eexists. split; [exact Hrun|reflexivity].
Defined.

(** X11, witness. *)
Lemma Register_Unregister_round_trip_witness :
  fresh (rpcs (scenario_registry false))
  /\ shutdown_ (rpcs (scenario_registry false)) = false
  /\ exists handle w1 w2,
       Register (Some first_call) (scenario_registry false) = Done handle w1
       /\ Unregister handle w1 = Done (Some first_call, InvalidHandle) w2
       /\ calls_ (rpcs w2) = calls_ (rpcs (scenario_registry false)).
Proof.
  split; [exact (scenario_registry_fresh false)|]. split; [reflexivity|].
  destruct (Register_Unregister_round_trip (Some first_call) (scenario_registry false)
              (scenario_registry_fresh false) eq_refl)
    as (handle & w1 & w2 & Hreg & Hun & _ & Hcalls & _).
  exists handle, w1, w2. split; [exact Hreg|]. split; [exact Hun|exact Hcalls].
Defined.

(** X12, witness: both commands of scenario 4 are aborted and stay
    registered. *)
Lemma RequestAbortAll_outcome_witness :
  forallb present (snapshot (scenario_registry false)) = true
  /\ exists w',
       RequestAbortAll (scenario_registry false) = Done tt w'
       /\ rpcs w' = rpcs (scenario_registry false)
       /\ calls_made w' = [CallAbort first_call; CallAbort second_call].
Proof.
  split; [reflexivity|].
  destruct (RequestAbortAll_outcome (scenario_registry false) eq_refl)
    as (w' & Hrun & Hrpcs & _ & _ & Hcalls & _).
  exists w'. split; [exact Hrun|]. split; [exact Hrpcs|exact Hcalls].
Defined.

(** X13, witness: the commands of scenario 4 unregister themselves when
    aborted; a second shutdown finds nothing to do. *)
Lemma Shutdown_twice_witness :
  exists w1,
    Shutdown [0%nat; 1%nat] [] (scenario_registry false) = Done tt w1
    /\ Shutdown [] [] w1 = Done tt w1
    /\ calls_made w1 = [CallAbort first_call; CallAbort second_call].
Proof.
  assert (Hrun : exists w1,
             Shutdown [0%nat; 1%nat] [] (scenario_registry false) = Done tt w1
             /\ calls_made w1 = [CallAbort first_call; CallAbort second_call]).
  { eexists. split; [vm_compute; reflexivity|reflexivity]. }
  destruct Hrun as (w1 & Hrun & Hcalls). exists w1. split; [exact Hrun|].
  destruct (Shutdown_twice [0%nat; 1%nat] [] [] [] (scenario_registry false) w1 Hrun)
    as (_ & _ & Hagain).
  split; [exact Hagain|exact Hcalls].
Defined.

(** X14, witness: requests served after the shutdown of scenario 4. *)
Lemma closed_registry_stays_closed_witness :
  shutdown_ (rpcs (scenario_registry true)) = true
  /\ exists w',
       serve_all [ReqRegisterAndStart (Some first_call) InvalidHandle; ReqPrepare;
                  ReqUnregister (Some 0%nat)] (scenario_registry true) = Done tt w'
       /\ shutdown_ (rpcs w') = true
       /\ incl (calls_ (rpcs w')) (calls_ (rpcs (scenario_registry true))).
Proof.
  split; [reflexivity|].
  assert (Hrun : exists w',
             serve_all [ReqRegisterAndStart (Some first_call) InvalidHandle; ReqPrepare;
                        ReqUnregister (Some 0%nat)] (scenario_registry true)
               = Done tt w').
  { eexists. vm_compute. reflexivity. }
  destruct Hrun as (w' & Hrun). exists w'. split; [exact Hrun|].
  destruct (closed_registry_stays_closed _ (scenario_registry true) w' eq_refl Hrun)
    as (Hsd & Hincl & _).
  split; [exact Hsd|exact Hincl].
Defined.

End MoreRegistryInstances.

Section HandlesInstances.
Import Registry Handles.

(** X15, witness: both commands of scenario 4 are aborted through their
    handles and unregister themselves at once. *)
Lemma Abort_list_outcome_witness :
  forallb (resolved sample_handles) [0; 1; 2]%nat = true
  /\ targets sample_handles [0; 1; 2]%nat = [Some first_call; Some second_call]
  /\ exists w2,
       Handles.Abort [0; 1; 2]%nat [2; 0]%nat [] sample_handles = Done tt w2
       /\ waits w2 = 0%nat
       /\ handles w2 = [None; None; None].
Proof.
  split; [reflexivity|]. split; [reflexivity|].
  assert (Hothers : exists w2,
            others [2; 0]%nat
              (after_registry_calls
                 (map CallAbort (commands (targets sample_handles [0; 1; 2]%nat)))
                 sample_handles) = Done tt w2
            /\ handles w2 = [None; None; None]).
  { eexists. split; [vm_compute; reflexivity|reflexivity]. }
  destruct Hothers as (w2 & Hothers & Hhandles).
  destruct (Abort_list_outcome [0; 1; 2]%nat [2; 0]%nat [] sample_handles eq_refl)
    as (_ & _ & _ & Hreturns).
  assert (Hall : Forall (invalid_at w2) [0; 1; 2]%nat).
  { unfold invalid_at. rewrite Hhandles. repeat constructor. }
  destruct (Hreturns w2 ltac:(discriminate) Hothers Hall) as [Hrun Hwaits].
  exists w2. split; [exact Hrun|]. split; [exact Hwaits|exact Hhandles].
Defined.

(** X16, witness: the second command unregisters itself only during the
    first wait. *)
Lemma Abort_list_returns_unregistered_witness :
  exists w',
    Handles.Abort [0; 1; 2]%nat [0]%nat [[2]%nat] sample_handles = Done tt w'
    /\ waits w' = 1%nat
    /\ Forall (invalid_at w') [0; 1; 2]%nat
    /\ exists notes,
         calls_made (registry w') =
           [CallAbort first_call; CallAbort second_call] ++ notes
         /\ forallb notification notes = true.
Proof.
  assert (Hrun : exists w',
             Handles.Abort [0; 1; 2]%nat [0]%nat [[2]%nat] sample_handles = Done tt w'
             /\ waits w' = 1%nat).
  { eexists. split; [vm_compute; reflexivity|reflexivity]. }
  destruct Hrun as (w' & Hrun & Hwaits). exists w'.
  split; [exact Hrun|]. split; [exact Hwaits|].
  destruct (Abort_list_returns_unregistered _ _ _ sample_handles w' Hrun)
    as (Hall & aborted & notes & Hcalls & Htargets & Hnotes).
  split; [exact Hall|]. exists notes. split; [|exact Hnotes].
  assert (Haborted : aborted = [first_call; second_call]).
  { change (targets sample_handles [0; 1; 2]%nat)
      with (map Some [first_call; second_call]) in Htargets.
    revert Htargets. clear.
    intros H. destruct aborted as [|a [|b [|c rest]]]; try discriminate H.
    injection H as -> ->. reflexivity. }
  rewrite Hcalls, Haborted. reflexivity.
Defined.

End HandlesInstances.
